(** * Netflix dashboard (app.py): a model of the loader, the renderers and
      the word-cloud text, with the properties the specification states.

    The script is glue around pandas, seaborn, matplotlib, wordcloud and
    streamlit.  Each library call the script makes is given here as a
    function of the same name, written from the library's documented
    behaviour; the script's own functions ([load_data],
    [plot_type_distribution], [plot_rating_distribution],
    [plot_type_vs_rating], [generate_wordcloud]) are then transcribed line
    by line on top of them.

    Strings are byte strings (UTF-8).  The only character the script looks
    for is the comma, a single byte that never occurs inside a multi-byte
    UTF-8 sequence, so working on bytes agrees with Python's code points. *)

From Stdlib Require Import ZArith Lia QArith_base Ascii String.
From stdpp Require Import base option list sorting strings pretty gmap.

Local Open Scope string_scope.
Local Open Scope Z_scope.
Local Open Scope list_scope.

(** ** Exceptions and results *)

Inductive exn :=
  | FileNotFoundError (path : string)
  | KeyError (key : string)
  | ValueError (msg : string)
  | AttributeError (msg : string)
  | OutOfBoundsDatetime
  | IntCastingNaNError
  | ReferenceError.

Inductive result (A : Type) :=
  | Ok (a : A)
  | Raise (e : exn).
Arguments Ok {A} a.
Arguments Raise {A} e.

#[global] Instance result_ret : MRet result := @Ok.
#[global] Instance result_bind : MBind result := λ A B f r,
  match r with Ok a => f a | Raise e => Raise e end.

(** [mapR f l]: apply a fallible [f] to every element, left to right; the
    first exception aborts the traversal. *)
Fixpoint mapR {A B} (f : A → result B) (l : list A) : result (list B) :=
  match l with
  | [] => Ok []
  | a :: l' => b ← f a; bs ← mapR f l'; Ok (b :: bs)
  end.

(** ** Cells, series and data frames *)

(** A cell of a pandas column: missing (NaN / NaT), text, an integer, a
    float that holds a whole number (what [read_csv] makes of the
    integers of a column with gaps, and what stays in the column when the
    gaps are dropped), or a point in time, held as the nanoseconds from
    1970-01-01 00:00 to it (whatever unit the installed pandas stores it
    in).  Floats with a fractional part do not occur in the catalogue and
    are outside the model. *)
Inductive cell :=
  | NaN
  | Str (s : string)
  | Int (n : Z)
  | Float (n : Z)
  | Timestamp (ns : Z).

#[global] Instance cell_eq_dec : EqDecision cell.
Proof. solve_decision. Defined.

(** A column of values (a pandas Series). *)
Abbreviation Series := (list cell).

(** A data frame: the header and the records, each record holding one cell
    per column, in header order. *)
Record DataFrame := mkDataFrame {
  columns : list string;
  rows : list (list cell);
}.

#[global] Instance DataFrame_eq_dec : EqDecision DataFrame.
Proof. solve_decision. Defined.

Definition isna (c : cell) : bool :=
  match c with NaN => true | _ => false end.
Definition notna (c : cell) : bool := negb (isna c).

(** The values of a column that are not missing. *)
Abbreviation present s := (filter (λ c, notna c = true) s).

(** [df.shape[0]] *)
Definition shape0 (df : DataFrame) : nat := length (rows df).

(** Position of a column in the header. *)
Fixpoint get_loc (c : string) (cols : list string) : option nat :=
  match cols with
  | [] => None
  | c' :: cols' => if decide (c = c') then Some 0%nat else S <$> get_loc c cols'
  end.

Definition cell_at (i : nat) (r : list cell) : cell := default NaN (r !! i).

(** [df[c]] *)
Definition getitem (df : DataFrame) (c : string) : result Series :=
  match get_loc c (columns df) with
  | Some i => Ok (cell_at i <$> rows df)
  | None => Raise (KeyError c)
  end.

(** [df[c] = s]: overwrite column [c] when the header has it, append a new
    column otherwise.  The values assigned in the script are computed
    from a column of the same frame, so they line up with the records by
    position; their number must match the number of records. *)
Definition setitem (df : DataFrame) (c : string) (s : Series) : result DataFrame :=
  if decide (length s = length (rows df)) then
    match get_loc c (columns df) with
    | Some i => Ok (mkDataFrame (columns df) (zip_with (λ r v, <[i := v]> r) (rows df) s))
    | None => Ok (mkDataFrame (columns df ++ [c]) (zip_with (λ r v, r ++ [v]) (rows df) s))
    end
  else Raise (ValueError "Length of values does not match length of index").

(** A record is complete when none of its cells is missing. *)
Definition complete (r : list cell) : bool := forallb notna r.

(** [df.dropna()]: keep the complete records. *)
Definition dropna (df : DataFrame) : DataFrame :=
  mkDataFrame (columns df) (filter (λ r, complete r = true) (rows df)).

(** ** Datetimes

    An integer handed to [pd.to_datetime] is a signed 64-bit count of
    nanoseconds since 1970-01-01; the smallest 64-bit value is reserved
    for NaT.  The calendar fields of a point in time are computed from
    its day number, as pandas does. *)

Definition NPY_NAT : Z := - 2 ^ 63.
Definition int64_max : Z := 2 ^ 63 - 1.
Definition ns_per_day : Z := 86400 * 10 ^ 9.

Definition in_bounds (ns : Z) : bool := (NPY_NAT <? ns) && (ns <=? int64_max).

(** Day number (days since the epoch, rounded towards minus infinity) to
    (year, month, day), by 400-year eras starting on 1 March. *)
Definition civil_from_days (days : Z) : Z * Z * Z :=
  let z := days + 719468 in
  let era := z / 146097 in
  let doe := z mod 146097 in
  let yoe := (doe - doe / 1460 + doe / 36524 - doe / 146096) / 365 in
  let doy := doe - (365 * yoe + yoe / 4 - yoe / 100) in
  let mp := (5 * doy + 2) / 153 in
  let d := doy - (153 * mp + 2) / 5 + 1 in
  let m := if mp <? 10 then mp + 3 else mp - 9 in
  let y := yoe + era * 400 + (if m <=? 2 then 1 else 0) in
  (y, m, d).

Definition year_of (ns : Z) : Z := (civil_from_days (ns / ns_per_day)).1.1.
Definition month_of (ns : Z) : Z := (civil_from_days (ns / ns_per_day)).1.2.
Definition day_of (ns : Z) : Z := (civil_from_days (ns / ns_per_day)).2.

(** *** The calendar, by its rules

    What the calendar fields are measured against: the leap years and
    the lengths of the months of the Gregorian calendar (carried back
    before its introduction, as pandas does), and the number of days
    from 1 January 1970 to a date, counted year by year and month by
    month. *)

Definition is_leap_year (y : Z) : bool :=
  (y mod 4 =? 0) && (negb (y mod 100 =? 0) || (y mod 400 =? 0)).

Definition days_in_month (y m : Z) : Z :=
  if m =? 2 then (if is_leap_year y then 29 else 28)
  else if (m =? 4) || (m =? 6) || (m =? 9) || (m =? 11) then 30
  else 31.

Definition days_in_year (y : Z) : Z := if is_leap_year y then 366 else 365.

(** The leap years among the years 1, ..., y - 1. *)
Definition leap_years_before (y : Z) : Z :=
  (y - 1) / 4 - (y - 1) / 100 + (y - 1) / 400.

(** The days from 1 January 1970 to 1 January of the year [y]. *)
Definition days_before_year (y : Z) : Z :=
  365 * (y - 1970) + (leap_years_before y - leap_years_before 1970).

(** The days of the months of the year [y] before the month [m]. *)
Definition days_before_month (y m : Z) : Z :=
  foldr Z.add 0 (days_in_month y <$> seqZ 1 (m - 1)).

(** The days from 1 January 1970 to the day [d] of the month [m] of the
    year [y]. *)
Definition days_from_civil (y m d : Z) : Z :=
  days_before_year y + days_before_month y m + (d - 1).

(** The [.dt] accessor: only for datetime columns; NaT reads as missing. *)
Definition dt (s : Series) : result (list (option Z)) :=
  mapR (λ c, match c with
             | Timestamp ns => Ok (Some ns)
             | NaN => Ok None
             | _ => Raise (AttributeError
                             "Can only use .dt accessor with datetimelike values")
             end) s.

Definition dt_day (s : list (option Z)) : list (option Z) := option_map day_of <$> s.
Definition dt_month (s : list (option Z)) : list (option Z) := option_map month_of <$> s.
Definition dt_year (s : list (option Z)) : list (option Z) := option_map year_of <$> s.

(** [.astype(int)] on a numeric series: a missing value cannot be cast. *)
Definition astype_int (s : list (option Z)) : result (list Z) :=
  mapR (λ o, match o with Some n => Ok n | None => Raise IntCastingNaNError end) s.

(** Numeric series as columns of a frame: integers, and floats as soon
    as a value is missing. *)
Definition int_series (s : list Z) : Series := Int <$> s.
Definition num_series (s : list (option Z)) : Series :=
  if forallb (λ o, bool_decide (is_Some o)) s
  then (λ o, match o with Some n => Int n | None => NaN end) <$> s
  else (λ o, match o with Some n => Float n | None => NaN end) <$> s.

(** ** Sorting and counting *)

(** Insertion sort, stable: an element goes in front of the first one it
    is not after, and elements are inserted from the right. *)
Fixpoint insert_by {A} (le : A → A → bool) (x : A) (l : list A) : list A :=
  match l with
  | [] => [x]
  | y :: l' => if le x y then x :: y :: l' else y :: insert_by le x l'
  end.

Definition sort_by {A} (le : A → A → bool) (l : list A) : list A :=
  foldr (insert_by le) [] l.

(** [s.unique()]: the distinct values, in order of first appearance. *)
Fixpoint unique (s : Series) : list cell :=
  match s with
  | [] => []
  | c :: s' => c :: filter (λ x, x ≠ c) (unique s')
  end.

(** Number of cells of [s] equal to [c]. *)
Definition count (c : cell) (s : Series) : nat := length (filter (λ x, x = c) s).

(** [s.value_counts()]: missing values are left out ([dropna=True]); the
    distinct values are met in order of first appearance and sorted by
    count, largest first ([sort=True], [ascending=False]).  Equal counts
    keep their order of first appearance; no property below depends on
    the order among equal counts. *)
Definition value_counts (s : Series) : list (cell * nat) :=
  let s' := filter (λ c, notna c = true) s in
  sort_by (λ a b, (b.2 <=? a.2)%nat) ((λ u, (u, count u s')) <$> unique s').

(** The index and the values of a [value_counts] result. *)
Definition index (vc : list (cell * nat)) : list cell := vc.*1.
Definition values (vc : list (cell * nat)) : list nat := vc.*2.

(** ** Figures *)

(** One wedge of a pie: its label, its size (a count) and how far it is
    pulled out of the pie. *)
Record Wedge := mkWedge {
  wedge_label : cell;
  wedge_size : nat;
  wedge_explode : Q;
}.

(** What a word cloud is drawn from: the word frequencies, the canvas and
    the seed of the random placement. *)
Record WordCloudImage := mkWordCloudImage {
  frequencies : list (string * nat);
  background_color : string;
  width : Z;
  height : Z;
  random_state : Z;
}.

(** What is drawn on a pair of axes.  Bars are listed left to right, each
    with its category and its height; grouped bars carry one bar per hue
    level inside each category. *)
Inductive Plot :=
  | Bars (bars : list (cell * nat))
  | GroupedBars (groups : list (cell * list (cell * nat)))
  | Pie (wedges : list Wedge) (autopct : string) (shadow : bool) (startangle : Z)
  | Image (img : WordCloudImage) (interpolation : string).

Record Axes := mkAxes {
  plot : Plot;
  title : string;
  xlabel : string;
  ylabel : string;
  xtick_rotation : Z;
}.

Record Figure := mkFigure {
  figsize : Z * Z;
  axes : list Axes;
}.

(** ** seaborn *)

(** A column is numeric when it holds numbers only (missing values
    included). *)
Definition is_numeric (s : Series) : bool :=
  forallb (λ c, match c with Int _ | Float _ | NaN => true | _ => false end) s.

(** The order [np.sort] gives numbers, missing values last. *)
Definition cell_le (a b : cell) : bool :=
  match a, b with
  | (Int x | Float x), (Int y | Float y) => x <=? y
  | NaN, (Int _ | Float _) => false
  | _, _ => true
  end.

(** [categorical_order(vector, order)]: the given order, or else the
    distinct values in order of first appearance (numbers sorted), missing
    values left out. *)
Definition categorical_order (vector : Series) (order : option (list cell)) : list cell :=
  match order with
  | Some o => o
  | None =>
      let u := unique vector in
      filter (λ c, notna c = true) (if is_numeric vector then sort_by cell_le u else u)
  end.

(** [sns.countplot(x=x, order=order)]: one bar per category, as high as the
    number of records with that value.  (The script takes the categories
    from the column itself, so each of them has a record.) *)
Definition countplot (x : Series) (order : option (list cell)) : list (cell * nat) :=
  let data := filter (λ c, notna c = true) x in
  (λ c, (c, count c data)) <$> categorical_order x order.

(** [sns.countplot(x=..., hue=..., order=order)]: the categories of the
    x-axis, and inside each category one bar for every hue level that has
    a record there, in the order of the hue levels, counting the records
    with both values.  Records missing either value are left out, and a
    pair of values without a record gets no bar. *)
Definition countplot_hue (x hue : Series) (order : option (list cell))
    : list (cell * list (cell * nat)) :=
  let data := filter (λ p, notna p.1 && notna p.2 = true) (zip x hue) in
  let levels := categorical_order hue None in
  (λ c, (c, filter (λ b, (0 < b.2)%nat)
              ((λ h, (h, length (filter (λ p, p = (c, h)) data))) <$> levels)))
    <$> categorical_order x order.

(** The axis labels [countplot] writes: the name of the column and
    [count]; on data without records it returns at once and writes
    nothing. *)
Definition countplot_labels (x : Series) (name : string) : string * string :=
  if decide (x = []) then ("", "") else (name, "count").

(** ** matplotlib *)

(** [ax.pie(x, labels=labels, explode=explode)]: one wedge per size, in
    order, the i-th wedge taking the i-th label and the i-th offset.
    Sizes that add up to nothing (no size at all, or zeros only) are
    refused, and so are labels or offsets that are not one per size; all
    three with a ValueError, whose wording depends on the version of
    matplotlib.  Colours and fonts are not part of the model. *)
Definition pie (x : list nat) (labels : list cell) (explode : list Q)
    : result (list Wedge) :=
  if decide (sum_list x = 0%nat) then
    Raise (ValueError "All wedge sizes are zero")
  else if decide (length x ≠ length labels) then
    Raise (ValueError "'labels' must be of length 'x'")
  else if decide (length x ≠ length explode) then
    Raise (ValueError "'explode' must be of length 'x'")
  else Ok (zip_with (λ s le, mkWedge le.1 s le.2) x (zip labels explode)).

(** [s.plot.pie()] on a [value_counts] result: the wedges are labelled by
    the index, none is pulled out. *)
Definition plot_pie (vc : list (cell * nat)) : result (list Wedge) :=
  pie (values vc) (index vc) (replicate (length vc) (0 # 1)%Q).

(** ** Text *)

(** Decimal numeral of [n], padded with zeros on the left to [w] digits
    (Python's [f"{n:0wd}"], for [n] not negative). *)
Definition pad (w : nat) (n : Z) : string :=
  let s := pretty n in
  String.concat "" (replicate (w - String.length s) "0") +:+ s.

Definition format_date (ns : Z) : string :=
  pretty (year_of ns) +:+ "-" +:+ pad 2 (month_of ns) +:+ "-" +:+ pad 2 (day_of ns).

Definition format_time (ns : Z) : string :=
  let secs := (ns mod ns_per_day) / 10 ^ 9 in
  pad 2 (secs / 3600) +:+ ":" +:+ pad 2 (secs / 60 mod 60) +:+ ":" +:+ pad 2 (secs mod 60).

(** How fine a timestamp is: the smallest unit it has a non-zero part in. *)
Inductive resolution := RESO_DAY | RESO_SEC | RESO_MS | RESO_US | RESO_NS.

Definition resolution_rank (r : resolution) : nat :=
  match r with
  | RESO_DAY => 0 | RESO_SEC => 1 | RESO_MS => 2 | RESO_US => 3 | RESO_NS => 4
  end%nat.

Definition resolution_of (ns : Z) : resolution :=
  if negb (ns mod 10 ^ 3 =? 0) then RESO_NS
  else if negb (ns mod 10 ^ 6 =? 0) then RESO_US
  else if negb (ns mod 10 ^ 9 =? 0) then RESO_MS
  else if negb (ns mod ns_per_day =? 0) then RESO_SEC
  else RESO_DAY.

Definition finer (a b : resolution) : resolution :=
  if (resolution_rank a <? resolution_rank b)%nat then b else a.

(** A timestamp printed at a given resolution. *)
Definition format_datetime (r : resolution) (ns : Z) : string :=
  let frac := ns mod 10 ^ 9 in
  match r with
  | RESO_DAY => format_date ns
  | RESO_SEC => format_date ns +:+ " " +:+ format_time ns
  | RESO_MS => format_date ns +:+ " " +:+ format_time ns +:+ "." +:+ pad 3 (frac / 10 ^ 6)
  | RESO_US => format_date ns +:+ " " +:+ format_time ns +:+ "." +:+ pad 6 (frac / 10 ^ 3)
  | RESO_NS => format_date ns +:+ " " +:+ format_time ns +:+ "." +:+ pad 9 frac
  end.

(** [str(x)] for one value.  A float that holds a whole number prints
    with a trailing [.0] (for magnitudes below 10^16, where a float still
    prints positionally).  A lone timestamp prints its time of day, and
    its fraction of a second in microseconds or nanoseconds when it has
    one. *)
Definition str (c : cell) : string :=
  match c with
  | NaN => "nan"
  | Str s => s
  | Int n => pretty n
  | Float n => pretty n +:+ ".0"
  | Timestamp ns =>
      match resolution_of ns with
      | RESO_DAY | RESO_SEC => format_datetime RESO_SEC ns
      | RESO_MS | RESO_US => format_datetime RESO_US ns
      | RESO_NS => format_datetime RESO_NS ns
      end
  end.

(** A datetime column holds timestamps, and NaT where a date is missing. *)
Definition is_datetime (s : Series) : bool :=
  forallb (λ c, match c with Timestamp _ | NaN => true | _ => false end) s
  && existsb (λ c, match c with Timestamp _ => true | _ => false end) s.

(** [s.astype(str)]: every value as text.  A datetime column is printed at
    the finest resolution found in it (dates alone when every value is at
    midnight). *)
Definition astype_str (s : Series) : list string :=
  if is_datetime s then
    let r := foldr (λ c r, match c with
                           | Timestamp ns => finer (resolution_of ns) r
                           | _ => r
                           end) RESO_DAY s in
    (λ c, match c with Timestamp ns => format_datetime r ns | _ => "NaT" end) <$> s
  else str <$> s.

(** Python's [s.replace(old, new)] for a non-empty [old]: the occurrences
    of [old] are found left to right, without overlap.  [skip] counts the
    characters of a found occurrence that are still to be passed over. *)
Fixpoint replace_from (old new : string) (skip : nat) (s : string) : string :=
  match s with
  | EmptyString => EmptyString
  | String a s' =>
      match skip with
      | S k => replace_from old new k s'
      | O =>
          if String.prefix old s
          then new +:+ replace_from old new (String.length old - 1) s'
          else String a (replace_from old new 0 s')
      end
  end.

(** With an empty [old] Python puts [new] in front of every character and
    at the end. *)
Fixpoint intersperse_all (new : string) (s : string) : string :=
  match s with
  | EmptyString => new
  | String a s' => new +:+ String a (intersperse_all new s')
  end.

Definition str_replace (old new : string) (s : string) : string :=
  match old with
  | EmptyString => intersperse_all new s
  | _ => replace_from old new 0 s
  end.

(** [sep.join(l)] *)
Fixpoint join (sep : string) (l : list string) : string :=
  match l with
  | [] => ""
  | [x] => x
  | x :: l' => x +:+ sep +:+ join sep l'
  end.

(** The blank characters of ASCII, as [str.isspace] has them. *)
Definition is_blank (a : ascii) : bool :=
  let n := N_of_ascii a in
  ((9 <=? n) && (n <=? 13) || (28 <=? n) && (n <=? 32))%N.

(** The words of a text: its maximal runs of characters that are not
    blank, left to right (what [text.split()] returns).  [w] is the word
    being read. *)
Fixpoint tokens_from (w : string) (s : string) : list string :=
  match s with
  | EmptyString => if decide (w = "") then [] else [w]
  | String a s' =>
      if is_blank a
      then (if decide (w = "") then tokens_from "" s' else w :: tokens_from "" s')
      else tokens_from (w +:+ String a "") s'
  end.

Definition tokens (s : string) : list string := tokens_from "" s.

(** How often a word occurs among the words of a text. *)
Definition token_count (w : string) (text : string) : nat :=
  length (filter (λ t, t = w) (tokens text)).

(** ** The running program: objects, files, caches

    Data frames are Python objects: a variable holds a reference, [copy]
    and [dropna] make a new object, and [df[c] = s] changes the object
    every holder of the reference sees. *)

(** A reference is the position of the object in the heap. *)
Abbreviation ref := nat (only parsing).

Record World := mkWorld {
  (** the data frames alive, by reference *)
  heap : list DataFrame;
  (** the CSV files on disk that parse, each as the table [read_csv]
      parses from it; reading any other path fails *)
  files : gmap string DataFrame;
  (** what the operating system hands out next as random seeds *)
  entropy : list Z;
  (** [st.cache_data] store of [load_data], keyed by the file path *)
  load_data_cache : gmap string (DataFrame * DataFrame);
  (** [st.cache_data] store of [generate_wordcloud], keyed by the content
      of the table, the column name and the title; newest entry first *)
  generate_wordcloud_cache : list ((DataFrame * string * string) * Figure);
}.

(** A computation reads and changes the world, and returns or raises;
    either way it leaves a world behind: what was done before an
    exception stays done. *)
Definition M (A : Type) : Type := World → result A * World.

#[global] Instance M_ret : MRet M := λ A a w, (Ok a, w).
#[global] Instance M_bind : MBind M := λ A B f m w,
  match m w with
  | (Ok a, w') => f a w'
  | (Raise e, w') => (Raise e, w')
  end.

Definition lift {A} (r : result A) : M A := λ w, (r, w).

Definition set_heap (h : list DataFrame) (w : World) : World :=
  mkWorld h (files w) (entropy w) (load_data_cache w) (generate_wordcloud_cache w).

(** A new object; its reference is the next free one. *)
Definition alloc (df : DataFrame) : M ref := λ w,
  (Ok (length (heap w)), set_heap (heap w ++ [df]) w).

Definition deref (r : ref) : M DataFrame := λ w,
  match heap w !! r with
  | Some df => (Ok df, w)
  | None => (Raise ReferenceError, w)
  end.

Definition store (r : ref) (df : DataFrame) : M unit := λ w,
  (Ok tt, set_heap (<[r := df]> (heap w)) w).

(** Lookup in an association list, first match. *)
Fixpoint assoc {K V} `{EqDecision K} (k : K) (l : list (K * V)) : option V :=
  match l with
  | [] => None
  | (k', v) :: l' => if decide (k = k') then Some v else assoc k l'
  end.

Definition set_entropy (e : list Z) (w : World) : World :=
  mkWorld (heap w) (files w) e (load_data_cache w) (generate_wordcloud_cache w).

Definition set_load_data_cache (c : gmap string (DataFrame * DataFrame)) (w : World) : World :=
  mkWorld (heap w) (files w) (entropy w) c (generate_wordcloud_cache w).

Definition set_generate_wordcloud_cache
    (c : list ((DataFrame * string * string) * Figure)) (w : World) : World :=
  mkWorld (heap w) (files w) (entropy w) (load_data_cache w) c.

Definition load_data_cache_read (key : string) : M (option (DataFrame * DataFrame)) := λ w,
  (Ok (load_data_cache w !! key), w).

Definition generate_wordcloud_cache_read (key : DataFrame * string * string)
    : M (option Figure) := λ w,
  (Ok (assoc key (generate_wordcloud_cache w)), w).

Definition load_data_cache_write (key : string) (v : DataFrame * DataFrame) : M unit := λ w,
  (Ok tt, set_load_data_cache (<[key := v]> (load_data_cache w)) w).

Definition generate_wordcloud_cache_write (key : DataFrame * string * string) (v : Figure)
    : M unit := λ w,
  (Ok tt, set_generate_wordcloud_cache ((key, v) :: generate_wordcloud_cache w) w).

(** A fresh seed from the operating system ([Random()] without argument). *)
Definition os_random : M Z := λ w,
  (Ok (hd 0 (entropy w)), set_entropy (tl (entropy w)) w).

(** [pd.read_csv(path)]: a new frame with what the file parses to. *)
Definition read_csv (file_path : string) : M ref := λ w,
  match files w !! file_path with
  | Some df => alloc df w
  | None => (Raise (FileNotFoundError file_path), w)
  end.

(** The pandas methods, on references. *)
Definition DataFrame_copy (r : ref) : M ref := df ← deref r; alloc df.
Definition DataFrame_dropna (r : ref) : M ref := df ← deref r; alloc (dropna df).
Definition DataFrame_getitem (r : ref) (c : string) : M Series :=
  df ← deref r; lift (getitem df c).
Definition DataFrame_setitem (r : ref) (c : string) (s : Series) : M unit :=
  df ← deref r; df' ← lift (setitem df c s); store r df'.

(** seaborn looking up a column named in [x=] or [hue=] of [data]. *)
Definition data_variable (r : ref) (c : string) : M Series :=
  df ← deref r;
  lift (match getitem df c with
        | Ok s => Ok s
        | Raise _ => Raise (ValueError ("Could not interpret value `" +:+ c +:+ "`"))
        end).

(** Outcome of parsing one date string: no date, a date the timestamps
    of the installed pandas cannot hold, the missing date, or a point in
    time. *)
Inductive parsed :=
  | Unparseable
  | OutOfBounds
  | NaT
  | At (ns : Z).

(** ** A small catalogue, for examples *)

Module Fixture.

Definition header : list string :=
  ["show_id"; "type"; "title"; "director"; "cast"; "country"; "date_added";
   "release_year"; "rating"; "duration"; "listed_in"; "description"].

Definition table : DataFrame := mkDataFrame header
  [ [Str "s1"; Str "Movie"; Str "A"; Str "Ann Lee"; Str "Bo Chen, Cy Diaz"; Str "USA";
     Str "September 25, 2021"; Int 2020; Str "PG"; Str "90 min"; Str "Dramas, Comedies"; Str "x"];
    [Str "s2"; Str "TV Show"; Str "B"; NaN; Str "Di Fox"; Str "USA, India";
     Str "2021-09-24"; Int 2021; Str "PG"; Str "2 Seasons"; Str "Dramas"; Str "y"];
    [Str "s3"; Str "TV Show"; Str "C"; Str "Ed Gil"; Str "Flo Hu"; Str "USA, India";
     Str " August 4, 2017"; Int 2017; Str "TV-MA"; Str "1 Season"; Str "Kids' TV"; Str "z"] ].

(** A date parser that knows the three spellings used above: each is
    read as midnight of the day it names. *)
Definition parse (s : string) : parsed :=
  if decide (s = "September 25, 2021") then At (days_from_civil 2021 9 25 * ns_per_day)
  else if decide (s = "2021-09-24") then At (days_from_civil 2021 9 24 * ns_per_day)
  else if decide (s = " August 4, 2017") then At (days_from_civil 2017 8 4 * ns_per_day)
  else if decide (s = "NaT") then NaT
  else Unparseable.

(** A text analysis that counts the words as they stand. *)
Definition word_counts (text : string) : list (string * nat) :=
  let ts := tokens text in
  (λ t, (t, length (filter (λ x, x = t) ts))) <$> remove_dups ts.

Definition world : World :=
  mkWorld [] {[ "netflix_titles.csv" := table ]} [42; 7] ∅ [].

(** A table with the two columns the distribution charts read. *)
Definition of_types_ratings (l : list (cell * cell)) : DataFrame :=
  mkDataFrame ["type"; "rating"] ((λ p, [p.1; p.2]) <$> l).

(** A world holding one table, at reference 0. *)
Definition holding (t : DataFrame) : World := mkWorld [t] ∅ [] ∅ [].

(** Two shows and one movie. *)
Definition more_shows : DataFrame :=
  of_types_ratings [(Str "TV Show", Str "PG"); (Str "TV Show", Str "TV-MA");
                    (Str "Movie", Str "PG")].

(** A movie, a show, and a record whose type is missing. *)
Definition type_missing : DataFrame :=
  of_types_ratings [(Str "Movie", Str "PG"); (Str "TV Show", Str "PG");
                    (NaN, Str "PG")].

(** Movies only. *)
Definition only_movies : DataFrame :=
  of_types_ratings [(Str "Movie", Str "PG"); (Str "Movie", Str "R")].

(** A world with one file, nothing loaded yet. *)
Definition with_file (t : DataFrame) : World :=
  mkWorld [] {[ "netflix_titles.csv" := t ]} [42; 7] ∅ [].

(** The catalogue with a complete record whose date is the text NaT. *)
Definition nat_date : DataFrame := mkDataFrame header
  [ [Str "s1"; Str "Movie"; Str "A"; Str "Ann Lee"; Str "Bo Chen"; Str "USA";
     Str "September 25, 2021"; Int 2020; Str "PG"; Str "90 min"; Str "Dramas"; Str "x"];
    [Str "s2"; Str "TV Show"; Str "B"; Str "Ed Gil"; Str "Di Fox"; Str "India";
     Str "NaT"; Int 2021; Str "PG"; Str "2 Seasons"; Str "Dramas"; Str "y"] ].

(** The catalogue with a complete record whose date is no date. *)
Definition bad_date : DataFrame := mkDataFrame header
  [ [Str "s1"; Str "Movie"; Str "A"; Str "Ann Lee"; Str "Bo Chen"; Str "USA";
     Str "soon"; Int 2020; Str "PG"; Str "90 min"; Str "Dramas"; Str "x"] ].

(** The catalogue with no complete record: the one record misses its
    director, and its date is no date. *)
Definition none_complete : DataFrame := mkDataFrame header
  [ [Str "s1"; Str "Movie"; Str "A"; NaN; Str "Bo Chen"; Str "USA";
     Str "soon"; Int 2020; Str "PG"; Str "90 min"; Str "Dramas"; Str "x"] ].

(** Two movies and one show. *)
Definition more_movies : DataFrame :=
  of_types_ratings [(Str "TV Show", Str "PG"); (Str "Movie", Str "TV-MA");
                    (Str "Movie", Str "PG")].

(** A parser that also reads the ISO date of a day in the year 900, as
    a pandas does whose timestamps reach that far back. *)
Definition parse_wide (s : string) : parsed :=
  if decide (s = "0900-05-06") then At (days_from_civil 900 5 6 * ns_per_day)
  else parse s.

(** The catalogue with one record, added on that day. *)
Definition old_date : DataFrame := mkDataFrame header
  [ [Str "s1"; Str "Movie"; Str "A"; Str "Ann Lee"; Str "Bo Chen"; Str "USA";
     Str "0900-05-06"; Int 2020; Str "PG"; Str "90 min"; Str "Dramas"; Str "x"] ].

(** The catalogue without records. *)
Definition no_records : DataFrame := mkDataFrame header [].

(** A table with titles only, and one with titles and ratings only. *)
Definition titles_only : DataFrame := mkDataFrame ["title"] [[Str "A"]; [Str "B"]].
Definition titles_ratings : DataFrame :=
  mkDataFrame ["title"; "rating"] [[Str "A"; Str "PG"]; [Str "B"; Str "R"]].

End Fixture.

Section Dashboard.

(** The date-string parser behind [pd.to_datetime(..., format='mixed')]:
    each string is parsed on its own, whatever its format, to the
    wall-clock time it spells, counted in nanoseconds since 1970-01-01
    00:00 (time zones are outside the model).  Which dates are out of
    bounds is the parser's to say: pandas 2 keeps nanoseconds in 64
    bits, which reach from 1677 to 2262, and later versions pick a
    coarser unit that reaches further.  The parser is a parameter of the
    development: nothing below depends on which strings it accepts. *)
Variable parse_datetime_string : string → parsed.

(** The text analysis of the wordcloud library ([WordCloud.process_text]:
    tokenizing, dropping stop words, merging plurals and frequent word
    pairs): from a text to its word frequencies.  Also a parameter. *)
Variable process_text : string → list (string * nat).

Definition to_datetime_cell (c : cell) : result cell :=
  match c with
  | NaN => Ok NaN
  | Timestamp ns => Ok (Timestamp ns)
  | Int n | Float n =>
      if decide (n = NPY_NAT) then Ok NaN
      else if in_bounds n then Ok (Timestamp n) else Raise OutOfBoundsDatetime
  | Str s =>
      match parse_datetime_string s with
      | Unparseable => Raise (ValueError ("Unknown datetime string format: " +:+ s))
      | OutOfBounds => Raise OutOfBoundsDatetime
      | NaT => Ok NaN
      | At ns => Ok (Timestamp ns)
      end
  end.

(** [pd.to_datetime(s, format='mixed')], with the default [errors='raise'].
    Every value is converted on its own: text is parsed, an integer is a
    count of nanoseconds in 64 bits, a timestamp stays as it is and a
    missing value stays missing. *)
Definition to_datetime (s : Series) : result Series := mapR to_datetime_cell s.

(** ** app.py *)

(** The body of [load_data] (what the decorator wraps). *)
Definition load_data__wrapped (file_path : string) : M (ref * ref) :=
  netflix_raw ← read_csv file_path;
  netflix_df ← (copied ← DataFrame_copy netflix_raw; DataFrame_dropna copied);
  dates ← (s ← DataFrame_getitem netflix_df "date_added"; lift (to_datetime s));
  DataFrame_setitem netflix_df "date_added" dates;;
  day ← (s ← DataFrame_getitem netflix_df "date_added"; a ← lift (dt s);
         lift (astype_int (dt_day a)));
  DataFrame_setitem netflix_df "day_added" (int_series day);;
  year ← (s ← DataFrame_getitem netflix_df "date_added"; a ← lift (dt s);
          lift (astype_int (dt_year a)));
  DataFrame_setitem netflix_df "year_added" (int_series year);;
  month ← (s ← DataFrame_getitem netflix_df "date_added"; a ← lift (dt s);
           mret (dt_month a));
  DataFrame_setitem netflix_df "month_added" (num_series month);;
  mret (netflix_raw, netflix_df).

(** [@st.cache_data def load_data(file_path)]: the store is looked up under
    the path; a hit hands out fresh copies of the stored tables, a miss
    runs the body, stores the content of what it returned and hands that
    out.  An exception leaves nothing in the store. *)
Definition load_data (file_path : string) : M (ref * ref) :=
  cached ← load_data_cache_read file_path;
  match cached with
  | Some (raw, df) =>
      netflix_raw ← alloc raw; netflix_df ← alloc df; mret (netflix_raw, netflix_df)
  | None =>
      '(netflix_raw, netflix_df) ← load_data__wrapped file_path;
      raw ← deref netflix_raw;
      df ← deref netflix_df;
      load_data_cache_write file_path (raw, df);;
      mret (netflix_raw, netflix_df)
  end.

Definition plot_type_distribution (df : ref) : M Figure :=
  (* bar plot *)
  x ← DataFrame_getitem df "type";
  let ax0 := mkAxes (Bars (countplot x None)) "Count of Content Type" "Content Type" "Count" 0 in
  (* pie chart *)
  let labels := [Str "Movie"; Str "TV Show"] in
  size ← (s ← DataFrame_getitem df "type"; mret (value_counts s));
  let explode := [0 # 1; 5 # 100]%Q in
  wedges ← lift (pie (values size) labels explode);
  let ax1 := mkAxes (Pie wedges "%1.1f%%" true 90)
                    "Percentage Distribution of Content Type" "" "" 0 in
  mret (mkFigure (15, 6) [ax0; ax1]).

Definition plot_rating_distribution (df : ref) : M Figure :=
  (* bar plot *)
  rating_order ← (s ← DataFrame_getitem df "rating"; mret (index (value_counts s)));
  x ← DataFrame_getitem df "rating";
  let '(x_label, y_label) := countplot_labels x "rating" in
  let ax0 := mkAxes (Bars (countplot x (Some rating_order)))
                    "Count of Content by Rating" x_label y_label 70 in
  (* pie chart *)
  vc ← (s ← DataFrame_getitem df "rating"; mret (value_counts s));
  wedges ← lift (plot_pie vc);
  let ax1 := mkAxes (Pie wedges "%1.1f%%" true 0)
                    "Percentage Distribution of Content by Rating" "" "" 0 in
  mret (mkFigure (20, 8) [ax0; ax1]).

Definition plot_type_vs_rating (df : ref) : M Figure :=
  order ← (s ← DataFrame_getitem df "rating"; mret (index (value_counts s)));
  x ← data_variable df "rating";
  hue ← data_variable df "type";
  let '(x_label, y_label) := countplot_labels x "rating" in
  let ax := mkAxes (GroupedBars (countplot_hue x hue (Some order)))
                   "Relation between Type (Movie/TV Show) and Rating" x_label y_label 70 in
  mret (mkFigure (14, 8) [ax]).

(** [WordCloud(background_color=..., width=..., height=...).generate(text)]:
    the frequencies of the text, refused when there is no word, then a
    random layout from a fresh seed. *)
Definition WordCloud_generate (background : string) (w h : Z) (text : string)
    : M WordCloudImage :=
  let freq := process_text text in
  if decide (freq = []) then
    lift (Raise (ValueError "We need at least 1 word to plot a word cloud, got 0."))
  else
    seed ← os_random;
    mret (mkWordCloudImage freq background w h seed).

(** The text the word cloud is made from (line 127). *)
Definition wordcloud_text (s : Series) : string :=
  join " " (str_replace "," "" <$> astype_str s).

(** The body of [generate_wordcloud]. *)
Definition generate_wordcloud__wrapped (df : ref) (column_name title : string) : M Figure :=
  text ← (s ← DataFrame_getitem df column_name; mret (wordcloud_text s));
  wordcloud ← WordCloud_generate "white" 1920 1080 text;
  mret (mkFigure (10, 6) [mkAxes (Image wordcloud "bilinear") title "" "" 0]).

(** [@st.cache_data def generate_wordcloud(df, column_name, title)]: the
    store is keyed by the arguments, the table by its content. *)
Definition generate_wordcloud (df : ref) (column_name title : string) : M Figure :=
  table ← deref df;
  cached ← generate_wordcloud_cache_read (table, column_name, title);
  match cached with
  | Some fig => mret fig
  | None =>
      fig ← generate_wordcloud__wrapped df column_name title;
      generate_wordcloud_cache_write (table, column_name, title) fig;;
      mret fig
  end.

(** The dropdown entries and what each stands for. *)
Definition wordcloud_map : list (string * (string * string)) :=
  [ ("listed_in (Category)", ("listed_in", "Most Popular Categories on Netflix"));
    ("country", ("country", "Most Contributing Countries on Netflix"));
    ("cast", ("cast", "Most Featured Cast Members on Netflix"));
    ("director", ("director", "Most Frequent Directors on Netflix")) ].

(** What one run of the script puts on the page: the two row counts of
    the overview and the charts, top to bottom.  [wordcloud_option] is the
    entry selected in the dropdown. *)
Definition app (wordcloud_option : string) : M (nat * nat * list Figure) :=
  '(netflix_raw, netflix_df) ← load_data "netflix_titles.csv";
  raw_rows ← (t ← deref netflix_raw; mret (shape0 t));
  cleaned_rows ← (t ← deref netflix_df; mret (shape0 t));
  fig1 ← plot_type_distribution netflix_raw;
  fig2 ← plot_rating_distribution netflix_raw;
  fig3 ← plot_type_vs_rating netflix_raw;
  '(column, title) ← lift (match assoc wordcloud_option wordcloud_map with
                           | Some ct => Ok ct
                           | None => Raise (KeyError wordcloud_option)
                           end);
  fig4 ← generate_wordcloud netflix_df column title;
  mret (raw_rows, cleaned_rows, [fig1; fig2; fig3; fig4]).

(** ** Vocabulary of the properties *)

(** The order of a [value_counts] result: counts do not increase. *)
Definition count_ge (a b : cell * nat) : Prop := (b.2 ≤ a.2)%nat.

(** The characters of [s] that satisfy [keep], in order. *)
Fixpoint string_filter (keep : ascii → bool) (s : string) : string :=
  match s with
  | EmptyString => EmptyString
  | String a s' => if keep a then String a (string_filter keep s') else string_filter keep s'
  end.

Definition not_comma (a : ascii) : bool := negb (Ascii.eqb a ",").

(** No character of [s] is blank. *)
Fixpoint no_blank (s : string) : bool :=
  match s with
  | EmptyString => true
  | String a s' => negb (is_blank a) && no_blank s'
  end.

(** A computation that only looks at the world: it leaves the world as
    it found it, whether it returns or raises. *)
Definition read_only {A} (m : M A) : Prop := ∀ w, (m w).2 = w.

(** Every record has one cell per column. *)
Definition well_formed (t : DataFrame) : Prop :=
  Forall (λ r, length r = length (columns t)) (rows t).

(** What the body of [load_data] makes of the parsed table, as a function
    of the table alone. *)
Definition clean (t : DataFrame) : result DataFrame :=
  let df0 := dropna t in
  dates ← (s ← getitem df0 "date_added"; to_datetime s);
  df1 ← setitem df0 "date_added" dates;
  day ← (s ← getitem df1 "date_added"; a ← dt s; astype_int (dt_day a));
  df2 ← setitem df1 "day_added" (int_series day);
  year ← (s ← getitem df2 "date_added"; a ← dt s; astype_int (dt_year a));
  df3 ← setitem df2 "year_added" (int_series year);
  month ← (s ← getitem df3 "date_added"; a ← dt s; Ok (dt_month a));
  setitem df3 "month_added" (num_series month).

(** The names of the columns the loader writes. *)
Definition derived_columns : list string :=
  ["date_added"; "day_added"; "year_added"; "month_added"].

(** A table the loader accepts: rectangular, with a [date_added] column
    whose value in every complete record converts to a timestamp. *)
Definition valid_table (t : DataFrame) : Prop :=
  well_formed t
  ∧ ∃ original,
      getitem (dropna t) "date_added" = Ok original
      ∧ Forall (λ c0, ∃ ns, to_datetime_cell c0 = Ok (Timestamp ns)) original.

(** What is drawn on the [i]-th axes of a figure. *)
Definition bars_of (fig : Figure) (i : nat) : list (cell * nat) :=
  match plot <$> axes fig !! i with Some (Bars b) => b | _ => [] end.

Definition groups_of (fig : Figure) (i : nat) : list (cell * list (cell * nat)) :=
  match plot <$> axes fig !! i with Some (GroupedBars g) => g | _ => [] end.

Definition wedges_of (fig : Figure) (i : nat) : list Wedge :=
  match plot <$> axes fig !! i with Some (Pie ws _ _ _) => ws | _ => [] end.

Definition image_of (fig : Figure) (i : nat) : option WordCloudImage :=
  match plot <$> axes fig !! i with Some (Image img _) => Some img | _ => None end.

(** The labels the type pie is given, whatever the data. *)
Definition type_labels : list cell := [Str "Movie"; Str "TV Show"].

(** Whether the character [a] occurs in [s]. *)
Fixpoint occurs (a : ascii) (s : string) : bool :=
  match s with
  | EmptyString => false
  | String b s' => Ascii.eqb a b || occurs a s'
  end.

(** The figures of the three renderers, as functions of the table. *)
Definition type_distribution_figure (t : DataFrame) : result Figure :=
  x ← getitem t "type";
  wedges ← pie (values (value_counts x)) type_labels [0 # 1; 5 # 100]%Q;
  Ok (mkFigure (15, 6)
        [mkAxes (Bars (countplot x None)) "Count of Content Type"
                "Content Type" "Count" 0;
         mkAxes (Pie wedges "%1.1f%%" true 90)
                "Percentage Distribution of Content Type" "" "" 0]).

Definition rating_distribution_figure (t : DataFrame) : result Figure :=
  x ← getitem t "rating";
  wedges ← plot_pie (value_counts x);
  Ok (mkFigure (20, 8)
        [mkAxes (Bars (countplot x (Some (index (value_counts x)))))
                "Count of Content by Rating"
                (countplot_labels x "rating").1 (countplot_labels x "rating").2 70;
         mkAxes (Pie wedges "%1.1f%%" true 0)
                "Percentage Distribution of Content by Rating" "" "" 0]).

Definition type_vs_rating_figure (t : DataFrame) : result Figure :=
  x ← getitem t "rating";
  match getitem t "type" with
  | Raise _ => Raise (ValueError "Could not interpret value `type`")
  | Ok hue =>
      Ok (mkFigure (14, 8)
            [mkAxes (GroupedBars (countplot_hue x hue (Some (index (value_counts x)))))
                    "Relation between Type (Movie/TV Show) and Rating"
                    (countplot_labels x "rating").1 (countplot_labels x "rating").2
                    70])
  end.

(** The script after the load: the overview, the charts, the selected
    word cloud. *)
Definition render_page (netflix_raw netflix_df : ref) (wordcloud_option : string)
    : M (nat * nat * list Figure) :=
  raw_rows ← (t ← deref netflix_raw; mret (shape0 t));
  cleaned_rows ← (t ← deref netflix_df; mret (shape0 t));
  fig1 ← plot_type_distribution netflix_raw;
  fig2 ← plot_rating_distribution netflix_raw;
  fig3 ← plot_type_vs_rating netflix_raw;
  '(column, title) ← lift (match assoc wordcloud_option wordcloud_map with
                           | Some ct => Ok ct
                           | None => Raise (KeyError wordcloud_option)
                           end);
  fig4 ← generate_wordcloud netflix_df column title;
  mret (raw_rows, cleaned_rows, [fig1; fig2; fig3; fig4]).

(** * Properties *)

(** ** Sorting *)

Section sorting.
Context {A : Type} (le : A → A → bool).

Lemma insert_by_perm x l : insert_by le x l ≡ₚ x :: l.
Proof.
  induction l as [|y l IH]; simpl; [done|].
  destruct (le x y); [done|].
  rewrite IH. apply Permutation_swap.
Qed.

Lemma sort_by_perm l : sort_by le l ≡ₚ l.
Proof.
  induction l as [|x l IH]; simpl; [done|].
  unfold sort_by in *. simpl. rewrite insert_by_perm. by f_equiv.
Qed.

Lemma sort_by_length l : length (sort_by le l) = length l.
Proof. by rewrite sort_by_perm. Qed.

Context (R : relation A).
Hypothesis R_trans : Transitive R.
Hypothesis le_R : ∀ x y, le x y = true → R x y.
Hypothesis nle_R : ∀ x y, le x y = false → R y x.

Lemma insert_by_sorted x l :
  StronglySorted R l → StronglySorted R (insert_by le x l).
Proof.
  induction 1 as [|y l Hl IH Hy]; simpl.
  - repeat constructor.
  - destruct (le x y) eqn:Hxy.
    + constructor; [by constructor|].
      constructor; [by apply le_R|].
      eapply Forall_impl; [exact Hy|]. intros z Hz.
      transitivity y; [by apply le_R | done].
    + constructor; [done|].
      rewrite insert_by_perm. constructor; [by apply nle_R | done].
Qed.

Lemma sort_by_sorted l : StronglySorted R (sort_by le l).
Proof.
  induction l as [|x l IH]; [constructor|].
  unfold sort_by in *. simpl. by apply insert_by_sorted.
Qed.
End sorting.

(** ** Counting *)

Lemma unique_elem_of (s : Series) c : c ∈ unique s ↔ c ∈ s.
Proof.
  induction s as [|a s IH]; simpl; [done|].
  rewrite !elem_of_cons, list_elem_of_filter, IH.
  destruct (decide (c = a)); intuition congruence.
Qed.

Lemma unique_NoDup (s : Series) : NoDup (unique s).
Proof.
  induction s as [|a s IH]; simpl; [constructor|].
  constructor.
  - rewrite list_elem_of_filter. tauto.
  - by apply NoDup_filter.
Qed.

Lemma count_members (l : list cell) (s : Series) :
  NoDup l →
  sum_list ((λ u, count u s) <$> l) = length (filter (λ x, x ∈ l) s).
Proof.
  unfold count. induction 1 as [|a l Ha Hl IH]; csimpl.
  - induction s as [|x s IHs]; [done|].
    rewrite filter_cons_False; [done|]. apply not_elem_of_nil.
  - rewrite IH. clear IH. induction s as [|x s IHs]; [done|].
    rewrite !filter_cons.
    destruct (decide (x = a)) as [->|Hne].
    + rewrite decide_False by done.
      rewrite decide_True by (by left). simpl. lia.
    + destruct (decide (x ∈ l)) as [Hin|Hnin].
      * rewrite decide_True by (by right). simpl. lia.
      * rewrite decide_False; [done|]. rewrite elem_of_cons. tauto.
Qed.

Lemma filter_all {A} (P : A → Prop) `{∀ x, Decision (P x)} (l : list A) :
  Forall P l → filter P l = l.
Proof.
  induction 1 as [|x l Hx Hl IH]; [done|].
  rewrite filter_cons_True by done. by rewrite IH.
Qed.

Lemma count_unique_sum (s : Series) :
  sum_list ((λ u, count u s) <$> unique s) = length s.
Proof.
  rewrite count_members by apply unique_NoDup.
  f_equal. apply filter_all.
  apply Forall_forall. intros x Hx. by apply unique_elem_of.
Qed.

(** ** [value_counts] and [countplot] *)

#[global] Instance count_ge_trans : Transitive count_ge.
Proof. unfold count_ge. intros a b c ??. lia. Qed.

Lemma value_counts_perm (s : Series) :
  value_counts s ≡ₚ
  (λ u, (u, count u (filter (λ c, notna c = true) s)))
    <$> unique (filter (λ c, notna c = true) s).
Proof. unfold value_counts. apply sort_by_perm. Qed.

Lemma value_counts_sorted (s : Series) : StronglySorted count_ge (value_counts s).
Proof.
  unfold value_counts. apply sort_by_sorted; [apply _|..]; unfold count_ge.
  - intros x y H. by apply Nat.leb_le in H.
  - intros x y H. apply Nat.leb_gt in H. lia.
Qed.

Lemma value_counts_length (s : Series) :
  length (value_counts s) = length (unique (filter (λ c, notna c = true) s)).
Proof. by rewrite value_counts_perm, length_fmap. Qed.

Lemma value_counts_count (s : Series) :
  Forall (λ p, p.2 = count p.1 (filter (λ c, notna c = true) s)) (value_counts s).
Proof.
  rewrite value_counts_perm. apply Forall_fmap, Forall_forall. by intros u _.
Qed.

Lemma value_counts_sum (s : Series) :
  sum_list (values (value_counts s)) = length (filter (λ c, notna c = true) s).
Proof.
  unfold values. rewrite value_counts_perm, <- list_fmap_compose.
  apply count_unique_sum.
Qed.

Lemma value_counts_index_NoDup (s : Series) : NoDup (index (value_counts s)).
Proof.
  unfold index. rewrite value_counts_perm, <- list_fmap_compose.
  change (fst ∘ _) with (@id cell).
  rewrite list_fmap_id. apply unique_NoDup.
Qed.

(** With the order taken from [value_counts], the bars are the
    [value_counts] entries themselves. *)
Lemma countplot_value_counts_order (s : Series) :
  countplot s (Some (index (value_counts s))) = value_counts s.
Proof.
  unfold countplot, categorical_order, index.
  pose proof (value_counts_count s) as H.
  induction H as [|[c n] l Hc Hl IH]; [done|].
  csimpl. simpl in Hc. by rewrite IH, Hc.
Qed.

Lemma categorical_order_default_NoDup (x : Series) :
  NoDup (categorical_order x None).
Proof.
  unfold categorical_order. apply NoDup_filter.
  destruct (is_numeric x); [rewrite sort_by_perm|]; apply unique_NoDup.
Qed.

Lemma categorical_order_default_elem_of (x : Series) c :
  c ∈ categorical_order x None ↔ c ∈ x ∧ notna c = true.
Proof.
  unfold categorical_order. rewrite list_elem_of_filter.
  destruct (is_numeric x); [rewrite sort_by_perm|]; rewrite unique_elem_of; tauto.
Qed.

(** Without an order, the bars count every record whose value is present. *)
Lemma countplot_default_sum (x : Series) :
  sum_list (countplot x None).*2 = length (filter (λ c, notna c = true) x).
Proof.
  unfold countplot. rewrite <- list_fmap_compose.
  change (snd ∘ _) with (λ c, count c (filter (λ c, notna c = true) x)).
  rewrite count_members by apply categorical_order_default_NoDup.
  f_equal. apply filter_all, Forall_forall. intros c Hc.
  apply categorical_order_default_elem_of.
  apply list_elem_of_filter in Hc. tauto.
Qed.

(** ** Calendar fields *)

Lemma is_leap_year_spec y :
  is_leap_year y = true ↔ y mod 4 = 0 ∧ (y mod 100 ≠ 0 ∨ y mod 400 = 0).
Proof.
  unfold is_leap_year.
  rewrite andb_true_iff, orb_true_iff, negb_true_iff, !Z.eqb_eq, Z.eqb_neq. done.
Qed.

(** The days to new year's day are counted year by year, from 1970. *)
Lemma days_before_year_step y :
  days_before_year (y + 1) = days_before_year y + days_in_year y.
Proof.
  unfold days_before_year, days_in_year, leap_years_before.
  replace (y + 1 - 1) with y by lia.
  destruct (is_leap_year y) eqn:Hl.
  - apply is_leap_year_spec in Hl. Z.div_mod_to_equations. lia.
  - assert (¬ (y mod 4 = 0 ∧ (y mod 100 ≠ 0 ∨ y mod 400 = 0))) as Hn
      by (rewrite <- is_leap_year_spec; congruence).
    Z.div_mod_to_equations. lia.
Qed.

Lemma days_before_year_1970 : days_before_year 1970 = 0.
Proof. reflexivity. Qed.

(** The days of a year before each of its months. *)
Lemma days_before_month_cases y m :
  1 <= m <= 12 →
  days_before_month y m
  = (if m =? 1 then 0 else if m =? 2 then 31
     else (if is_leap_year y then 1 else 0)
          + (if m =? 3 then 59 else if m =? 4 then 90 else if m =? 5 then 120
             else if m =? 6 then 151 else if m =? 7 then 181
             else if m =? 8 then 212 else if m =? 9 then 243
             else if m =? 10 then 273 else if m =? 11 then 304 else 334)).
Proof.
  intros Hm.
  assert (m = 1 ∨ m = 2 ∨ m = 3 ∨ m = 4 ∨ m = 5 ∨ m = 6 ∨ m = 7 ∨ m = 8 ∨ m = 9
          ∨ m = 10 ∨ m = 11 ∨ m = 12) as H by lia.
  unfold days_before_month, days_in_month.
  destruct_or! H; subst m; destruct (is_leap_year y); reflexivity.
Qed.

(** The year of the era that starts on 1 March of a year divisible by
    400, and the day of that year, from the day of the era. *)
Lemma era_year doe :
  0 <= doe < 146097 →
  let yoe := (doe - doe / 1460 + doe / 36524 - doe / 146096) / 365 in
  let doy := doe - (365 * yoe + yoe / 4 - yoe / 100) in
  0 <= yoe <= 399
  ∧ 0 <= doy <= 365
  ∧ (doy = 365 → (yoe + 1) mod 4 = 0 ∧ ((yoe + 1) mod 100 ≠ 0 ∨ yoe = 399)).
Proof.
  intros Hdoe yoe doy. subst doy yoe.
  Z.div_mod_to_equations. lia.
Qed.

(** The month and the day of the month, from the day of a year that
    starts on 1 March, and the first day of each of its months. *)
Lemma month_day doy leap :
  0 <= doy <= 364 + leap → 0 <= leap <= 1 →
  let mp := (5 * doy + 2) / 153 in
  let d := doy - (153 * mp + 2) / 5 + 1 in
  0 <= mp <= 11
  ∧ 1 <= d
  ∧ (mp = 11 → d <= 28 + leap)
  ∧ (mp = 1 ∨ mp = 3 ∨ mp = 6 ∨ mp = 8 → d <= 30)
  ∧ d <= 31
  ∧ (153 * mp + 2) / 5
    = (if mp =? 0 then 0 else if mp =? 1 then 31 else if mp =? 2 then 61
       else if mp =? 3 then 92 else if mp =? 4 then 122 else if mp =? 5 then 153
       else if mp =? 6 then 184 else if mp =? 7 then 214 else if mp =? 8 then 245
       else if mp =? 9 then 275 else if mp =? 10 then 306 else 337).
Proof.
  intros Hdoy Hleap mp d. subst d mp.
  assert (0 <= (5 * doy + 2) / 153 <= 11) as Hmp by (Z.div_mod_to_equations; lia).
  set (mp := (5 * doy + 2) / 153) in *.
  assert (153 * mp <= 5 * doy + 2 < 153 * mp + 153) as Hd
    by (subst mp; Z.div_mod_to_equations; lia).
  clearbody mp.
  assert (mp = 0 ∨ mp = 1 ∨ mp = 2 ∨ mp = 3 ∨ mp = 4 ∨ mp = 5 ∨ mp = 6 ∨ mp = 7
          ∨ mp = 8 ∨ mp = 9 ∨ mp = 10 ∨ mp = 11) as H by lia.
  destruct_or! H; subst mp; vm_compute (_ / 5); vm_compute (_ =? _);
    cbv iota; lia.
Qed.

Ltac eval_eqb :=
  repeat match goal with
         | |- context [?a =? ?b] =>
             let v := eval vm_compute in (a =? b) in
             change (a =? b) with v
         end;
  cbn [orb]; cbv iota.

(** [civil_from_days] gives the date of the day: a day of a month of
    the calendar, as many days from 1 January 1970 as the day number
    says. *)
Lemma civil_from_days_spec days :
  match civil_from_days days with
  | (y, m, d) =>
      1 <= m <= 12 ∧ 1 <= d <= days_in_month y m
      ∧ days_from_civil y m d = days
  end.
Proof.
  unfold civil_from_days.
  set (z := days + 719468).
  set (era := z / 146097).
  set (doe := z mod 146097).
  assert (Hz : z = days + 719468) by reflexivity.
  assert (Hdoe : 0 <= doe < 146097) by (apply Z.mod_pos_bound; lia).
  assert (Hera : 146097 * era + doe = z) by (symmetry; apply Z.div_mod; lia).
  destruct (era_year doe Hdoe) as (Hyoe & Hdoy & Hleap).
  set (yoe := (doe - doe / 1460 + doe / 36524 - doe / 146096) / 365) in *.
  set (doy := doe - (365 * yoe + yoe / 4 - yoe / 100)) in *.
  assert (Hdoe' : doe = 365 * yoe + yoe / 4 - yoe / 100 + doy) by (unfold doy; lia).
  clearbody doy yoe doe era z.
  (* the year that starts on 1 March ends with a leap day when the
     calendar year after it is a leap year *)
  set (leap := if is_leap_year (yoe + era * 400 + 1) then 1 else 0).
  assert (Hl : 0 <= leap <= 1) by (unfold leap; destruct (is_leap_year _); lia).
  assert (Hdoy' : 0 <= doy <= 364 + leap).
  { unfold leap. destruct (is_leap_year _) eqn:El; [lia|].
    assert (doy ≠ 365); [|lia]. intros H365. specialize (Hleap H365).
    assert (is_leap_year (yoe + era * 400 + 1) = true); [|congruence].
    apply is_leap_year_spec. clear -Hleap Hyoe.
    Z.div_mod_to_equations. lia. }
  destruct (month_day doy leap Hdoy' Hl) as (Hmp & Hd1 & Hfeb & H30 & H31 & Hstart).
  set (mp := (5 * doy + 2) / 153) in *.
  set (d := doy - (153 * mp + 2) / 5 + 1) in *.
  assert (Hd : d = doy - (153 * mp + 2) / 5 + 1) by reflexivity.
  rewrite Hstart in Hd. clear Hstart. clearbody d mp.
  assert (Hcent : 1969 / 4 - 1969 / 100 + 1969 / 400 = 477) by reflexivity.
  destruct (Z.ltb_spec mp 10) as [Hlt|Hge].
  - (* March to December *)
    replace (mp + 3 <=? 2) with false by (symmetry; apply Z.leb_gt; lia).
    rewrite Z.add_0_r.
    assert (Hy : (if is_leap_year (yoe + era * 400) then 1 else 0)
                 + ((yoe + era * 400 - 1) / 4 - (yoe + era * 400 - 1) / 100
                    + (yoe + era * 400 - 1) / 400)
                 = 97 * era + yoe / 4 - yoe / 100).
    { destruct (is_leap_year (yoe + era * 400)) eqn:El.
      - apply is_leap_year_spec in El. clear -El Hyoe.
        Z.div_mod_to_equations. lia.
      - assert (¬ ((yoe + era * 400) mod 4 = 0
                   ∧ ((yoe + era * 400) mod 100 ≠ 0
                      ∨ (yoe + era * 400) mod 400 = 0)))
          as Hn by (rewrite <- is_leap_year_spec; congruence).
        clear -Hn Hyoe. Z.div_mod_to_equations. lia. }
    unfold days_from_civil. rewrite days_before_month_cases by lia.
    unfold days_before_year, leap_years_before, days_in_month.
    replace (1970 - 1) with 1969 by reflexivity. rewrite Hcent.
    assert (mp = 0 ∨ mp = 1 ∨ mp = 2 ∨ mp = 3 ∨ mp = 4 ∨ mp = 5 ∨ mp = 6 ∨ mp = 7
            ∨ mp = 8 ∨ mp = 9) as H by lia.
    set (ly := if is_leap_year (yoe + era * 400) then 1 else 0) in *.
    clearbody ly. revert Hd.
    destruct_or! H; subst mp; eval_eqb; lia.
  - (* January and February, of the next calendar year *)
    replace (mp - 9 <=? 2) with true by (symmetry; apply Z.leb_le; lia).
    assert (Hy : (yoe + era * 400) / 4 - (yoe + era * 400) / 100
                 + (yoe + era * 400) / 400
                 = 97 * era + yoe / 4 - yoe / 100).
    { clear -Hyoe. Z.div_mod_to_equations. lia. }
    unfold days_from_civil. rewrite days_before_month_cases by lia.
    unfold days_before_year, leap_years_before, days_in_month.
    replace (yoe + era * 400 + 1 - 1) with (yoe + era * 400) by lia.
    replace (1970 - 1) with 1969 by reflexivity. rewrite Hcent.
    fold leap.
    replace (if is_leap_year (yoe + era * 400 + 1) then 29 else 28)
      with (28 + leap) by (unfold leap; by destruct (is_leap_year _)).
    clearbody leap. revert Hd.
    assert (mp = 10 ∨ mp = 11) as [H|H] by lia; subst mp; eval_eqb; lia.
Qed.

Lemma days_before_year_mono y y' :
  y <= y' → days_before_year y <= days_before_year y'.
Proof.
  intros H. unfold days_before_year, leap_years_before.
  Z.div_mod_to_equations. lia.
Qed.

(** A date lies in its year. *)
Lemma days_from_civil_in_year y m d :
  1 <= m <= 12 → 1 <= d <= days_in_month y m →
  days_before_year y <= days_from_civil y m d < days_before_year (y + 1).
Proof.
  intros Hm Hd. rewrite days_before_year_step. unfold days_from_civil.
  rewrite days_before_month_cases by done. revert Hd.
  unfold days_in_month, days_in_year.
  assert (m = 1 ∨ m = 2 ∨ m = 3 ∨ m = 4 ∨ m = 5 ∨ m = 6 ∨ m = 7 ∨ m = 8 ∨ m = 9
          ∨ m = 10 ∨ m = 11 ∨ m = 12) as H by lia.
  destruct_or! H; subst m; eval_eqb; destruct (is_leap_year y); lia.
Qed.

(** The years of the dates between two new year's days. *)
Lemma days_from_civil_year_range y m d lo hi :
  1 <= m <= 12 → 1 <= d <= days_in_month y m →
  lo <= y < hi ↔
  days_before_year lo <= days_from_civil y m d < days_before_year hi.
Proof.
  intros Hm Hd. pose proof (days_from_civil_in_year y m d Hm Hd) as Hy.
  split.
  - intros [Hlo Hhi].
    pose proof (days_before_year_mono lo y Hlo).
    pose proof (days_before_year_mono (y + 1) hi ltac:(lia)). lia.
  - intros [Hlo Hhi]. split.
    + destruct (Z_le_gt_dec lo y) as [|Hgt]; [done|].
      pose proof (days_before_year_mono (y + 1) lo ltac:(lia)). lia.
    + destruct (Z_lt_le_dec y hi) as [|Hge]; [done|].
      pose proof (days_before_year_mono hi y Hge). lia.
Qed.

(** The calendar fields of a point in time are the date of its day: a
    day of a month of the calendar, as many days from 1 January 1970 as
    the point in time is whole days from the epoch.  The year has four
    digits for the points in time from the year 1000 to the year 9999. *)
Lemma calendar_fields ns :
  1 <= month_of ns <= 12
  ∧ 1 <= day_of ns <= days_in_month (year_of ns) (month_of ns)
  ∧ day_of ns <= 31
  ∧ days_from_civil (year_of ns) (month_of ns) (day_of ns) = ns / ns_per_day
  ∧ (1000 <= year_of ns <= 9999
     ↔ days_from_civil 1000 1 1 * ns_per_day <= ns
       < days_from_civil 10000 1 1 * ns_per_day).
Proof.
  unfold year_of, month_of, day_of.
  pose proof (civil_from_days_spec (ns / ns_per_day)) as H.
  destruct (civil_from_days (ns / ns_per_day)) as [[y m] d].
  destruct H as (Hm & Hd & Hdays). cbn [fst snd].
  split_and!; try done; try lia.
  - pose proof Hd as [_ Hd']. revert Hd'. unfold days_in_month.
    destruct (m =? 2); [destruct (is_leap_year y)|destruct (_ || _)]; lia.
  - pose proof (days_from_civil_year_range y m d 1000 10000 Hm Hd) as Hr.
    rewrite Hdays in Hr.
    change (days_from_civil 1000 1 1) with (days_before_year 1000).
    change (days_from_civil 10000 1 1) with (days_before_year 10000).
    assert (Hns : 0 < ns_per_day) by done.
    split.
    + intros Hy. assert (1000 <= y < 10000) as Hy' by lia.
      apply Hr in Hy'. clear Hr Hy. revert Hy'.
      generalize (days_before_year 1000) (days_before_year 10000). intros a b.
      generalize dependent ns_per_day. intros p Hdays Hp Hab.
      clear Hdays. Z.div_mod_to_equations. nia.
    + intros Hn. enough (1000 <= y < 10000) by lia. apply Hr. clear Hr.
      revert Hn.
      generalize (days_before_year 1000) (days_before_year 10000). intros a b.
      generalize dependent ns_per_day. intros p Hdays Hp Hab.
      clear Hdays. Z.div_mod_to_equations. nia.
Qed.

(** ** Text *)

(** Replacing the comma by nothing deletes the commas and nothing else. *)
Lemma str_replace_comma s : str_replace "," "" s = string_filter not_comma s.
Proof.
  unfold str_replace. induction s as [|a s IH]; [done|].
  cbn [replace_from string_filter String.prefix String.length Nat.sub].
  unfold not_comma. destruct (ascii_dec "," a) as [<-|Hne].
  - replace (String.prefix "" s) with true by (by destruct s).
    simpl. exact IH.
  - destruct (Ascii.eqb_spec a ","); [congruence|]. simpl. by rewrite IH.
Qed.

Lemma string_filter_no_blank keep s :
  no_blank s = true → no_blank (string_filter keep s) = true.
Proof.
  induction s as [|a s IH]; [done|]. simpl.
  rewrite andb_true_iff. intros [Ha Hs].
  destruct (keep a); simpl; [rewrite Ha|]; auto.
Qed.

Lemma append_cons a (s t : string) : String a s +:+ t = String a (s +:+ t).
Proof. reflexivity. Qed.

Lemma app_empty_r (s : string) : s +:+ "" = s.
Proof. induction s as [|a s IH]; [done|]. by rewrite append_cons, IH. Qed.

Lemma app_assoc_char (w : string) a s : (w +:+ String a "") +:+ s = w +:+ String a s.
Proof. induction w as [|b w IH]; [done|]. by rewrite !append_cons, IH. Qed.

(** A text without blanks is one word (or none, when empty). *)
Lemma tokens_from_no_blank w s :
  no_blank s = true →
  tokens_from w s = if decide (w +:+ s = "") then [] else [w +:+ s].
Proof.
  revert w. induction s as [|a s IH]; intros w; simpl.
  - intros _. rewrite app_empty_r.
    by destruct (decide (w = "")).
  - rewrite andb_true_iff. intros [Ha Hs].
    destruct (is_blank a); [done|].
    rewrite IH by done. by rewrite app_assoc_char.
Qed.

(** Words do not reach across a space: the words of two texts joined by
    a space are the words of the first, then the words of the second. *)
Lemma tokens_from_app_space w s1 s2 :
  tokens_from w (s1 +:+ String " " s2) = tokens_from w s1 ++ tokens_from "" s2.
Proof.
  revert w. induction s1 as [|a s1 IH]; intros w.
  - change ("" +:+ String " " s2) with (String " " s2). simpl.
    by destruct (decide (w = "")).
  - rewrite append_cons. simpl.
    destruct (is_blank a); [destruct (decide (w = ""))|]; by rewrite IH.
Qed.

Lemma tokens_join (l : list string) :
  tokens (join " " l) = concat (tokens <$> l).
Proof.
  unfold tokens. induction l as [|x l IH]; [done|].
  destruct l as [|y l].
  - simpl. by rewrite app_nil_r.
  - change (join " " (x :: y :: l)) with (x +:+ String " " (join " " (y :: l))).
    rewrite tokens_from_app_space, IH. done.
Qed.

(** A column of text prints as it is. *)
Lemma astype_str_text (vs : list string) : astype_str (Str <$> vs) = vs.
Proof.
  unfold astype_str. destruct vs as [|v vs]; [done|].
  rewrite fmap_cons.
  change (is_datetime (Str v :: (Str <$> vs))) with false.
  change (is_numeric (Str v :: (Str <$> vs))) with false.
  change (false && _) with false. cbv beta iota.
  rewrite <- fmap_cons, <- list_fmap_compose.
  exact (list_fmap_id (v :: vs)).
Qed.

(** ** Running computations *)

Lemma run_bind {A B} (m : M A) (f : A → M B) w :
  (m ≫= f) w
  = match m w with (Ok a, w') => f a w' | (Raise e, w') => (Raise e, w') end.
Proof. reflexivity. Qed.

Lemma bind_Ok {A B} (m : M A) (f : A → M B) w b w2 :
  (m ≫= f) w = (Ok b, w2) ↔ ∃ a w1, m w = (Ok a, w1) ∧ f a w1 = (Ok b, w2).
Proof.
  rewrite run_bind. split.
  - destruct (m w) as [[a|e] w1]; [eauto|done].
  - intros (a & w1 & -> & H). done.
Qed.

Lemma read_only_ret {A} (a : A) : read_only (mret a).
Proof. by intros w. Qed.

Lemma read_only_lift {A} (r : result A) : read_only (lift r).
Proof. by intros w. Qed.

Lemma read_only_deref r : read_only (deref r).
Proof. intros w. unfold deref. by destruct (heap w !! r). Qed.

Lemma read_only_bind {A B} (m : M A) (f : A → M B) :
  read_only m → (∀ a, read_only (f a)) → read_only (m ≫= f).
Proof.
  intros Hm Hf w. rewrite run_bind. specialize (Hm w).
  destruct (m w) as [[a|e] w1]; simpl in Hm; subst w1; [apply Hf|done].
Qed.

Lemma read_only_getitem r c : read_only (DataFrame_getitem r c).
Proof.
  apply read_only_bind; [apply read_only_deref|]. intros. apply read_only_lift.
Qed.

Lemma read_only_data_variable r c : read_only (data_variable r c).
Proof.
  apply read_only_bind; [apply read_only_deref|]. intros. apply read_only_lift.
Qed.

Create HintDb read_only.
#[local] Hint Resolve read_only_ret read_only_lift read_only_deref
  read_only_getitem read_only_data_variable : read_only.

Ltac read_only :=
  repeat first
    [ progress eauto with read_only
    | apply read_only_bind; [|intros ?]
    | match goal with
      | |- read_only (let '(_, _) := ?p in _) => destruct p
      end ].

(** The renderers only look at the world. *)
Lemma read_only_plot_type_distribution df : read_only (plot_type_distribution df).
Proof. unfold plot_type_distribution. read_only. Qed.

Lemma read_only_plot_rating_distribution df : read_only (plot_rating_distribution df).
Proof. unfold plot_rating_distribution. read_only. Qed.

Lemma read_only_plot_type_vs_rating df : read_only (plot_type_vs_rating df).
Proof. unfold plot_type_vs_rating. read_only. Qed.

Lemma DataFrame_getitem_run r c w t :
  heap w !! r = Some t →
  DataFrame_getitem r c w = (getitem t c, w).
Proof. intros H. unfold DataFrame_getitem. rewrite run_bind. unfold deref. by rewrite H. Qed.

Lemma data_variable_run r c w t s :
  heap w !! r = Some t → getitem t c = Ok s →
  data_variable r c w = (Ok s, w).
Proof.
  intros H Hs. unfold data_variable. rewrite run_bind. unfold deref.
  by rewrite H, Hs.
Qed.

(** ** Data frames *)

Lemma get_loc_lt c cols i : get_loc c cols = Some i → (i < length cols)%nat.
Proof.
  revert i. induction cols as [|c' cols IH]; intros i; simpl; [done|].
  destruct (decide (c = c')); [intros [= <-]; lia|].
  destruct (get_loc c cols) as [j|]; [|done].
  intros [= <-]. specialize (IH j eq_refl). lia.
Qed.

Lemma get_loc_inj c c' cols i :
  get_loc c cols = Some i → get_loc c' cols = Some i → c' = c.
Proof.
  revert i. induction cols as [|d cols IH]; intros i; simpl; [done|].
  destruct (decide (c = d)) as [->|]; destruct (decide (c' = d)) as [->|];
    try done.
  - destruct (get_loc c' cols); [|done]. by intros [= <-] [=].
  - destruct (get_loc c cols); [|done]. by intros [= <-].
  - destruct (get_loc c cols) as [k|]; [|done].
    destruct (get_loc c' cols) as [k'|]; [|done].
    intros [= <-] [= ->]. by apply (IH k).
Qed.

Lemma get_loc_app_old c c' cols i :
  get_loc c cols = Some i → get_loc c (cols ++ [c']) = Some i.
Proof.
  revert i. induction cols as [|d cols IH]; intros i; simpl; [done|].
  destruct (decide (c = d)); [done|].
  destruct (get_loc c cols) as [j|]; [|done].
  intros [= <-]. by rewrite (IH j).
Qed.

Lemma get_loc_app_new c c' cols :
  get_loc c cols = None →
  get_loc c (cols ++ [c']) = if decide (c = c') then Some (length cols) else None.
Proof.
  induction cols as [|d cols IH]; simpl.
  - intros _. by destruct (decide (c = c')).
  - destruct (decide (c = d)); [done|].
    destruct (get_loc c cols) as [j|]; [done|].
    intros _. rewrite IH by done. by destruct (decide (c = c')).
Qed.

Lemma cell_at_insert_ne i j v (r : list cell) :
  i ≠ j → cell_at j (<[i := v]> r) = cell_at j r.
Proof. intros. unfold cell_at. by rewrite list_lookup_insert_ne. Qed.

Lemma cell_at_insert_eq i v (r : list cell) :
  (i < length r)%nat → cell_at i (<[i := v]> r) = v.
Proof. intros. unfold cell_at. by rewrite list_lookup_insert_eq. Qed.

Lemma cell_at_app_old j v (r : list cell) :
  (j < length r)%nat → cell_at j (r ++ [v]) = cell_at j r.
Proof. intros. unfold cell_at. by rewrite lookup_app_l. Qed.

Lemma cell_at_app_new v (r : list cell) : cell_at (length r) (r ++ [v]) = v.
Proof. unfold cell_at. by rewrite list_lookup_middle. Qed.

(** A column read back through a row-wise update. *)
Lemma column_zip_with (f : list cell → cell → list cell) (g : list cell → cell → cell)
    j (rs : list (list cell)) (s : Series) :
  length s = length rs →
  Forall2 (λ r v, cell_at j (f r v) = g r v) rs s →
  cell_at j <$> zip_with f rs s = zip_with g rs s.
Proof.
  intros _ H. induction H as [|r v rs s Hrv _ IH]; [done|].
  csimpl. by rewrite Hrv, IH.
Qed.

Lemma zip_with_fst {A B} (f : A → B) (rs : list A) (s : list cell) :
  length s = length rs → zip_with (λ r _, f r) rs s = f <$> rs.
Proof.
  revert s. induction rs as [|r rs IH]; intros [|v s]; simpl; try done.
  intros [= H]. by rewrite IH.
Qed.

Lemma zip_with_snd {A} (rs : list A) (s : list cell) :
  length s = length rs → zip_with (λ _ v, v) rs s = s.
Proof.
  revert s. induction rs as [|r rs IH]; intros [|v s]; simpl; try done.
  intros [= H]. by rewrite IH.
Qed.

Lemma Forall2_same_length_Forall {A B} (P : A → B → Prop) (l : list A) (k : list B) :
  length k = length l → Forall (λ a, ∀ b, P a b) l → Forall2 P l k.
Proof.
  revert k. induction l as [|a l IH]; intros [|b k] Hlen Hl;
    simplify_eq/=; [constructor|].
  inversion_clear Hl. constructor; auto.
Qed.

(** What an assignment to a column does: the column reads back as
    assigned, the other columns and the number of records are as before. *)
Lemma setitem_spec df c s df' :
  well_formed df → setitem df c s = Ok df' →
  well_formed df' ∧ getitem df' c = Ok s
  ∧ (∀ c', c' ≠ c → getitem df' c' = getitem df c')
  ∧ length (rows df') = length (rows df).
Proof.
  intros Hwf. unfold setitem.
  destruct (decide (length s = length (rows df))) as [Hlen|]; [|done].
  destruct (get_loc c (columns df)) as [i|] eqn:Hloc; intros [= <-].
  - pose proof (get_loc_lt _ _ _ Hloc) as Hi.
    split_and!.
    + unfold well_formed in *. simpl.
      eapply Forall_zip_with_fst; [exact Hwf|].
      apply Forall_true. intros v r Hr. by rewrite length_insert.
    + unfold getitem. simpl. rewrite Hloc. f_equal.
      rewrite (column_zip_with _ (λ _ v, v)); [by apply zip_with_snd|done|].
      apply Forall2_same_length_Forall; [done|].
      eapply Forall_impl; [exact Hwf|]. intros r Hr v. simpl in Hr.
      apply cell_at_insert_eq. lia.
    + intros c' Hc'. unfold getitem. simpl.
      destruct (get_loc c' (columns df)) as [j|] eqn:Hj; [|done].
      f_equal. rewrite (column_zip_with _ (λ r _, cell_at j r));
        [by apply zip_with_fst|done|].
      apply Forall2_same_length_Forall; [done|].
      apply Forall_true. intros r v. apply cell_at_insert_ne.
      intros ->. apply Hc'. by eapply get_loc_inj.
    + simpl. rewrite length_zip_with. lia.
  - split_and!.
    + unfold well_formed in *. simpl.
      eapply Forall_zip_with_fst; [exact Hwf|].
      apply Forall_true. intros v r Hr. rewrite !length_app. simpl. lia.
    + unfold getitem. simpl. rewrite get_loc_app_new by done.
      rewrite decide_True by done. f_equal.
      rewrite (column_zip_with _ (λ _ v, v)); [by apply zip_with_snd|done|].
      apply Forall2_same_length_Forall; [done|].
      eapply Forall_impl; [exact Hwf|]. intros r Hr v. simpl in Hr.
      rewrite <- Hr. apply cell_at_app_new.
    + intros c' Hc'. unfold getitem. simpl.
      destruct (get_loc c' (columns df)) as [j|] eqn:Hj.
      * rewrite (get_loc_app_old _ _ _ _ Hj). f_equal.
        rewrite (column_zip_with _ (λ r _, cell_at j r));
          [by apply zip_with_fst|done|].
        apply Forall2_same_length_Forall; [done|].
        eapply Forall_impl; [exact Hwf|]. intros r Hr v. simpl in Hr.
        apply cell_at_app_old. rewrite Hr. by eapply get_loc_lt.
      * rewrite get_loc_app_new by done. by rewrite decide_False.
    + simpl. rewrite length_zip_with. lia.
Qed.

(** ** The loader *)

Lemma lookup_last (h : list DataFrame) d : (h ++ [d]) !! length h = Some d.
Proof. by rewrite list_lookup_middle. Qed.

Lemma insert_last (h : list DataFrame) d d' : <[length h := d']> (h ++ [d]) = h ++ [d'].
Proof.
  rewrite insert_app_r_alt by lia. by rewrite Nat.sub_diag.
Qed.

Lemma getitem_last h d c w :
  heap w = h ++ [d] →
  DataFrame_getitem (length h) c w = (getitem d c, w).
Proof. intros H. apply DataFrame_getitem_run. rewrite H. apply lookup_last. Qed.

Lemma setitem_last h d c s w :
  heap w = h ++ [d] →
  DataFrame_setitem (length h) c s w =
  match setitem d c s with
  | Ok d' => (Ok tt, set_heap (h ++ [d']) w)
  | Raise e => (Raise e, w)
  end.
Proof.
  intros H. unfold DataFrame_setitem. rewrite run_bind. unfold deref.
  rewrite H, lookup_last. rewrite run_bind. unfold lift.
  destruct (setitem d c s) as [d'|e]; [|done].
  unfold store. by rewrite H, insert_last.
Qed.

Lemma step_getitem {A B} h d c (f : Series → M A) (k : A → M B) w :
  heap w = h ++ [d] →
  ((DataFrame_getitem (length h) c ≫= f) ≫= k) w =
  match getitem d c with
  | Ok s => (f s ≫= k) w
  | Raise e => (Raise e, w)
  end.
Proof.
  intros H. rewrite run_bind, run_bind, (getitem_last h d) by done.
  by destruct (getitem d c).
Qed.

Lemma step_lift_bind {A B C} (r : result A) (f : A → M B) (k : B → M C) w :
  ((lift r ≫= f) ≫= k) w =
  match r with
  | Ok a => (f a ≫= k) w
  | Raise e => (Raise e, w)
  end.
Proof. rewrite run_bind, run_bind. unfold lift. by destruct r. Qed.

Lemma step_lift {A B} (r : result A) (k : A → M B) w :
  (lift r ≫= k) w =
  match r with
  | Ok a => k a w
  | Raise e => (Raise e, w)
  end.
Proof. rewrite run_bind. unfold lift. by destruct r. Qed.

Lemma step_ret {A B} (a : A) (k : A → M B) w : (mret a ≫= k) w = k a w.
Proof. reflexivity. Qed.

Lemma step_setitem {B} h d c s (k : unit → M B) w :
  heap w = h ++ [d] →
  (DataFrame_setitem (length h) c s ≫= k) w =
  match setitem d c s with
  | Ok d' => k tt (set_heap (h ++ [d']) w)
  | Raise e => (Raise e, w)
  end.
Proof.
  intros H. rewrite run_bind, (setitem_last h d) by done.
  by destruct (setitem d c s).
Qed.

Lemma result_bind_Ok {A B} (a : A) (f : A → result B) : (Ok a ≫= f) = f a.
Proof. reflexivity. Qed.

Lemma result_bind_Raise {A B} e (f : A → result B) : (Raise e ≫= f) = Raise e.
Proof. reflexivity. Qed.

Lemma DataFrame_copy_run r w t :
  heap w !! r = Some t →
  DataFrame_copy r w = (Ok (length (heap w)), set_heap (heap w ++ [t]) w).
Proof.
  intros H. unfold DataFrame_copy. rewrite run_bind. unfold deref. by rewrite H.
Qed.

Lemma DataFrame_dropna_run r w t :
  heap w !! r = Some t →
  DataFrame_dropna r w = (Ok (length (heap w)), set_heap (heap w ++ [dropna t]) w).
Proof.
  intros H. unfold DataFrame_dropna. rewrite run_bind. unfold deref. by rewrite H.
Qed.

(** One statement of a computation on the newest object of the heap, and
    the same step of its summary in [result]; an exception ends both, and
    leaves the newest object as the statements before made it. *)
Ltac run_step H :=
  first [ rewrite (step_getitem _ _) in H by reflexivity
        | rewrite (step_setitem _ _) in H by reflexivity
        | rewrite step_lift_bind in H
        | rewrite step_lift in H
        | rewrite step_ret in H ];
  try match type of H with
      | _ = match ?r with Ok _ => _ | Raise _ => _ end =>
          destruct r; rewrite ?result_bind_Ok, ?result_bind_Raise;
          [|subst; eexists; rewrite <- !app_assoc; reflexivity]
      end.

(** The body of the loader, run in a world: the parsed table, its copy
    and the cleaned table are three new objects.  When the cleaning
    raises, the third is the copy as far as it was cleaned. *)
Lemma load_data__wrapped_run file_path w :
  match files w !! file_path with
  | None =>
      load_data__wrapped file_path w = (Raise (FileNotFoundError file_path), w)
  | Some t =>
      match clean t with
      | Ok c =>
          load_data__wrapped file_path w
          = (Ok (length (heap w), S (S (length (heap w)))),
             set_heap (heap w ++ [t; t; c]) w)
      | Raise e =>
          ∃ c', load_data__wrapped file_path w
                = (Raise e, set_heap (heap w ++ [t; t; c']) w)
      end
  end.
Proof.
  destruct (files w !! file_path) as [t|] eqn:Hfile.
  2: { unfold load_data__wrapped. rewrite run_bind. unfold read_csv.
       by rewrite Hfile. }
  enough (H : ∀ x, x = load_data__wrapped file_path w →
            match clean t with
            | Ok c => x = (Ok (length (heap w), S (S (length (heap w)))),
                           set_heap (heap w ++ [t; t; c]) w)
            | Raise e => ∃ c', x = (Raise e, set_heap (heap w ++ [t; t; c']) w)
            end).
  { specialize (H _ eq_refl). by destruct (clean t). }
  intros x Hx.
  unfold load_data__wrapped in Hx. rewrite run_bind in Hx. unfold read_csv in Hx.
  rewrite Hfile in Hx. unfold alloc at 1 in Hx. rewrite run_bind in Hx.
  set (h := (heap w ++ [t]) ++ [t]) in *.
  assert (Hh : length h = S (S (length (heap w))))
    by (unfold h; rewrite !length_app; simpl; lia).
  assert (Hcd : (DataFrame_copy (length (heap w))
                   ≫= λ copied, DataFrame_dropna copied) (set_heap (heap w ++ [t]) w)
                = (Ok (length h), set_heap (h ++ [dropna t]) w)).
  { rewrite run_bind, (DataFrame_copy_run _ _ t) by apply lookup_last.
    by rewrite (DataFrame_dropna_run _ _ t) by apply lookup_last. }
  rewrite Hcd in Hx. clear Hcd.
  unfold clean. revert Hx. generalize (dropna t). intros d0 Hx.
  unfold h in *. clear h.
  do 14 run_step Hx.
  rewrite (step_setitem ((heap w ++ [t]) ++ [t]) _) in Hx by reflexivity.
  destruct (setitem _ "month_added" _) as [d4|e];
    [|subst; eexists; rewrite <- !app_assoc; reflexivity].
  unfold mret, M_ret in Hx. rewrite Hh in Hx. subst x.
  by rewrite <- !app_assoc.
Qed.

Lemma mapR_Forall2 {A B} (f : A → result B) l l' :
  mapR f l = Ok l' ↔ Forall2 (λ a b, f a = Ok b) l l'.
Proof.
  revert l'. induction l as [|a l IH]; intros l'; simpl.
  - split; [intros [= <-]; constructor | by inversion 1].
  - split.
    + destruct (f a) as [b|] eqn:Hb; [|done]. rewrite result_bind_Ok.
      destruct (mapR f l) as [bs|]; [|done]. rewrite result_bind_Ok.
      intros [= <-]. constructor; [done|]. by apply IH.
    + inversion 1 as [|? b ? bs Hb Hbs]; subst. rewrite Hb, result_bind_Ok.
      apply IH in Hbs. by rewrite Hbs.
Qed.

Lemma mapR_length {A B} (f : A → result B) l l' :
  mapR f l = Ok l' → length l' = length l.
Proof. intros H. apply mapR_Forall2 in H. symmetry. by eapply Forall2_length. Qed.

Lemma mapR_total {A B} (f : A → result B) l :
  Forall (λ a, ∃ b, f a = Ok b) l → ∃ l', mapR f l = Ok l'.
Proof.
  induction 1 as [|a l [b Hb] _ [bs Hbs]]; [by eexists|].
  exists (b :: bs). simpl. by rewrite Hb, result_bind_Ok, Hbs.
Qed.

Lemma dropna_well_formed t : well_formed t → well_formed (dropna t).
Proof.
  unfold well_formed, dropna. simpl. rewrite !Forall_forall.
  intros H r Hr. apply H. apply list_elem_of_filter in Hr. tauto.
Qed.

Lemma dropna_length t : (length (rows (dropna t)) ≤ length (rows t))%nat.
Proof. unfold dropna. simpl. apply length_filter. Qed.

(** What [clean] returns, column by column. *)
Lemma clean_spec t c :
  well_formed t → clean t = Ok c →
  well_formed c
  ∧ length (rows c) = length (rows (dropna t))
  ∧ (∀ col, col ∉ derived_columns → getitem c col = getitem (dropna t) col)
  ∧ ∃ original dates a day year,
      getitem (dropna t) "date_added" = Ok original
      ∧ to_datetime original = Ok dates
      ∧ dt dates = Ok a
      ∧ astype_int (dt_day a) = Ok day
      ∧ astype_int (dt_year a) = Ok year
      ∧ getitem c "date_added" = Ok dates
      ∧ getitem c "day_added" = Ok (int_series day)
      ∧ getitem c "year_added" = Ok (int_series year)
      ∧ getitem c "month_added" = Ok (num_series (dt_month a)).
Proof.
  intros Hwf. apply dropna_well_formed in Hwf. unfold clean.
  generalize dependent (dropna t). intros d0 Hwf0.
  destruct (getitem d0 "date_added") as [original|] eqn:Horig; [|done].
  rewrite result_bind_Ok.
  destruct (to_datetime original) as [dates|] eqn:Hdates; [|done].
  rewrite result_bind_Ok.
  destruct (setitem d0 "date_added" dates) as [d1|] eqn:H1; [|done].
  rewrite result_bind_Ok.
  destruct (setitem_spec _ _ _ _ Hwf0 H1) as (Hwf1 & Hd1 & Ho1 & Hl1).
  rewrite Hd1, result_bind_Ok.
  destruct (dt dates) as [a|] eqn:Ha; [|done]. rewrite result_bind_Ok.
  destruct (astype_int (dt_day a)) as [day|] eqn:Hday; [|done].
  rewrite result_bind_Ok.
  destruct (setitem d1 "day_added" (int_series day)) as [d2|] eqn:H2; [|done].
  rewrite result_bind_Ok.
  destruct (setitem_spec _ _ _ _ Hwf1 H2) as (Hwf2 & Hd2 & Ho2 & Hl2).
  rewrite (Ho2 "date_added"), Hd1 by done.
  rewrite result_bind_Ok, Ha, result_bind_Ok.
  destruct (astype_int (dt_year a)) as [year|] eqn:Hyear; [|done].
  rewrite result_bind_Ok.
  destruct (setitem d2 "year_added" (int_series year)) as [d3|] eqn:H3; [|done].
  rewrite result_bind_Ok.
  destruct (setitem_spec _ _ _ _ Hwf2 H3) as (Hwf3 & Hd3 & Ho3 & Hl3).
  rewrite (Ho3 "date_added"), (Ho2 "date_added"), Hd1 by done.
  rewrite result_bind_Ok, Ha, !result_bind_Ok. intros H4.
  destruct (setitem_spec _ _ _ _ Hwf3 H4) as (Hwf4 & Hd4 & Ho4 & Hl4).
  split_and!; [done|congruence| |].
  - intros col Hcol. unfold derived_columns in Hcol.
    rewrite !not_elem_of_cons in Hcol. destruct Hcol as (?&?&?&?&_).
    by rewrite Ho4, Ho3, Ho2, Ho1.
  - exists original, dates, a, day, year. split_and!; try done.
    + by rewrite Ho4, Ho3, Ho2.
    + by rewrite Ho4, Ho3.
    + by rewrite Ho4.
Qed.

Lemma getitem_length d c s : getitem d c = Ok s → length s = length (rows d).
Proof.
  unfold getitem. destruct (get_loc c (columns d)); [|done].
  intros [= <-]. apply length_fmap.
Qed.

Lemma setitem_total d c s :
  length s = length (rows d) → ∃ d', setitem d c s = Ok d'.
Proof.
  intros H. unfold setitem. rewrite decide_True by done.
  destruct (get_loc c (columns d)); eauto.
Qed.

(** A column of timestamps read through [.dt] and cast to integers. *)
Lemma dt_timestamps (dates : Series) (nss : list Z) :
  dates = Timestamp <$> nss → dt dates = Ok (Some <$> nss).
Proof.
  intros ->. unfold dt. apply mapR_Forall2.
  induction nss; constructor; done.
Qed.

Lemma astype_int_some (f : Z → Z) (nss : list Z) :
  astype_int (option_map f <$> (Some <$> nss)) = Ok (f <$> nss).
Proof.
  unfold astype_int. apply mapR_Forall2.
  induction nss; constructor; done.
Qed.

(** The dates of a successful load are all timestamps: a date that
    parses to NaT stops the load at the cast of the day. *)
Lemma dates_all_timestamps (dates : Series) a day :
  dt dates = Ok a → astype_int (dt_day a) = Ok day →
  ∃ nss, dates = Timestamp <$> nss.
Proof.
  unfold dt, astype_int, dt_day. rewrite !mapR_Forall2.
  intros Ha. revert day. induction Ha as [|d o dates a Hd _ IH]; intros day Hday.
  - by exists [].
  - rewrite fmap_cons in Hday. inversion Hday as [|? n ? day' Hn Hday']; subst.
    destruct (IH _ Hday') as [nss ->].
    destruct d as [| | | |ns]; try done. simplify_eq/=.
    by exists (ns :: nss).
Qed.

Lemma num_series_some (f : Z → Z) (nss : list Z) :
  num_series (option_map f <$> (Some <$> nss)) = Int ∘ f <$> nss.
Proof.
  unfold num_series.
  replace (forallb _ _) with true
    by (symmetry; induction nss as [|n nss IH]; [done|exact IH]).
  rewrite <- !list_fmap_compose. done.
Qed.

(** The four columns the loader writes, in terms of the timestamps. *)
Lemma clean_columns t c :
  well_formed t → clean t = Ok c →
  ∃ original nss,
    getitem (dropna t) "date_added" = Ok original
    ∧ Forall2 (λ c0 ns, to_datetime_cell c0 = Ok (Timestamp ns)) original nss
    ∧ length nss = length (rows c)
    ∧ getitem c "date_added" = Ok (Timestamp <$> nss)
    ∧ getitem c "day_added" = Ok (Int ∘ day_of <$> nss)
    ∧ getitem c "year_added" = Ok (Int ∘ year_of <$> nss)
    ∧ getitem c "month_added" = Ok (Int ∘ month_of <$> nss).
Proof.
  intros Hwf Hc.
  destruct (clean_spec _ _ Hwf Hc)
    as (_ & Hlen & _ & original & dates & a & day & year
        & Ho & Hdates & Ha & Hday & Hyear & Hcd & Hcday & Hcyear & Hcmonth).
  destruct (dates_all_timestamps _ _ _ Ha Hday) as [nss ->].
  rewrite (dt_timestamps _ nss eq_refl) in Ha. injection Ha as <-.
  unfold dt_day, dt_year, dt_month in *.
  rewrite astype_int_some in Hday, Hyear.
  injection Hday as <-. injection Hyear as <-.
  rewrite num_series_some in Hcmonth.
  unfold int_series in *. rewrite <- !list_fmap_compose in *.
  exists original, nss. split_and!; try done.
  - apply mapR_Forall2 in Hdates. by apply Forall2_fmap_r in Hdates.
  - apply getitem_length in Hcd. by rewrite length_fmap in Hcd.
Qed.

Lemma clean_total t : valid_table t → ∃ c, clean t = Ok c.
Proof.
  intros (Hwf & original & Ho & Hall).
  apply dropna_well_formed in Hwf. unfold clean. rewrite Ho, result_bind_Ok.
  generalize dependent (dropna t). intros d0 Hwf0 Ho.
  assert (∃ nss, to_datetime original = Ok (Timestamp <$> nss)) as [nss Hd].
  { clear Ho. induction Hall as [|c0 l [ns Hns] _ [nss IH]]; [by exists []|].
    exists (ns :: nss). unfold to_datetime in *. simpl.
    by rewrite Hns, result_bind_Ok, IH. }
  rewrite Hd, result_bind_Ok.
  assert (Hlen : length nss = length (rows d0)).
  { apply mapR_length in Hd. apply getitem_length in Ho.
    rewrite length_fmap in Hd. congruence. }
  destruct (setitem_total d0 "date_added" (Timestamp <$> nss)) as [d1 H1];
    [by rewrite length_fmap|].
  rewrite H1, result_bind_Ok.
  destruct (setitem_spec _ _ _ _ Hwf0 H1) as (Hwf1 & Hd1 & Ho1 & Hl1).
  rewrite Hd1, result_bind_Ok, (dt_timestamps _ nss eq_refl), result_bind_Ok.
  unfold dt_day, dt_year. rewrite astype_int_some, result_bind_Ok.
  destruct (setitem_total d1 "day_added" (int_series (day_of <$> nss))) as [d2 H2];
    [unfold int_series; rewrite !length_fmap; congruence|].
  rewrite H2, result_bind_Ok.
  destruct (setitem_spec _ _ _ _ Hwf1 H2) as (Hwf2 & Hd2 & Ho2 & Hl2).
  rewrite (Ho2 "date_added"), Hd1 by done.
  rewrite result_bind_Ok, (dt_timestamps _ nss eq_refl), result_bind_Ok.
  rewrite astype_int_some, result_bind_Ok.
  destruct (setitem_total d2 "year_added" (int_series (year_of <$> nss))) as [d3 H3];
    [unfold int_series; rewrite !length_fmap; congruence|].
  rewrite H3, result_bind_Ok.
  destruct (setitem_spec _ _ _ _ Hwf2 H3) as (Hwf3 & Hd3 & Ho3 & Hl3).
  rewrite (Ho3 "date_added"), (Ho2 "date_added"), Hd1 by done.
  rewrite result_bind_Ok, (dt_timestamps _ nss eq_refl), !result_bind_Ok.
  apply setitem_total. unfold dt_month. rewrite num_series_some.
  rewrite !length_fmap. congruence.
Qed.

(** [load_data] with nothing stored under the path: the body runs, and
    what it returns goes into the store; when it raises nothing is
    stored. *)
Lemma load_data_miss file_path w :
  load_data_cache w !! file_path = None →
  match files w !! file_path with
  | None => load_data file_path w = (Raise (FileNotFoundError file_path), w)
  | Some t =>
      match clean t with
      | Ok c =>
          load_data file_path w
          = (Ok (length (heap w), S (S (length (heap w)))),
             set_load_data_cache (<[file_path := (t, c)]> (load_data_cache w))
               (set_heap (heap w ++ [t; t; c]) w))
      | Raise e =>
          ∃ c', load_data file_path w
                = (Raise e, set_heap (heap w ++ [t; t; c']) w)
      end
  end.
Proof.
  intros Hmiss. pose proof (load_data__wrapped_run file_path w) as Hbody.
  assert (Hrun : load_data file_path w
                 = match load_data__wrapped file_path w with
                   | (Ok (netflix_raw, netflix_df), w1) =>
                       (raw ← deref netflix_raw;
                        df ← deref netflix_df;
                        load_data_cache_write file_path (raw, df);;
                        mret (netflix_raw, netflix_df)) w1
                   | (Raise e, w1) => (Raise e, w1)
                   end).
  { unfold load_data. rewrite run_bind. unfold load_data_cache_read.
    rewrite Hmiss, run_bind.
    by destruct (load_data__wrapped file_path w) as [[[r d]|e] w1]. }
  rewrite Hrun. clear Hrun.
  destruct (files w !! file_path) as [t|]; [|by rewrite Hbody].
  destruct (clean t) as [c|e]; [|destruct Hbody as [c' ->]; by exists c'].
  rewrite Hbody.
  rewrite run_bind. unfold deref at 1. cbn [heap set_heap].
  rewrite (lookup_app_r (heap w)) by lia. rewrite Nat.sub_diag. cbn [lookup list_lookup].
  rewrite run_bind. unfold deref at 1. cbn [heap set_heap].
  rewrite (lookup_app_r (heap w)) by lia.
  replace (S (S (length (heap w))) - length (heap w))%nat with 2%nat by lia.
  done.
Qed.

(** A first load that returns: the cleaning went through, and the world
    is the one above. *)
Lemma load_data_miss_Ok file_path w t raw df w' :
  files w !! file_path = Some t →
  load_data_cache w !! file_path = None →
  load_data file_path w = (Ok (raw, df), w') →
  ∃ c, clean t = Ok c
       ∧ raw = length (heap w) ∧ df = S (S (length (heap w)))
       ∧ w' = set_load_data_cache (<[file_path := (t, c)]> (load_data_cache w))
                (set_heap (heap w ++ [t; t; c]) w).
Proof.
  intros Hfile Hmiss H. pose proof (load_data_miss file_path w Hmiss) as Hrun.
  rewrite Hfile in Hrun. destruct (clean t) as [c|e].
  - rewrite Hrun in H. injection H as <- <- <-. by exists c.
  - destruct Hrun as [c' Hrun]. rewrite Hrun in H. done.
Qed.

(** A first load all of whose steps go through. *)
Lemma load_data_miss_clean file_path w t c :
  files w !! file_path = Some t →
  load_data_cache w !! file_path = None →
  clean t = Ok c →
  load_data file_path w
  = (Ok (length (heap w), S (S (length (heap w)))),
     set_load_data_cache (<[file_path := (t, c)]> (load_data_cache w))
       (set_heap (heap w ++ [t; t; c]) w)).
Proof.
  intros Hfile Hmiss Hc. pose proof (load_data_miss file_path w Hmiss) as Hrun.
  by rewrite Hfile, Hc in Hrun.
Qed.

(** A first load whose cleaning raises. *)
Lemma load_data_miss_Raise file_path w t e :
  files w !! file_path = Some t →
  load_data_cache w !! file_path = None →
  clean t = Raise e →
  (load_data file_path w).1 = Raise e.
Proof.
  intros Hfile Hmiss Hc. pose proof (load_data_miss file_path w Hmiss) as Hrun.
  rewrite Hfile, Hc in Hrun. destruct Hrun as [c' ->]. done.
Qed.

(** [load_data] with tables stored under the path: fresh copies of them. *)
Lemma load_data_hit file_path w raw df :
  load_data_cache w !! file_path = Some (raw, df) →
  load_data file_path w =
  (Ok (length (heap w), S (length (heap w))), set_heap (heap w ++ [raw; df]) w).
Proof.
  intros Hhit. unfold load_data. rewrite run_bind.
  unfold load_data_cache_read. rewrite Hhit.
  rewrite run_bind. unfold alloc at 1. rewrite run_bind. unfold alloc.
  cbn [heap set_heap]. unfold mret, M_ret.
  rewrite length_app, <- app_assoc. simpl.
  by replace (length (heap w) + 1)%nat with (S (length (heap w))) by lia.
Qed.

(** What a first load returns, in terms of [clean]. *)
Lemma load_data_cold file_path w t raw df w' :
  files w !! file_path = Some t →
  load_data_cache w !! file_path = None →
  load_data file_path w = (Ok (raw, df), w') →
  ∃ c, clean t = Ok c ∧ heap w' !! raw = Some t ∧ heap w' !! df = Some c.
Proof.
  intros Hfile Hmiss H.
  destruct (load_data_miss_Ok _ _ _ _ _ _ Hfile Hmiss H) as (c & Hc & -> & -> & ->).
  exists c. cbn [heap set_heap set_load_data_cache]. split_and!; [done| |].
  - by rewrite (list_lookup_middle _ [t; c]).
  - rewrite (lookup_app_r (heap w)) by lia.
    by replace (S (S (length (heap w))) - length (heap w))%nat with 2%nat by lia.
Qed.

(** What a load that returns leaves behind: the two tables under the
    references returned, and in the store under the path. *)
Lemma load_data_returns file_path w raw df w1 :
  load_data file_path w = (Ok (raw, df), w1) →
  ∃ t c,
    heap w1 !! raw = Some t ∧ heap w1 !! df = Some c
    ∧ load_data_cache w1 !! file_path = Some (t, c).
Proof.
  intros H. destruct (load_data_cache w !! file_path) as [[t c]|] eqn:Hw.
  - rewrite (load_data_hit _ _ t c) in H by done.
    injection H as <- <- <-. exists t, c. cbn [heap set_heap load_data_cache].
    split_and!; [| |done].
    + by rewrite (list_lookup_middle _ [c]).
    + rewrite (lookup_app_r (heap w)) by lia.
      by replace (S (length (heap w)) - length (heap w))%nat with 1%nat by lia.
  - pose proof (load_data_miss file_path w Hw) as Hrun.
    destruct (files w !! file_path) as [t|]; [|by rewrite Hrun in H].
    destruct (clean t) as [c|]; [|destruct Hrun as [c' Hrun]; by rewrite Hrun in H].
    rewrite Hrun in H. injection H as <- <- <-. exists t, c.
    cbn [heap set_heap load_data_cache set_load_data_cache].
    split_and!.
    + by rewrite (list_lookup_middle _ [t; c]).
    + rewrite (lookup_app_r (heap w)) by lia.
      by replace (S (S (length (heap w))) - length (heap w))%nat with 2%nat by lia.
    + apply lookup_insert_eq.
Qed.

(** ** The renderers *)

(** A renderer run on a table: the figure is a function of the table,
    and the world stays as it is. *)
Lemma plot_type_distribution_run df w t :
  heap w !! df = Some t →
  plot_type_distribution df w = (type_distribution_figure t, w).
Proof.
  intros H. unfold plot_type_distribution, type_distribution_figure.
  rewrite run_bind, (DataFrame_getitem_run _ _ _ t) by done.
  destruct (getitem t "type") as [x|e] eqn:Hx; [|done]. rewrite result_bind_Ok.
  rewrite run_bind, run_bind, (DataFrame_getitem_run _ _ _ t), Hx by done.
  unfold mret at 1, M_ret at 1.
  rewrite step_lift. fold type_labels.
  by destruct (pie _ _ _).
Qed.

Lemma plot_rating_distribution_run df w t :
  heap w !! df = Some t →
  plot_rating_distribution df w = (rating_distribution_figure t, w).
Proof.
  intros H. unfold plot_rating_distribution, rating_distribution_figure.
  rewrite run_bind, run_bind, (DataFrame_getitem_run _ _ _ t) by done.
  destruct (getitem t "rating") as [x|e] eqn:Hx; [|done]. rewrite result_bind_Ok.
  unfold mret at 1, M_ret at 1.
  rewrite run_bind, (DataFrame_getitem_run _ _ _ t), Hx by done.
  destruct (countplot_labels x "rating") as [x_label y_label].
  rewrite run_bind, run_bind, (DataFrame_getitem_run _ _ _ t), Hx by done.
  unfold mret at 1, M_ret at 1.
  rewrite step_lift.
  by destruct (plot_pie _).
Qed.

Lemma plot_type_vs_rating_run df w t :
  heap w !! df = Some t →
  plot_type_vs_rating df w = (type_vs_rating_figure t, w).
Proof.
  intros H. unfold plot_type_vs_rating, type_vs_rating_figure.
  rewrite run_bind, run_bind, (DataFrame_getitem_run _ _ _ t) by done.
  destruct (getitem t "rating") as [x|e] eqn:Hx; [|done]. rewrite result_bind_Ok.
  unfold mret at 1, M_ret at 1.
  rewrite run_bind, (data_variable_run _ _ _ t x) by done.
  rewrite run_bind. unfold data_variable. rewrite run_bind. unfold deref.
  rewrite H. unfold lift.
  destruct (getitem t "type"); [|done].
  by destruct (countplot_labels x "rating").
Qed.

Lemma count_present c (s : Series) :
  notna c = true → count c (present s) = count c s.
Proof.
  intros Hc. unfold count. f_equal. rewrite list_filter_filter.
  apply list_filter_iff. intros x. split; [tauto|]. by intros ->.
Qed.

Lemma get_loc_None c cols : get_loc c cols = None ↔ c ∉ cols.
Proof.
  induction cols as [|d cols IH]; simpl.
  - split; [intros _; apply not_elem_of_nil | done].
  - rewrite not_elem_of_cons. destruct (decide (c = d)) as [->|Hne].
    + split; [done | intros [? _]; done].
    + destruct (get_loc c cols); simpl.
      * split; [done|]. intros [_ H]. by apply IH in H.
      * split; [|done]. intros _. split; [done|]. by apply IH.
Qed.

Lemma getitem_KeyError t c : c ∉ columns t → getitem t c = Raise (KeyError c).
Proof. intros H. apply get_loc_None in H. unfold getitem. by rewrite H. Qed.

Lemma getitem_Ok t c : c ∈ columns t → ∃ s, getitem t c = Ok s.
Proof.
  intros H. unfold getitem. destruct (get_loc c (columns t)) eqn:Hloc; [by eexists|].
  by apply get_loc_None in Hloc.
Qed.

Lemma count_pos c (s : Series) : c ∈ s → (0 < count c s)%nat.
Proof.
  intros H. unfold count.
  assert (c ∈ filter (λ x, x = c) s) as Hin by (by apply list_elem_of_filter).
  destruct (filter (λ x, x = c) s); [by apply elem_of_nil in Hin|simpl; lia].
Qed.

Lemma value_counts_index_elem_of (s : Series) c :
  c ∈ index (value_counts s) ↔ c ∈ s ∧ notna c = true.
Proof.
  unfold index. rewrite value_counts_perm, <- list_fmap_compose.
  change (fst ∘ _) with (@id cell). rewrite list_fmap_id, unique_elem_of.
  rewrite list_elem_of_filter. tauto.
Qed.

(** The entries of [value_counts] are the values with their counts in the
    column itself. *)
Lemma value_counts_entries (s : Series) :
  Forall (λ p, p.2 = count p.1 s ∧ (0 < p.2)%nat ∧ p.1 ∈ s ∧ notna p.1 = true)
         (value_counts s).
Proof.
  apply Forall_forall. intros [c n] Hp.
  assert (c ∈ index (value_counts s)) as Hc
    by (unfold index; apply (list_elem_of_fmap_2 fst _ _ Hp)).
  apply value_counts_index_elem_of in Hc as [Hin Hna].
  pose proof (value_counts_count s) as Hall.
  rewrite Forall_forall in Hall. specialize (Hall _ Hp). simpl in *.
  rewrite count_present in Hall by done. subst n.
  split_and!; try done. by apply count_pos.
Qed.

(** The pie of the type chart is drawn exactly when the column holds two
    distinct values. *)
Lemma type_pie_two (col : Series) :
  length (unique (present col)) = 2%nat →
  ∃ wedges, pie (values (value_counts col)) type_labels [0 # 1; 5 # 100]%Q = Ok wedges.
Proof.
  intros H2. unfold pie.
  assert (Hlen : length (values (value_counts col)) = 2%nat)
    by (unfold values; by rewrite length_fmap, value_counts_length).
  rewrite Hlen. simpl length.
  rewrite decide_False.
  - rewrite decide_False by (intros ?; done).
    rewrite decide_False by (intros ?; done). by eexists.
  - rewrite value_counts_sum. by destruct (present col).
Qed.

Lemma type_pie_not_two (col : Series) :
  length (unique (present col)) ≠ 2%nat →
  ∃ msg, pie (values (value_counts col)) type_labels [0 # 1; 5 # 100]%Q
         = Raise (ValueError msg).
Proof.
  intros H2. unfold pie.
  assert (Hlen : length (values (value_counts col)) = length (unique (present col)))
    by (unfold values; by rewrite length_fmap, value_counts_length).
  destruct (decide _); [by eexists|].
  rewrite Hlen. simpl length. rewrite decide_True by done. by eexists.
Qed.

(** The pie of the rating chart is drawn exactly when the column holds a
    rating. *)
Lemma rating_pie_some (col : Series) :
  present col ≠ [] → ∃ wedges, plot_pie (value_counts col) = Ok wedges.
Proof.
  intros Hne. unfold plot_pie, pie. rewrite value_counts_sum.
  rewrite decide_False by (by destruct (present col)).
  unfold values, index. rewrite !length_fmap, length_replicate.
  rewrite decide_False by (intros ?; done).
  rewrite decide_False by (intros ?; done). by eexists.
Qed.

Lemma sorted_counts (l : list (cell * nat)) :
  StronglySorted count_ge l → StronglySorted (λ m n, (n ≤ m)%nat) l.*2.
Proof.
  induction 1 as [|p l _ IH Hp]; csimpl; constructor; [done|].
  apply Forall_fmap. eapply Forall_impl; [exact Hp|]. by intros q Hq.
Qed.

(** The index of [value_counts]: the counts of the values, in the
    column, do not increase. *)
Lemma value_counts_index_sorted (s : Series) :
  StronglySorted (λ a b, (count b s ≤ count a s)%nat) (index (value_counts s)).
Proof.
  pose proof (value_counts_entries s) as Hent.
  pose proof (value_counts_sorted s) as Hsort. unfold index.
  induction Hsort as [|p l _ IH Hp]; csimpl; [constructor|].
  apply Forall_cons in Hent as [(Hn & _) Hent].
  constructor; [by apply IH|].
  apply Forall_fmap, Forall_forall. intros q Hq.
  rewrite Forall_forall in Hp, Hent.
  destruct (Hent q Hq) as (Hm & _). specialize (Hp q Hq).
  unfold count_ge in Hp. cbn [compose]. by rewrite <- Hn, <- Hm.
Qed.

(** A renderer that returns was given a live table. *)
Lemma getitem_live {A} df c (k : Series → M A) w a w' :
  (DataFrame_getitem df c ≫= k) w = (Ok a, w') → ∃ t, heap w !! df = Some t.
Proof.
  rewrite run_bind. unfold DataFrame_getitem. rewrite run_bind. unfold deref.
  destruct (heap w !! df) as [t|]; [eauto|done].
Qed.

Lemma plot_rating_distribution_live df w fig w' :
  plot_rating_distribution df w = (Ok fig, w') → ∃ t, heap w !! df = Some t.
Proof.
  intros H. unfold plot_rating_distribution in H. rewrite run_bind in H.
  destruct ((DataFrame_getitem df "rating" ≫= λ s, mret (index (value_counts s))) w)
    as [[o|] w1] eqn:E; [|done].
  by apply getitem_live in E.
Qed.

Lemma plot_type_vs_rating_live df w fig w' :
  plot_type_vs_rating df w = (Ok fig, w') → ∃ t, heap w !! df = Some t.
Proof.
  intros H. unfold plot_type_vs_rating in H. rewrite run_bind in H.
  destruct ((DataFrame_getitem df "rating" ≫= λ s, mret (index (value_counts s))) w)
    as [[o|] w1] eqn:E; [|done].
  by apply getitem_live in E.
Qed.

(** The wedges of a pie that is drawn: the sizes, labels and offsets it
    was given, in order. *)
Lemma pie_fields x labels explode wedges :
  pie x labels explode = Ok wedges →
  wedge_size <$> wedges = x
  ∧ wedge_label <$> wedges = labels
  ∧ wedge_explode <$> wedges = explode.
Proof.
  unfold pie.
  destruct (decide _); [done|].
  destruct (decide (length x ≠ length labels)) as [|Hl%dec_stable]; [done|].
  destruct (decide (length x ≠ length explode)) as [|He%dec_stable]; [done|].
  intros [= <-].
  clear -Hl He. revert labels explode Hl He.
  induction x as [|n x IH]; intros [|l labels] [|e explode] Hl He;
    simplify_eq/=; [done|].
  destruct (IH labels explode) as (-> & -> & ->); done.
Qed.

(** ** The word cloud *)

Lemma generate_wordcloud__wrapped_run df column_name title w t :
  heap w !! df = Some t →
  generate_wordcloud__wrapped df column_name title w =
  match getitem t column_name with
  | Raise e => (Raise e, w)
  | Ok s =>
      if decide (process_text (wordcloud_text s) = []) then
        (Raise (ValueError "We need at least 1 word to plot a word cloud, got 0."),
         w)
      else
        (Ok (mkFigure (10, 6)
               [mkAxes (Image (mkWordCloudImage (process_text (wordcloud_text s))
                                 "white" 1920 1080 (hd 0 (entropy w)))
                              "bilinear") title "" "" 0]),
         set_entropy (tl (entropy w)) w)
  end.
Proof.
  intros H. unfold generate_wordcloud__wrapped.
  rewrite run_bind, run_bind, (DataFrame_getitem_run _ _ _ t) by done.
  destruct (getitem t column_name) as [s|e]; [|done].
  unfold mret at 1, M_ret at 1. rewrite run_bind. unfold WordCloud_generate.
  destruct (decide (process_text (wordcloud_text s) = [])); done.
Qed.

Lemma generate_wordcloud_hit df column_name title w t fig :
  heap w !! df = Some t →
  assoc (t, column_name, title) (generate_wordcloud_cache w) = Some fig →
  generate_wordcloud df column_name title w = (Ok fig, w).
Proof.
  intros H Hhit. unfold generate_wordcloud. rewrite run_bind. unfold deref.
  rewrite H, run_bind. unfold generate_wordcloud_cache_read. by rewrite Hhit.
Qed.

Lemma generate_wordcloud_miss df column_name title w t :
  heap w !! df = Some t →
  assoc (t, column_name, title) (generate_wordcloud_cache w) = None →
  generate_wordcloud df column_name title w =
  match generate_wordcloud__wrapped df column_name title w with
  | (Ok fig, w1) =>
      (Ok fig, set_generate_wordcloud_cache
                 (((t, column_name, title), fig) :: generate_wordcloud_cache w1) w1)
  | (Raise e, w1) => (Raise e, w1)
  end.
Proof.
  intros H Hmiss. unfold generate_wordcloud. rewrite run_bind. unfold deref.
  rewrite H, run_bind. unfold generate_wordcloud_cache_read. rewrite Hmiss.
  rewrite run_bind.
  by destruct (generate_wordcloud__wrapped df column_name title w) as [[fig|] w1].
Qed.

(** What a call of the generator that returns leaves behind: the figure
    in the store under its arguments; the tables and the loader's store
    as they were. *)
Lemma generate_wordcloud_returns df column_name title w fig w1 c :
  heap w !! df = Some c →
  generate_wordcloud df column_name title w = (Ok fig, w1) →
  assoc (c, column_name, title) (generate_wordcloud_cache w1) = Some fig
  ∧ heap w1 = heap w
  ∧ load_data_cache w1 = load_data_cache w.
Proof.
  intros Hc H.
  destruct (assoc (c, column_name, title) (generate_wordcloud_cache w))
    as [fig0|] eqn:Hw.
  - rewrite (generate_wordcloud_hit _ _ _ _ c fig0) in H by done.
    by injection H as <- <-.
  - rewrite (generate_wordcloud_miss _ _ _ _ c),
            (generate_wordcloud__wrapped_run _ _ _ _ c) in H by done.
    destruct (getitem c column_name) as [s|]; [|done].
    destruct (decide _); [done|]. injection H as <- <-.
    cbn [generate_wordcloud_cache set_generate_wordcloud_cache heap
         load_data_cache set_entropy assoc].
    by rewrite decide_True.
Qed.

(** * The claims *)

(** C5. The rating chart is drawn for every table that holds a rating.
    Its bars are the ratings of the column, each of them once and as high
    as the number of its records, and from left to right the heights
    never increase.  The type-by-rating chart, which is drawn whenever
    the table has a rating and a type column, has the ratings of the
    column on its x-axis, each of them once, in an order in which their
    counts never increase: the order of the bars of the rating chart,
    when that is drawn as well. *)
Theorem rating_bars_descending :
  (∀ df w t col,
     heap w !! df = Some t → getitem t "rating" = Ok col → present col ≠ [] →
     ∃ fig, plot_rating_distribution df w = (Ok fig, w))
  ∧ (∀ df w fig w',
      plot_rating_distribution df w = (Ok fig, w') →
      ∃ t col,
        heap w !! df = Some t ∧ getitem t "rating" = Ok col
        ∧ NoDup (bars_of fig 0).*1
        ∧ (∀ c, c ∈ (bars_of fig 0).*1 ↔ c ∈ col ∧ notna c = true)
        ∧ Forall (λ b, b.2 = count b.1 col ∧ (0 < b.2)%nat) (bars_of fig 0)
        ∧ StronglySorted (λ m n, (n ≤ m)%nat) (bars_of fig 0).*2
        ∧ ("type" ∈ columns t →
           ∃ fig2, plot_type_vs_rating df w = (Ok fig2, w))
        ∧ ∀ fig2 w2, plot_type_vs_rating df w = (Ok fig2, w2) →
                     (groups_of fig2 0).*1 = (bars_of fig 0).*1)
  ∧ ∀ df w fig2 w2,
      plot_type_vs_rating df w = (Ok fig2, w2) →
      ∃ t col,
        heap w !! df = Some t ∧ getitem t "rating" = Ok col
        ∧ NoDup (groups_of fig2 0).*1
        ∧ (∀ c, c ∈ (groups_of fig2 0).*1 ↔ c ∈ col ∧ notna c = true)
        ∧ StronglySorted (λ a b, (count b col ≤ count a col)%nat)
                         (groups_of fig2 0).*1.
Proof.
  assert (Haxis : ∀ col hue x_label y_label,
            (groups_of
               (mkFigure (14, 8)
                  [mkAxes (GroupedBars
                             (countplot_hue col hue (Some (index (value_counts col)))))
                          "Relation between Type (Movie/TV Show) and Rating"
                          x_label y_label 70]) 0).*1
            = index (value_counts col)).
  { intros. unfold groups_of, countplot_hue, categorical_order. simpl.
    rewrite <- list_fmap_compose. exact (list_fmap_id _). }
  split_and!.
  - intros df w t col Ht Hcol Hne.
    rewrite (plot_rating_distribution_run _ _ t) by done.
    unfold rating_distribution_figure. rewrite Hcol, result_bind_Ok.
    destruct (rating_pie_some col Hne) as [wedges ->]. by eexists.
  - intros df w fig w' H.
    destruct (plot_rating_distribution_live _ _ _ _ H) as [t Ht].
    rewrite (plot_rating_distribution_run _ _ t) in H by done.
    injection H as H <-. unfold rating_distribution_figure in H.
    destruct (getitem t "rating") as [col|] eqn:Hcol; [|done].
    rewrite result_bind_Ok in H.
    destruct (plot_pie (value_counts col)) as [wedges|]; [|done].
    injection H as <-. exists t, col. unfold bars_of. simpl.
    rewrite countplot_value_counts_order.
    split_and!; [done|done| | | | | |].
    + apply value_counts_index_NoDup.
    + intros c. apply value_counts_index_elem_of.
    + eapply Forall_impl; [apply value_counts_entries|].
      intros p (Hn & Hpos & _). by split.
    + apply sorted_counts, value_counts_sorted.
    + intros Hty. destruct (getitem_Ok _ _ Hty) as [hue Hhue].
      rewrite (plot_type_vs_rating_run _ _ t) by done.
      unfold type_vs_rating_figure. rewrite Hcol, result_bind_Ok, Hhue.
      by eexists.
    + intros fig2 w2 H2. rewrite (plot_type_vs_rating_run _ _ t) in H2 by done.
      injection H2 as H2 <-. unfold type_vs_rating_figure in H2.
      rewrite Hcol, result_bind_Ok in H2.
      destruct (getitem t "type") as [hue|]; [|done].
      injection H2 as <-. apply Haxis.
  - intros df w fig2 w2 H2.
    destruct (plot_type_vs_rating_live _ _ _ _ H2) as [t Ht].
    rewrite (plot_type_vs_rating_run _ _ t) in H2 by done.
    injection H2 as H2 <-. unfold type_vs_rating_figure in H2.
    destruct (getitem t "rating") as [col|] eqn:Hcol; [|done].
    rewrite result_bind_Ok in H2.
    destruct (getitem t "type") as [hue|]; [|done].
    injection H2 as <-. exists t, col. rewrite Haxis.
    split_and!; [done|done| | |].
    + apply value_counts_index_NoDup.
    + intros c. apply value_counts_index_elem_of.
    + apply value_counts_index_sorted.
Qed.

(** C4 (amended). The counts of the type chart, in the bars and in the
    pie alike, add up to the number of records whose type is present; that
    is the number of records of the table when no record misses its type. *)
Theorem type_counts_sum_to_present df w fig w' :
  plot_type_distribution df w = (Ok fig, w') →
  ∃ t col,
    heap w !! df = Some t ∧ getitem t "type" = Ok col
    ∧ sum_list (bars_of fig 0).*2 = length (present col)
    ∧ sum_list (wedge_size <$> wedges_of fig 1) = length (present col)
    ∧ (Forall (λ c, notna c = true) col →
       sum_list (bars_of fig 0).*2 = shape0 t
       ∧ sum_list (wedge_size <$> wedges_of fig 1) = shape0 t).
Proof.
  intros H. destruct (getitem_live _ _ _ _ _ _ H) as [t Ht].
  rewrite (plot_type_distribution_run _ _ t) in H by done.
  injection H as H <-. unfold type_distribution_figure in H.
  destruct (getitem t "type") as [col|] eqn:Hcol; [|done].
  rewrite result_bind_Ok in H.
  destruct (pie _ _ _) as [wedges|] eqn:Hpie; [|done].
  injection H as <-. exists t, col. unfold bars_of, wedges_of. simpl.
  apply pie_fields in Hpie as (-> & _ & _).
  rewrite countplot_default_sum, value_counts_sum.
  split_and!; try done.
  intros Hall. rewrite (filter_all _ _ Hall).
  apply getitem_length in Hcol. unfold shape0. by rewrite Hcol.
Qed.

(** C10. The type pie is given the two labels Movie and TV Show whatever
    the data: a table of movies only makes the renderer fail, and in
    general the renderer returns a figure when the type column holds
    exactly two distinct values and fails with a ValueError otherwise. *)
Theorem type_pie_needs_two_types :
  (∃ msg, plot_type_distribution 0 (Fixture.holding Fixture.only_movies)
          = (Raise (ValueError msg), Fixture.holding Fixture.only_movies))
  ∧ ∀ df w t col,
      heap w !! df = Some t → getitem t "type" = Ok col →
      (length (unique (present col)) = 2%nat →
       ∃ fig, plot_type_distribution df w = (Ok fig, w))
      ∧ (length (unique (present col)) ≠ 2%nat →
         ∃ msg, plot_type_distribution df w = (Raise (ValueError msg), w)).
Proof.
  split; [eexists; vm_compute; reflexivity|].
  intros df w t col Ht Hcol.
  rewrite (plot_type_distribution_run _ _ t) by done.
  unfold type_distribution_figure. rewrite Hcol, result_bind_Ok.
  split; intros H2.
  - destruct (type_pie_two _ H2) as [wedges ->]. by eexists.
  - destruct (type_pie_not_two _ H2) as [msg ->]. by eexists.
Qed.

(** C3. Where the claim fails: with two shows and one movie the first
    wedge is labelled Movie and has size 2, the number of shows, and the
    wedge labelled TV Show has size 1, the number of movies. *)
Theorem type_pie_labels_by_position :
  ∃ fig col,
    plot_type_distribution 0 (Fixture.holding Fixture.more_shows)
    = (Ok fig, Fixture.holding Fixture.more_shows)
    ∧ getitem Fixture.more_shows "type" = Ok col
    ∧ wedge_label <$> wedges_of fig 1 = [Str "Movie"; Str "TV Show"]
    ∧ wedge_size <$> wedges_of fig 1 = [2; 1]%nat
    ∧ count (Str "Movie") col = 1%nat
    ∧ count (Str "TV Show") col = 2%nat.
Proof. eexists _, _. split_and!; vm_compute; reflexivity. Qed.

(** C8. A renderer leaves the world, and with it every table, as it
    found it, whether it returns a figure or raises.  The loader, with
    or without its store, changes no table that was there before it was
    called, whether it returns or raises; and the table its body parses
    from the file is a new object that holds what the file parses to
    when the body is done, whether the cleaning went through or raised:
    the columns are assigned to another object. *)
Theorem tables_unchanged :
  (∀ df w, (plot_type_distribution df w).2 = w)
  ∧ (∀ df w, (plot_rating_distribution df w).2 = w)
  ∧ (∀ df w, (plot_type_vs_rating df w).2 = w)
  ∧ (∀ file_path w r d,
       heap w !! r = Some d →
       heap (load_data__wrapped file_path w).2 !! r = Some d
       ∧ heap (load_data file_path w).2 !! r = Some d)
  ∧ (∀ file_path w t,
       files w !! file_path = Some t →
       heap (load_data__wrapped file_path w).2 !! length (heap w) = Some t)
  ∧ (∀ file_path w raw df w',
       load_data__wrapped file_path w = (Ok (raw, df), w') →
       raw = length (heap w) ∧ raw ≠ df
       ∧ ∃ t, files w !! file_path = Some t ∧ heap w' !! raw = Some t).
Proof.
  split_and!.
  - apply read_only_plot_type_distribution.
  - apply read_only_plot_rating_distribution.
  - apply read_only_plot_type_vs_rating.
  - intros file_path w r d Hr. split.
    + pose proof (load_data__wrapped_run file_path w) as Hrun.
      destruct (files w !! file_path) as [t|]; [|by rewrite Hrun].
      destruct (clean t) as [c|e]; [|destruct Hrun as [c' Hrun]];
        rewrite Hrun; cbn [snd heap set_heap]; by apply lookup_app_l_Some.
    + destruct (load_data_cache w !! file_path) as [[t c]|] eqn:Hcache.
      * rewrite (load_data_hit _ _ t c) by done.
        cbn [snd heap set_heap]. by apply lookup_app_l_Some.
      * pose proof (load_data_miss file_path w Hcache) as Hrun.
        destruct (files w !! file_path) as [t|]; [|by rewrite Hrun].
        destruct (clean t) as [c|e]; [|destruct Hrun as [c' Hrun]];
          rewrite Hrun; cbn [snd heap set_heap set_load_data_cache];
          by apply lookup_app_l_Some.
  - intros file_path w t Hfile.
    pose proof (load_data__wrapped_run file_path w) as Hrun.
    rewrite Hfile in Hrun.
    destruct (clean t) as [c|e]; [|destruct Hrun as [c' Hrun]];
      rewrite Hrun; cbn [snd heap set_heap]; by rewrite list_lookup_middle.
  - intros file_path w raw df w' H.
    pose proof (load_data__wrapped_run file_path w) as Hrun.
    destruct (files w !! file_path) as [t|]; [|by rewrite Hrun in H].
    destruct (clean t) as [c|e]; [|destruct Hrun as [c' Hrun]];
      rewrite Hrun in H; [|done].
    injection H as <- <- <-. split_and!; [done|lia|].
    exists t. split; [done|]. cbn [heap set_heap]. by rewrite list_lookup_middle.
Qed.

(** C1. For a valid table the loader returns the parsed table as it is
    and a cleaned table: the records of the parsed table that miss no
    field, in order, every column as parsed apart from the date, which is
    converted, and the three columns derived from it.  So the cleaned
    table has as many records as the parsed table has complete ones, and
    no more records than the parsed table. *)
Theorem loader_drops_incomplete_records file_path w t :
  valid_table t →
  files w !! file_path = Some t →
  load_data_cache w !! file_path = None →
  ∃ raw df w' cleaned,
    load_data file_path w = (Ok (raw, df), w')
    ∧ heap w' !! raw = Some t
    ∧ heap w' !! df = Some cleaned
    ∧ (∀ col, col ∉ derived_columns → getitem cleaned col = getitem (dropna t) col)
    ∧ shape0 cleaned = length (filter (λ r, complete r = true) (rows t))
    ∧ (shape0 cleaned ≤ shape0 t)%nat.
Proof.
  intros Hvalid Hfile Hmiss.
  destruct (clean_total _ Hvalid) as [c Hc].
  destruct (clean_spec _ _ (proj1 Hvalid) Hc) as (_ & Hlen & Hcols & _).
  exists (length (heap w)), (S (S (length (heap w)))). eexists _, c.
  rewrite (load_data_miss_clean _ _ t c) by done.
  split; [reflexivity|]. cbn [heap set_heap set_load_data_cache].
  split_and!; try done.
  - by rewrite list_lookup_middle.
  - rewrite (lookup_app_r (heap w)) by lia.
    by replace (S (S (length (heap w))) - length (heap w))%nat with 2%nat by lia.
  - unfold shape0. rewrite Hlen. apply dropna_length.
Qed.

(** C2 (amended). In every record of the cleaned table the loader
    returns, the date is the point in time the record's original date
    converts to, and the three derived fields are the day, the month and
    the year of the calendar date of that point in time: a day of a month
    of the calendar, as many days from 1 January 1970 as the point in
    time is whole days from the epoch.  So the day lies in 1..31 and the
    month in 1..12; the year has four digits exactly for the dates from
    the year 1000 to the year 9999, which the loader does not check. *)
Theorem derived_date_fields file_path w t raw df w' :
  well_formed t →
  files w !! file_path = Some t →
  load_data_cache w !! file_path = None →
  load_data file_path w = (Ok (raw, df), w') →
  ∃ cleaned original dates days months years,
    heap w' !! df = Some cleaned
    ∧ getitem (dropna t) "date_added" = Ok original
    ∧ getitem cleaned "date_added" = Ok dates
    ∧ getitem cleaned "day_added" = Ok days
    ∧ getitem cleaned "month_added" = Ok months
    ∧ getitem cleaned "year_added" = Ok years
    ∧ ∀ k, (k < shape0 cleaned)%nat →
        ∃ c0 ns y m d,
          original !! k = Some c0
          ∧ to_datetime_cell c0 = Ok (Timestamp ns)
          ∧ dates !! k = Some (Timestamp ns)
          ∧ days !! k = Some (Int d)
          ∧ months !! k = Some (Int m)
          ∧ years !! k = Some (Int y)
          ∧ 1 <= m <= 12
          ∧ 1 <= d <= days_in_month y m
          ∧ d <= 31
          ∧ days_from_civil y m d = ns / ns_per_day
          ∧ (1000 <= y <= 9999
             ↔ days_from_civil 1000 1 1 * ns_per_day <= ns
               < days_from_civil 10000 1 1 * ns_per_day).
Proof.
  intros Hwf Hfile Hmiss H.
  destruct (load_data_miss_Ok _ _ _ _ _ _ Hfile Hmiss H) as (c & Hc & -> & -> & ->).
  destruct (clean_columns _ _ Hwf Hc)
    as (original & nss & Ho & Hconv & Hlen & Hdate & Hday & Hyear & Hmonth).
  exists c, original. eexists _, _, _, _.
  cbn [heap set_heap set_load_data_cache].
  split_and!; [|exact Ho|exact Hdate|exact Hday|exact Hmonth|exact Hyear|].
  - rewrite (lookup_app_r (heap w)) by lia.
    by replace (S (S (length (heap w))) - length (heap w))%nat with 2%nat by lia.
  - intros k Hk. unfold shape0 in Hk. rewrite <- Hlen in Hk.
    destruct (lookup_lt_is_Some_2 nss k Hk) as [ns Hns].
    destruct (Forall2_lookup_r _ _ _ _ _ Hconv Hns) as (c0 & Hc0 & Hcell).
    exists c0, ns, (year_of ns), (month_of ns), (day_of ns).
    rewrite !list_lookup_fmap, Hns. cbn [fmap option_fmap option_map compose].
    destruct (calendar_fields ns) as (Hm & Hd & H31 & Hdays & Hyear4).
    split_and!; try done; lia.
Qed.

(** C7. A call of the loader that returns tables is followed, in any
    world with the same store, whatever happened to the file meanwhile,
    by calls with the same path that return tables of the same content.
    A call of the word-cloud generator that returns a figure is followed,
    in any world with the same store, by calls with a table of the same
    content, the same column and the same title that return the same
    figure, although a fresh layout would draw another random seed.
    Without the store, the body of the loader run in two worlds where the
    file parses to the same table gives tables of the same content, or
    raises the same exception. *)
Theorem cached_calls_agree :
  (∀ file_path w raw df w1 w1',
     load_data file_path w = (Ok (raw, df), w1) →
     load_data_cache w1' = load_data_cache w1 →
     ∃ raw' df' w2 t c,
       load_data file_path w1' = (Ok (raw', df'), w2)
       ∧ heap w1 !! raw = Some t ∧ heap w2 !! raw' = Some t
       ∧ heap w1 !! df = Some c ∧ heap w2 !! df' = Some c)
  ∧ (∀ df column_name title w fig w1 table df' w1',
       generate_wordcloud df column_name title w = (Ok fig, w1) →
       heap w !! df = Some table →
       heap w1' !! df' = Some table →
       generate_wordcloud_cache w1' = generate_wordcloud_cache w1 →
       generate_wordcloud df' column_name title w1' = (Ok fig, w1'))
  ∧ (∀ file_path w w',
       files w !! file_path = files w' !! file_path →
       match load_data__wrapped file_path w, load_data__wrapped file_path w' with
       | (Ok (raw, df), w1), (Ok (raw', df'), w1') =>
           heap w1 !! raw = heap w1' !! raw' ∧ heap w1 !! df = heap w1' !! df'
       | (Raise e, _), (Raise e', _) => e = e'
       | _, _ => False
       end).
Proof.
  split_and!.
  - intros file_path w raw df w1 w1' H Hcache.
    destruct (load_data_returns _ _ _ _ _ H) as (t & c & Hraw & Hdf & Hstored).
    rewrite <- Hcache in Hstored.
    exists (length (heap w1')), (S (length (heap w1'))). eexists _, t, c.
    rewrite (load_data_hit _ _ t c) by done.
    split; [reflexivity|]. cbn [heap set_heap].
    split_and!; [done| |done|].
    + by rewrite (list_lookup_middle _ [c]).
    + rewrite (lookup_app_r (heap w1')) by lia.
      by replace (S (length (heap w1')) - length (heap w1'))%nat with 1%nat by lia.
  - intros df column_name title w fig w1 table df' w1' H Ht Ht' Hcache.
    apply (generate_wordcloud_hit _ _ _ _ table); [done|]. rewrite Hcache.
    by destruct (generate_wordcloud_returns _ _ _ _ _ _ _ Ht H) as (Hfig & _).
  - intros file_path w w' Hfiles.
    pose proof (load_data__wrapped_run file_path w) as Hw.
    pose proof (load_data__wrapped_run file_path w') as Hw'.
    rewrite Hfiles in Hw.
    destruct (files w' !! file_path) as [t|]; [|by rewrite Hw, Hw'].
    destruct (clean t) as [c|e].
    + rewrite Hw, Hw'. cbn [heap set_heap].
      rewrite (list_lookup_middle (heap w) [t; c]),
              (list_lookup_middle (heap w') [t; c]) by done.
      rewrite (lookup_app_r (heap w)), (lookup_app_r (heap w')) by lia.
      replace (S (S (length (heap w))) - length (heap w))%nat with 2%nat by lia.
      replace (S (S (length (heap w'))) - length (heap w'))%nat with 2%nat by lia.
      done.
    + destruct Hw as [c1 ->], Hw' as [c2 ->]. done.
Qed.

(** C6. The text of the word cloud is the values of the column, each
    printed as text and with its commas deleted, joined by single spaces;
    for a column of text the values are taken as they are.  Its words are
    the words of the values, in order, so that "USA, India" and "USA"
    count USA twice and India once.  This text is what the word
    frequencies of the figure are computed from. *)
Theorem wordcloud_text_joins_values :
  (∀ s : Series,
     wordcloud_text s = join " " (string_filter not_comma <$> astype_str s)
     ∧ tokens (wordcloud_text s)
       = concat (tokens ∘ string_filter not_comma <$> astype_str s))
  ∧ (∀ vs : list string,
       wordcloud_text (Str <$> vs) = join " " (string_filter not_comma <$> vs))
  ∧ tokens (wordcloud_text [Str "USA, India"; Str "USA"]) = ["USA"; "India"; "USA"]
  ∧ token_count "USA" (wordcloud_text [Str "USA, India"; Str "USA"]) = 2%nat
  ∧ token_count "India" (wordcloud_text [Str "USA, India"; Str "USA"]) = 1%nat
  ∧ (∀ df column_name title w fig w',
       generate_wordcloud__wrapped df column_name title w = (Ok fig, w') →
       ∃ t s img,
         heap w !! df = Some t ∧ getitem t column_name = Ok s
         ∧ image_of fig 0 = Some img
         ∧ frequencies img = process_text (wordcloud_text s)).
Proof.
  assert (Htext : ∀ s : Series,
            wordcloud_text s = join " " (string_filter not_comma <$> astype_str s)).
  { intros s. unfold wordcloud_text. f_equal. apply list_fmap_ext.
    intros _ v _. apply str_replace_comma. }
  split_and!.
  - intros s. split; [done|].
    by rewrite Htext, tokens_join, <- list_fmap_compose.
  - intros vs. by rewrite Htext, astype_str_text.
  - vm_compute; reflexivity.
  - vm_compute; reflexivity.
  - vm_compute; reflexivity.
  - intros df column_name title w fig w' H.
    assert (∃ t, heap w !! df = Some t) as [t Ht].
    { apply bind_Ok in H as (text & w0 & H & _). by apply getitem_live in H. }
    rewrite (generate_wordcloud__wrapped_run _ _ _ _ t) in H by done.
    destruct (getitem t column_name) as [s|] eqn:Hs; [|done].
    destruct (decide _); [done|]. injection H as <- <-.
    by eexists t, s, _.
Qed.

(** C9. The commas are deleted and nothing is put in their place: a
    value without blanks is still one word after the deletion (or none,
    when only commas were there), so "USA,India" becomes the single word
    "USAIndia"; the parts come out as separate words where the value
    already had a blank after the comma. *)
Theorem commas_deleted_without_separator :
  (∀ v, str_replace "," "" v = string_filter not_comma v)
  ∧ (∀ v, no_blank v = true →
       tokens (str_replace "," "" v) =
       if decide (string_filter not_comma v = "") then []
       else [string_filter not_comma v])
  ∧ wordcloud_text [Str "USA,India"] = "USAIndia"
  ∧ tokens (wordcloud_text [Str "USA,India"]) = ["USAIndia"]
  ∧ tokens (wordcloud_text [Str "USA, India"]) = ["USA"; "India"].
Proof.
  split_and!.
  - apply str_replace_comma.
  - intros v Hv. rewrite str_replace_comma. unfold tokens.
    rewrite tokens_from_no_blank by (by apply string_filter_no_blank). done.
  - vm_compute; reflexivity.
  - vm_compute; reflexivity.
  - vm_compute; reflexivity.
Qed.

(** * Further properties *)

(** ** The loader *)

Lemma complete_Forall r : complete r = true ↔ Forall (λ c, notna c = true) r.
Proof.
  unfold complete. induction r as [|c r IH]; simpl.
  - split; [constructor | done].
  - rewrite andb_true_iff, Forall_cons, IH. done.
Qed.

(** An assignment of present values keeps complete records complete. *)
Lemma setitem_complete d c s d' :
  Forall (λ r, complete r = true) (rows d) →
  Forall (λ v, notna v = true) s →
  setitem d c s = Ok d' →
  Forall (λ r, complete r = true) (rows d').
Proof.
  intros Hd Hs. unfold setitem.
  destruct (decide _); [|done].
  destruct (get_loc c (columns d)) as [i|]; intros [= <-]; simpl;
    (eapply Forall_zip_with_fst; [exact Hd|]);
    (eapply Forall_impl; [exact Hs|]); intros v Hv r Hr;
    apply complete_Forall; apply complete_Forall in Hr.
  - by apply Forall_insert.
  - apply Forall_app. split; [done|]. by constructor.
Qed.

(** The header after an assignment. *)
Lemma setitem_columns d c s d' :
  setitem d c s = Ok d' →
  columns d' = if decide (c ∈ columns d) then columns d else columns d ++ [c].
Proof.
  unfold setitem. destruct (decide _); [|done].
  destruct (get_loc c (columns d)) as [i|] eqn:Hloc; intros [= <-]; simpl.
  - rewrite decide_True; [done|].
    destruct (decide (c ∈ columns d)) as [|Hn]; [done|].
    apply get_loc_None in Hn. congruence.
  - rewrite decide_False; [done|]. by apply get_loc_None.
Qed.

(** The four assignments of the loader, one after the other, in terms of
    the timestamps the dates convert to. *)
Lemma clean_chain t c :
  well_formed t → clean t = Ok c →
  ∃ original nss d1 d2 d3,
    getitem (dropna t) "date_added" = Ok original
    ∧ to_datetime original = Ok (Timestamp <$> nss)
    ∧ setitem (dropna t) "date_added" (Timestamp <$> nss) = Ok d1
    ∧ setitem d1 "day_added" (int_series (day_of <$> nss)) = Ok d2
    ∧ setitem d2 "year_added" (int_series (year_of <$> nss)) = Ok d3
    ∧ setitem d3 "month_added" (num_series (dt_month (Some <$> nss))) = Ok c.
Proof.
  intros Hwf. apply dropna_well_formed in Hwf. unfold clean.
  generalize dependent (dropna t). intros d0 Hwf0.
  destruct (getitem d0 "date_added") as [original|] eqn:Ho; [|done].
  rewrite result_bind_Ok.
  destruct (to_datetime original) as [dates|] eqn:Hdates; [|done].
  rewrite result_bind_Ok.
  destruct (setitem d0 "date_added" dates) as [d1|] eqn:H1; [|done].
  rewrite result_bind_Ok.
  destruct (setitem_spec _ _ _ _ Hwf0 H1) as (Hwf1 & Hd1 & Ho1 & Hl1).
  rewrite Hd1, result_bind_Ok.
  destruct (dt dates) as [a|] eqn:Ha; [|done]. rewrite result_bind_Ok.
  destruct (astype_int (dt_day a)) as [day|] eqn:Hday; [|done].
  rewrite result_bind_Ok.
  destruct (dates_all_timestamps _ _ _ Ha Hday) as [nss ->].
  rewrite (dt_timestamps _ nss eq_refl) in Ha. injection Ha as <-.
  unfold dt_day in Hday. rewrite astype_int_some in Hday. injection Hday as <-.
  destruct (setitem d1 "day_added" _) as [d2|] eqn:H2; [|done].
  rewrite result_bind_Ok.
  destruct (setitem_spec _ _ _ _ Hwf1 H2) as (Hwf2 & Hd2 & Ho2 & Hl2).
  rewrite (Ho2 "date_added"), Hd1 by done.
  rewrite result_bind_Ok, (dt_timestamps _ nss eq_refl), result_bind_Ok.
  unfold dt_year. rewrite astype_int_some, result_bind_Ok.
  destruct (setitem d2 "year_added" _) as [d3|] eqn:H3; [|done].
  rewrite result_bind_Ok.
  destruct (setitem_spec _ _ _ _ Hwf2 H3) as (Hwf3 & Hd3 & Ho3 & Hl3).
  rewrite (Ho3 "date_added"), (Ho2 "date_added"), Hd1 by done.
  rewrite result_bind_Ok, (dt_timestamps _ nss eq_refl), !result_bind_Ok.
  intros H4. by exists original, nss, d1, d2, d3.
Qed.

Lemma DataFrame_eta d : mkDataFrame (columns d) (rows d) = d.
Proof. by destruct d. Qed.

(** The cleaned table has no missing cell: dropping incomplete records
    again would change nothing. *)
Theorem cleaned_table_is_complete file_path w t raw df w' :
  well_formed t →
  files w !! file_path = Some t →
  load_data_cache w !! file_path = None →
  load_data file_path w = (Ok (raw, df), w') →
  ∃ cleaned,
    heap w' !! df = Some cleaned
    ∧ Forall (λ r, Forall (λ c, notna c = true) r) (rows cleaned)
    ∧ dropna cleaned = cleaned.
Proof.
  intros Hwf Hfile Hmiss H.
  destruct (load_data_cold _ _ _ _ _ _ Hfile Hmiss H) as (c & Hc & _ & Hdf).
  exists c. split; [done|].
  destruct (clean_chain _ _ Hwf Hc)
    as (original & nss & d1 & d2 & d3 & _ & _ & H1 & H2 & H3 & H4).
  assert (Hrows : Forall (λ r, complete r = true) (rows c)).
  { eapply setitem_complete; [|
      |exact H4]; [eapply setitem_complete; [|
      |exact H3]; [eapply setitem_complete; [|
      |exact H2]; [eapply setitem_complete; [| |exact H1]|]|]|].
    - unfold dropna. simpl. apply Forall_forall. intros r Hr.
      by apply list_elem_of_filter in Hr as [Hr _].
    - by apply Forall_fmap, Forall_true.
    - unfold int_series. rewrite <- list_fmap_compose. by apply Forall_fmap, Forall_true.
    - unfold int_series. rewrite <- list_fmap_compose. by apply Forall_fmap, Forall_true.
    - unfold dt_month. rewrite num_series_some. by apply Forall_fmap, Forall_true. }
  split.
  - eapply Forall_impl; [exact Hrows|]. intros r. apply complete_Forall.
  - unfold dropna. rewrite (filter_all _ _ Hrows). apply DataFrame_eta.
Qed.

(** The header of the cleaned table: the parsed header, followed by those
    of [day_added], [year_added], [month_added] (in this order) that the
    parsed header does not have already; the cleaned table is
    rectangular. *)
Theorem cleaned_table_header file_path w t raw df w' :
  well_formed t →
  files w !! file_path = Some t →
  load_data_cache w !! file_path = None →
  load_data file_path w = (Ok (raw, df), w') →
  ∃ cleaned,
    heap w' !! df = Some cleaned
    ∧ well_formed cleaned
    ∧ "date_added" ∈ columns t
    ∧ columns cleaned
      = columns t ++ filter (λ c, c ∉ columns t)
                            ["day_added"; "year_added"; "month_added"].
Proof.
  intros Hwf Hfile Hmiss H.
  destruct (load_data_cold _ _ _ _ _ _ Hfile Hmiss H) as (c & Hc & _ & Hdf).
  exists c. split; [done|].
  destruct (clean_spec _ _ Hwf Hc) as (Hwfc & _).
  destruct (clean_chain _ _ Hwf Hc)
    as (original & nss & d1 & d2 & d3 & Ho & _ & H1 & H2 & H3 & H4).
  assert (Hdate : "date_added" ∈ columns t).
  { unfold getitem in Ho. simpl in Ho.
    destruct (get_loc "date_added" (columns t)) eqn:Hloc; [|done].
    destruct (decide ("date_added" ∈ columns t)) as [|Hn]; [done|].
    apply get_loc_None in Hn. congruence. }
  split_and!; [done|done|].
  apply setitem_columns in H1, H2, H3, H4. simpl in H1.
  rewrite decide_True in H1 by done.
  rewrite H4, H3, H2, H1. clear.
  rewrite !filter_cons, filter_nil.
  repeat case_decide; rewrite ?elem_of_app, ?elem_of_cons, ?elem_of_nil in *;
    rewrite ?app_nil_r, <- ?app_assoc; try done; exfalso; intuition congruence.
Qed.

Lemma mapR_Raise {A B} (f : A → result B) l :
  Exists (λ a, ∃ e, f a = Raise e) l →
  ∃ a e, a ∈ l ∧ f a = Raise e ∧ mapR f l = Raise e.
Proof.
  induction l as [|a0 l IH]; [by inversion 1|].
  intros H. destruct (f a0) as [b|e0] eqn:Ha0.
  - apply Exists_cons in H as [[e He]|H]; [congruence|].
    destruct (IH H) as (a & e & Ha & Hfa & Hl).
    exists a, e. split_and!; [by right|done|].
    simpl. by rewrite Ha0, result_bind_Ok, Hl.
  - exists a0, e0. split_and!; [by left|done|]. simpl. by rewrite Ha0.
Qed.

(** Without the file, or without a [date_added] column in it, a first
    load fails: with FileNotFoundError for the path, with KeyError for
    the column. *)
Theorem load_data_needs_file_and_date_column file_path w :
  load_data_cache w !! file_path = None →
  (files w !! file_path = None →
   load_data file_path w = (Raise (FileNotFoundError file_path), w))
  ∧ (∀ t, files w !! file_path = Some t → "date_added" ∉ columns t →
          (load_data file_path w).1 = Raise (KeyError "date_added")).
Proof.
  intros Hmiss. pose proof (load_data_miss file_path w Hmiss) as Hrun. split.
  - intros Hfile. by rewrite Hfile in Hrun.
  - intros t Hfile Hcol. apply (load_data_miss_Raise _ _ t); [done|done|].
    apply get_loc_None in Hcol.
    unfold clean, getitem. simpl. by rewrite Hcol.
Qed.

(** One date that does not convert, in a complete record, fails the whole
    load, with the exception of a date that does not convert. *)
Theorem load_data_fails_on_bad_date file_path w t original :
  files w !! file_path = Some t →
  load_data_cache w !! file_path = None →
  getitem (dropna t) "date_added" = Ok original →
  Exists (λ c0, ∃ e, to_datetime_cell c0 = Raise e) original →
  ∃ c0 e, c0 ∈ original ∧ to_datetime_cell c0 = Raise e
          ∧ (load_data file_path w).1 = Raise e.
Proof.
  intros Hfile Hmiss Ho Hbad.
  destruct (mapR_Raise _ _ Hbad) as (c0 & e & Hc0 & He & Hmap).
  exists c0, e. split_and!; [done|done|].
  apply (load_data_miss_Raise _ _ t); [done|done|].
  unfold clean. rewrite Ho, result_bind_Ok.
  unfold to_datetime. by rewrite Hmap.
Qed.

Lemma to_datetime_cell_shape c0 d :
  to_datetime_cell c0 = Ok d → d = NaN ∨ ∃ ns, d = Timestamp ns.
Proof.
  destruct c0 as [|s|n|n|n]; simpl.
  - intros [= <-]. by left.
  - destruct (parse_datetime_string s) as [| | |m];
      [done|done|intros [= <-]; by left|].
    intros [= <-]. right. by eexists.
  - destruct (decide (n = NPY_NAT)); [intros [= <-]; by left|].
    destruct (in_bounds n); [|done]. intros [= <-]. right. by eexists.
  - destruct (decide (n = NPY_NAT)); [intros [= <-]; by left|].
    destruct (in_bounds n); [|done]. intros [= <-]. right. by eexists.
  - intros [= <-]. right. by eexists.
Qed.

Lemma dt_datetimes (dates : Series) :
  Forall (λ d, d = NaN ∨ ∃ ns, d = Timestamp ns) dates →
  dt dates
  = Ok ((λ d, match d with Timestamp ns => Some ns | _ => None end) <$> dates).
Proof.
  intros H. unfold dt. apply mapR_Forall2. apply Forall2_fmap_r.
  induction H as [|d dates [->|[ns ->]] _ IH]; constructor; done.
Qed.

Lemma astype_int_none (s : list (option Z)) :
  None ∈ s → astype_int s = Raise IntCastingNaNError.
Proof.
  unfold astype_int. induction s as [|[n|] s IH]; simpl.
  - by intros ?%elem_of_nil.
  - intros [?|H]%elem_of_cons; [done|]. by rewrite IH.
  - done.
Qed.

(** A date that converts to NaT, in a complete record, fails the load at
    the cast of the day to an integer, when every date converts. *)
Theorem load_data_fails_on_NaT file_path w t original :
  well_formed t →
  files w !! file_path = Some t →
  load_data_cache w !! file_path = None →
  getitem (dropna t) "date_added" = Ok original →
  Forall (λ c0, ∃ d, to_datetime_cell c0 = Ok d) original →
  Exists (λ c0, to_datetime_cell c0 = Ok NaN) original →
  (load_data file_path w).1 = Raise IntCastingNaNError.
Proof.
  intros Hwf Hfile Hmiss Ho Hall Hnat.
  apply (load_data_miss_Raise _ _ t); [done|done|].
  apply dropna_well_formed in Hwf. unfold clean. rewrite Ho, result_bind_Ok.
  generalize dependent (dropna t). intros d0 Hwf0 Ho.
  destruct (mapR_total _ _ Hall) as [dates Hdates].
  unfold to_datetime. rewrite Hdates, result_bind_Ok.
  pose proof (proj1 (mapR_Forall2 _ _ _) Hdates) as H2.
  assert (Hshape : Forall (λ d, d = NaN ∨ ∃ ns, d = Timestamp ns) dates).
  { clear -H2. induction H2 as [|c0 d l dates Hd _ IH]; constructor; [|done].
    by eapply to_datetime_cell_shape. }
  assert (Hin : NaN ∈ dates).
  { clear -H2 Hnat. induction H2 as [|c0 d l dates Hd _ IH]; [by inversion Hnat|].
    apply Exists_cons in Hnat as [Hc0|Hl].
    - rewrite Hc0 in Hd. injection Hd as <-. by left.
    - right. by apply IH. }
  destruct (setitem_total d0 "date_added" dates) as [d1 H1].
  { apply mapR_length in Hdates. apply getitem_length in Ho. congruence. }
  rewrite H1, result_bind_Ok.
  destruct (setitem_spec _ _ _ _ Hwf0 H1) as (_ & Hd1 & _).
  rewrite Hd1, result_bind_Ok, (dt_datetimes _ Hshape), result_bind_Ok.
  rewrite astype_int_none; [done|].
  unfold dt_day. apply (list_elem_of_fmap_2 (option_map day_of) _ None).
  by apply (list_elem_of_fmap_2
              (λ d, match d with Timestamp ns => Some ns | _ => None end) _ NaN).
Qed.

(** When no record is complete the load returns whatever the dates
    are: the parsed table, and a cleaned table without records. *)
Theorem load_data_without_complete_record file_path w t :
  well_formed t →
  "date_added" ∈ columns t →
  Forall (λ r, complete r = false) (rows t) →
  files w !! file_path = Some t →
  load_data_cache w !! file_path = None →
  ∃ raw df w' cleaned,
    load_data file_path w = (Ok (raw, df), w')
    ∧ heap w' !! raw = Some t
    ∧ heap w' !! df = Some cleaned
    ∧ rows cleaned = [].
Proof.
  intros Hwf Hcol Hnone Hfile Hmiss.
  assert (Hrows : rows (dropna t) = []).
  { unfold dropna. simpl. clear -Hnone.
    induction Hnone as [|r rs Hr _ IH]; [done|].
    rewrite filter_cons_False; [done|]. by rewrite Hr. }
  assert (Hvalid : valid_table t).
  { split; [done|]. exists []. split; [|constructor].
    unfold getitem. rewrite Hrows. simpl.
    destruct (get_loc "date_added" (columns t)) eqn:Hloc; [done|].
    by apply get_loc_None in Hloc. }
  destruct (clean_total _ Hvalid) as [c Hc].
  destruct (clean_spec _ _ Hwf Hc) as (_ & Hlen & _).
  exists (length (heap w)), (S (S (length (heap w)))). eexists _, c.
  rewrite (load_data_miss_clean _ _ t c) by done.
  split; [reflexivity|]. cbn [heap set_heap set_load_data_cache].
  split_and!.
  - by rewrite (list_lookup_middle _ [t; c]).
  - rewrite (lookup_app_r (heap w)) by lia.
    by replace (S (S (length (heap w))) - length (heap w))%nat with 2%nat by lia.
  - rewrite Hrows in Hlen. by destruct (rows c).
Qed.

(** ** The renderers *)

(** What a renderer that returned was given, and what it returned. *)
Lemma plot_type_distribution_Ok df w fig w' :
  plot_type_distribution df w = (Ok fig, w') →
  ∃ t col,
    heap w !! df = Some t ∧ getitem t "type" = Ok col
    ∧ type_distribution_figure t = Ok fig ∧ w' = w.
Proof.
  intros H. destruct (getitem_live _ _ _ _ _ _ H) as [t Ht].
  rewrite (plot_type_distribution_run _ _ t) in H by done.
  injection H as H <-. pose proof H as H'. unfold type_distribution_figure in H'.
  destruct (getitem t "type") as [col|] eqn:Hcol; [|done].
  by exists t, col.
Qed.

Lemma plot_rating_distribution_Ok df w fig w' :
  plot_rating_distribution df w = (Ok fig, w') →
  ∃ t col,
    heap w !! df = Some t ∧ getitem t "rating" = Ok col
    ∧ rating_distribution_figure t = Ok fig ∧ w' = w.
Proof.
  intros H. destruct (plot_rating_distribution_live _ _ _ _ H) as [t Ht].
  rewrite (plot_rating_distribution_run _ _ t) in H by done.
  injection H as H <-. pose proof H as H'. unfold rating_distribution_figure in H'.
  destruct (getitem t "rating") as [col|] eqn:Hcol; [|done].
  by exists t, col.
Qed.


(** A renderer given a table without the column it reads fails and names
    the column: the type chart needs [type], the rating chart and the
    type-by-rating chart need [rating] (a KeyError from the table), and
    the type-by-rating chart needs [type] as well (a ValueError from
    seaborn, which looks that column up itself). *)
Theorem renderers_need_their_columns df w t :
  heap w !! df = Some t →
  ("type" ∉ columns t →
   plot_type_distribution df w = (Raise (KeyError "type"), w))
  ∧ ("rating" ∉ columns t →
     plot_rating_distribution df w = (Raise (KeyError "rating"), w)
     ∧ plot_type_vs_rating df w = (Raise (KeyError "rating"), w))
  ∧ ("rating" ∈ columns t → "type" ∉ columns t →
     ∃ msg, plot_type_vs_rating df w = (Raise (ValueError msg), w)).
Proof.
  intros H.
  rewrite (plot_type_distribution_run _ _ t),
          (plot_rating_distribution_run _ _ t),
          (plot_type_vs_rating_run _ _ t) by done.
  unfold type_distribution_figure, rating_distribution_figure, type_vs_rating_figure.
  split_and!.
  - intros Hc. by rewrite (getitem_KeyError _ _ Hc).
  - intros Hc. by rewrite (getitem_KeyError _ _ Hc).
  - intros Hr Hc. destruct (getitem_Ok _ _ Hr) as [x ->].
    rewrite (getitem_KeyError _ _ Hc). by eexists.
Qed.

(** The type pie when it is drawn: the two entries of [value_counts], the
    larger count first, under the fixed labels. *)
Lemma type_pie_entries df w fig w' t col :
  heap w !! df = Some t → getitem t "type" = Ok col →
  plot_type_distribution df w = (Ok fig, w') →
  ∃ a b,
    value_counts col = [(a, count a col); (b, count b col)]
    ∧ a ≠ b
    ∧ (0 < count b col ≤ count a col)%nat
    ∧ wedges_of fig 1
      = [mkWedge (Str "Movie") (count a col) (0 # 1)%Q;
         mkWedge (Str "TV Show") (count b col) (5 # 100)%Q].
Proof.
  intros Ht Hcol. rewrite (plot_type_distribution_run _ _ t) by done.
  unfold type_distribution_figure. rewrite Hcol, result_bind_Ok.
  destruct (pie _ _ _) as [wedges|] eqn:Hpie; [|done].
  intros [= <- <-]. unfold wedges_of. simpl.
  apply pie_fields in Hpie as (Hs & Hl & He).
  pose proof (value_counts_entries col) as Hent.
  pose proof (value_counts_sorted col) as Hsort.
  pose proof (value_counts_index_NoDup col) as Hnd.
  unfold values, index in *.
  destruct (value_counts col) as [|[a na] [|[b nb] [|? ?]]];
    destruct wedges as [|[l1 s1 e1] [|[l2 s2 e2] [|? ?]]]; simplify_eq/=.
  unfold type_labels in *. simplify_eq.
  apply Forall_cons in Hent as [(Hna & _ & _ & _) Hent].
  apply Forall_cons in Hent as [(Hnb & Hpos & _ & _) _]. simpl in *. subst na nb.
  apply StronglySorted_cons in Hsort as [Hle _].
  apply Forall_cons in Hle as [Hle _]. unfold count_ge in Hle. simpl in *.
  apply NoDup_cons in Hnd as [Hab _]. rewrite list_elem_of_singleton in Hab.
  exists a, b. split_and!; [done|done|lia|lia|done].
Qed.

(** The type pie, when it is drawn, has two wedges: the first is labelled
    Movie and stays in place, the second is labelled TV Show and is pulled
    out by 0.05; the second is not empty and never larger than the first,
    whatever the data. *)
Theorem type_pie_has_movie_wedge_first df w fig w' :
  plot_type_distribution df w = (Ok fig, w') →
  ∃ n1 n2,
    wedges_of fig 1
    = [mkWedge (Str "Movie") n1 (0 # 1)%Q; mkWedge (Str "TV Show") n2 (5 # 100)%Q]
    ∧ (0 < n2 ≤ n1)%nat.
Proof.
  intros H. destruct (plot_type_distribution_Ok _ _ _ _ H) as (t & col & Ht & Hcol & _).
  destruct (type_pie_entries _ _ _ _ _ _ Ht Hcol H) as (a & b & _ & _ & Hn & Hw).
  by exists (count a col), (count b col).
Qed.

(** When movies and shows both occur and movies outnumber shows, the type
    pie that is drawn is right: the wedge labelled Movie has the number
    of movies and the wedge labelled TV Show the number of shows. *)
Theorem type_pie_right_when_movies_lead df w fig w' t col :
  heap w !! df = Some t →
  getitem t "type" = Ok col →
  plot_type_distribution df w = (Ok fig, w') →
  (0 < count (Str "TV Show") col < count (Str "Movie") col)%nat →
  wedges_of fig 1
  = [mkWedge (Str "Movie") (count (Str "Movie") col) (0 # 1)%Q;
     mkWedge (Str "TV Show") (count (Str "TV Show") col) (5 # 100)%Q].
Proof.
  intros Ht Hcol H [Hshow Hlead].
  destruct (type_pie_entries _ _ _ _ _ _ Ht Hcol H) as (a & b & Hvc & Hab & Hn & ->).
  assert (Hin : ∀ c, notna c = true → (0 < count c col)%nat → c = a ∨ c = b).
  { intros c Hna Hc.
    assert (c ∈ index (value_counts col)) as Hi.
    { apply value_counts_index_elem_of. split; [|done].
      unfold count in Hc. destruct (filter (λ x, x = c) col) as [|x l] eqn:Hf;
        [simpl in Hc; lia|].
      assert (x ∈ filter (λ x, x = c) col) as Hx by (rewrite Hf; by left).
      apply list_elem_of_filter in Hx as [-> Hx]. done. }
    rewrite Hvc in Hi. unfold index in Hi. simpl in Hi.
    rewrite !elem_of_cons, elem_of_nil in Hi. tauto. }
  assert (Hm : Str "Movie" = a ∨ Str "Movie" = b) by (apply Hin; [done|lia]).
  assert (Hs : Str "TV Show" = a ∨ Str "TV Show" = b) by (apply Hin; [done|lia]).
  destruct Hm as [<-|<-], Hs as [Hs|Hs]; try discriminate Hs; subst;
    [done|lia].
Qed.

(** The bars of the type chart: one bar for every distinct type that
    occurs, as high as the number of records of that type.  The sizes of
    the pie beside it are the same counts, possibly in another order. *)
Theorem type_bars_count_each_type df w fig w' :
  plot_type_distribution df w = (Ok fig, w') →
  ∃ t col,
    heap w !! df = Some t ∧ getitem t "type" = Ok col
    ∧ NoDup (bars_of fig 0).*1
    ∧ (∀ c, c ∈ (bars_of fig 0).*1 ↔ c ∈ col ∧ notna c = true)
    ∧ Forall (λ b, b.2 = count b.1 col ∧ (0 < b.2)%nat) (bars_of fig 0)
    ∧ (bars_of fig 0).*2 ≡ₚ wedge_size <$> wedges_of fig 1.
Proof.
  intros H.
  destruct (plot_type_distribution_Ok _ _ _ _ H) as (t & col & Ht & Hcol & Hfig & _).
  unfold type_distribution_figure in Hfig. rewrite Hcol, result_bind_Ok in Hfig.
  destruct (pie _ _ _) as [wedges|] eqn:Hpie; [|done].
  injection Hfig as <-. exists t, col. unfold bars_of, wedges_of. simpl.
  apply pie_fields in Hpie as (-> & _ & _).
  assert (Hfst : (countplot col None).*1 = categorical_order col None).
  { unfold countplot. rewrite <- list_fmap_compose. exact (list_fmap_id _). }
  split_and!; [done|done| | | |].
  - rewrite Hfst. apply categorical_order_default_NoDup.
  - intros c. rewrite Hfst. apply categorical_order_default_elem_of.
  - unfold countplot. apply Forall_fmap, Forall_forall. intros c Hc. simpl.
    apply categorical_order_default_elem_of in Hc as [Hin Hna].
    rewrite count_present by done. split; [done|]. by apply count_pos.
  - unfold countplot, values. rewrite value_counts_perm, <- !list_fmap_compose.
    apply fmap_Permutation, NoDup_Permutation.
    + apply categorical_order_default_NoDup.
    + apply unique_NoDup.
    + intros c. rewrite categorical_order_default_elem_of, unique_elem_of.
      rewrite list_elem_of_filter. tauto.
Qed.

Lemma fmap_pair_zip {A B C} (f : A → B) (g : A → C) (l : list A) :
  (λ a, (f a, g a)) <$> l = zip (f <$> l) (g <$> l).
Proof. induction l as [|a l IH]; [done|]. csimpl. by rewrite IH. Qed.

(** The rating pie, unlike the type pie, takes its labels from the data:
    its wedges are the bars of the rating chart, one for one and in the
    same order, each sized by the count of the rating it is labelled
    with, none pulled out. *)
Theorem rating_pie_labelled_by_rating df w fig w' :
  plot_rating_distribution df w = (Ok fig, w') →
  ∃ t col,
    heap w !! df = Some t ∧ getitem t "rating" = Ok col
    ∧ (λ wd, (wedge_label wd, wedge_size wd)) <$> wedges_of fig 1 = bars_of fig 0
    ∧ NoDup (wedge_label <$> wedges_of fig 1)
    ∧ Forall (λ wd, wedge_size wd = count (wedge_label wd) col
                    ∧ wedge_explode wd = (0 # 1)%Q) (wedges_of fig 1).
Proof.
  intros H.
  destruct (plot_rating_distribution_Ok _ _ _ _ H) as (t & col & Ht & Hcol & Hfig & _).
  unfold rating_distribution_figure in Hfig. rewrite Hcol, result_bind_Ok in Hfig.
  destruct (plot_pie (value_counts col)) as [wedges|] eqn:Hpie; [|done].
  injection Hfig as <-. exists t, col. unfold bars_of, wedges_of. simpl.
  rewrite countplot_value_counts_order.
  unfold plot_pie in Hpie.
  apply pie_fields in Hpie as (Hs & Hl & He).
  assert (Hpairs : (λ wd, (wedge_label wd, wedge_size wd)) <$> wedges
                   = value_counts col).
  { rewrite fmap_pair_zip, Hs, Hl. apply zip_fst_snd. }
  split_and!; [done|done|done| |].
  - rewrite Hl. apply value_counts_index_NoDup.
  - assert (Forall (λ wd, wedge_size wd = count (wedge_label wd) col) wedges) as H1.
    { pose proof (value_counts_entries col) as Hent.
      rewrite <- Hpairs, Forall_fmap in Hent.
      eapply Forall_impl; [exact Hent|]. intros wd. simpl. tauto. }
    assert (Forall (λ wd, wedge_explode wd = (0 # 1)%Q) wedges) as H2.
    { assert (Forall (λ e, e = (0 # 1)%Q) (wedge_explode <$> wedges)) as H0
        by (rewrite He; by apply Forall_replicate).
      by rewrite Forall_fmap in H0. }
    by apply Forall_and.
Qed.









(** ** The word cloud *)

Lemma wordcloud_text_stripped (s : Series) :
  wordcloud_text s = join " " (string_filter not_comma <$> astype_str s).
Proof.
  unfold wordcloud_text. f_equal. apply list_fmap_ext.
  intros _ v _. apply str_replace_comma.
Qed.

Lemma occurs_app a (s1 s2 : string) :
  occurs a (s1 +:+ s2) = occurs a s1 || occurs a s2.
Proof.
  induction s1 as [|b s1 IH]; [done|].
  rewrite append_cons. simpl. by rewrite IH, orb_assoc.
Qed.

Lemma occurs_join a sep (l : list string) :
  occurs a sep = false →
  Forall (λ v, occurs a v = false) l →
  occurs a (join sep l) = false.
Proof.
  intros Hsep. induction 1 as [|v l Hv Hl IH]; [done|].
  destruct l as [|v' l]; [done|].
  change (join sep (v :: v' :: l)) with (v +:+ sep +:+ join sep (v' :: l)).
  by rewrite !occurs_app, Hv, Hsep, IH.
Qed.

Lemma occurs_comma_stripped v : occurs "," (string_filter not_comma v) = false.
Proof.
  induction v as [|a v IH]; [done|]. cbn [string_filter].
  destruct (not_comma a) eqn:Hk; [|exact IH].
  cbn [occurs]. rewrite IH, orb_false_r. unfold not_comma in Hk.
  destruct (Ascii.eqb_spec a ","); [done|].
  destruct (Ascii.eqb_spec "," a); congruence.
Qed.

(** The text handed to the word cloud holds no comma, whatever the
    column holds. *)
Theorem wordcloud_text_has_no_comma (s : Series) :
  occurs "," (wordcloud_text s) = false.
Proof.
  rewrite wordcloud_text_stripped. apply occurs_join; [done|].
  apply Forall_fmap, Forall_true. intros v. apply occurs_comma_stripped.
Qed.

Lemma length_filter_concat {A} (P : A → Prop) `{∀ x, Decision (P x)}
    (ls : list (list A)) :
  length (filter P (concat ls)) = sum_list ((λ l, length (filter P l)) <$> ls).
Proof.
  induction ls as [|l ls IH]; [done|].
  csimpl. by rewrite filter_app, length_app, IH.
Qed.

(** How often a word occurs in the text of a text column: the sum, over
    the records, of how often it occurs in the record's value with the
    commas deleted.  So the counts of two columns put one after the other
    add up, and the order of the records does not matter. *)
Theorem word_counts_sum_over_records (word : string) :
  (∀ vs : list string,
     token_count word (wordcloud_text (Str <$> vs))
     = sum_list ((λ v, token_count word (string_filter not_comma v)) <$> vs))
  ∧ (∀ vs1 vs2 : list string,
       token_count word (wordcloud_text (Str <$> vs1 ++ vs2))
       = (token_count word (wordcloud_text (Str <$> vs1))
          + token_count word (wordcloud_text (Str <$> vs2)))%nat)
  ∧ (∀ vs vs' : list string,
       vs ≡ₚ vs' →
       token_count word (wordcloud_text (Str <$> vs))
       = token_count word (wordcloud_text (Str <$> vs'))).
Proof.
  assert (Hsum : ∀ vs : list string,
     token_count word (wordcloud_text (Str <$> vs))
     = sum_list ((λ v, token_count word (string_filter not_comma v)) <$> vs)).
  { intros vs. unfold token_count.
    rewrite wordcloud_text_stripped, astype_str_text, tokens_join.
    by rewrite length_filter_concat, <- !list_fmap_compose. }
  split_and!; [done| |].
  - intros vs1 vs2. rewrite !Hsum, fmap_app. apply sum_list_with_app.
  - intros vs vs' Hp. rewrite !Hsum. by rewrite Hp.
Qed.

(** The word-cloud generator, with nothing stored for its arguments,
    fails with KeyError when the table lacks the column, and with the
    library's ValueError when the library finds no word in the text, as
    for a table without records if it finds no word in the empty text.
    The world is then as it was: nothing is stored, no seed is drawn. *)
Theorem generate_wordcloud_needs_column_and_words df column_name title w t :
  heap w !! df = Some t →
  assoc (t, column_name, title) (generate_wordcloud_cache w) = None →
  (column_name ∉ columns t →
   generate_wordcloud df column_name title w = (Raise (KeyError column_name), w))
  ∧ (∀ s, getitem t column_name = Ok s →
          process_text (wordcloud_text s) = [] →
          ∃ msg, generate_wordcloud df column_name title w
                 = (Raise (ValueError msg), w))
  ∧ (column_name ∈ columns t → rows t = [] → process_text "" = [] →
     ∃ msg, generate_wordcloud df column_name title w
            = (Raise (ValueError msg), w)).
Proof.
  intros Ht Hmiss.
  rewrite (generate_wordcloud_miss _ _ _ _ t),
          (generate_wordcloud__wrapped_run _ _ _ _ t) by done.
  assert (Hwords : ∀ s, getitem t column_name = Ok s →
            process_text (wordcloud_text s) = [] →
            ∃ msg,
              match
                match getitem t column_name with
                | Ok s =>
                    if decide (process_text (wordcloud_text s) = [])
                    then (Raise (ValueError
                            "We need at least 1 word to plot a word cloud, got 0."),
                          w)
                    else
                      (Ok (mkFigure (10, 6)
                             [mkAxes (Image (mkWordCloudImage
                                               (process_text (wordcloud_text s))
                                               "white" 1920 1080 (hd 0 (entropy w)))
                                            "bilinear") title "" "" 0]),
                       set_entropy (tl (entropy w)) w)
                | Raise e => (Raise e, w)
                end
              with
              | (Ok fig, w1) =>
                  (Ok fig, set_generate_wordcloud_cache
                             (((t, column_name, title), fig)
                                :: generate_wordcloud_cache w1) w1)
              | (Raise e, w1) => (Raise e, w1)
              end = (Raise (ValueError msg), w)).
  { intros s -> Hs. rewrite decide_True by done. by eexists. }
  split_and!.
  - intros Hc. by rewrite (getitem_KeyError _ _ Hc).
  - exact Hwords.
  - intros Hc Hrows Hempty. destruct (getitem_Ok _ _ Hc) as [s Hs].
    apply (Hwords s Hs). apply getitem_length in Hs. rewrite Hrows in Hs.
    destruct s; [exact Hempty|done].
Qed.

(** ** The page *)

Lemma app_load wordcloud_option w :
  app wordcloud_option w =
  match load_data "netflix_titles.csv" w with
  | (Ok (netflix_raw, netflix_df), w1) =>
      render_page netflix_raw netflix_df wordcloud_option w1
  | (Raise e, w1) => (Raise e, w1)
  end.
Proof.
  unfold app. rewrite run_bind.
  by destruct (load_data "netflix_titles.csv" w) as [[[r d]|] w1].
Qed.

Lemma step_deref {A B} r (f : DataFrame → M A) (k : A → M B) w t :
  heap w !! r = Some t →
  ((deref r ≫= f) ≫= k) w = (f t ≫= k) w.
Proof. intros H. rewrite run_bind, run_bind. unfold deref. by rewrite H. Qed.

(** The script after the load, in terms of the two tables. *)
Lemma render_page_run raw df wordcloud_option w t c :
  heap w !! raw = Some t →
  heap w !! df = Some c →
  render_page raw df wordcloud_option w =
  match type_distribution_figure t with
  | Raise e => (Raise e, w)
  | Ok fig1 =>
      match rating_distribution_figure t with
      | Raise e => (Raise e, w)
      | Ok fig2 =>
          match type_vs_rating_figure t with
          | Raise e => (Raise e, w)
          | Ok fig3 =>
              match assoc wordcloud_option wordcloud_map with
              | None => (Raise (KeyError wordcloud_option), w)
              | Some (column, title) =>
                  match generate_wordcloud df column title w with
                  | (Raise e, w') => (Raise e, w')
                  | (Ok fig4, w') =>
                      (Ok (shape0 t, shape0 c, [fig1; fig2; fig3; fig4]), w')
                  end
              end
          end
      end
  end.
Proof.
  intros Ht Hc. unfold render_page.
  rewrite (step_deref _ _ _ _ t), step_ret by done.
  rewrite (step_deref _ _ _ _ c), step_ret by done.
  rewrite run_bind, (plot_type_distribution_run _ _ t) by done.
  destruct (type_distribution_figure t) as [fig1|]; [|done].
  rewrite run_bind, (plot_rating_distribution_run _ _ t) by done.
  destruct (rating_distribution_figure t) as [fig2|]; [|done].
  rewrite run_bind, (plot_type_vs_rating_run _ _ t) by done.
  destruct (type_vs_rating_figure t) as [fig3|]; [|done].
  rewrite step_lift.
  destruct (assoc wordcloud_option wordcloud_map) as [[column title]|]; [|done].
  rewrite run_bind.
  by destruct (generate_wordcloud df column title w) as [[fig4|] w'].
Qed.

(** Running the script again after a run that returned a page, as every
    interaction with the page does, returns the same page: the same row
    counts and the same four figures. *)
Theorem app_rerun_gives_same_page wordcloud_option w page w1 :
  app wordcloud_option w = (Ok page, w1) →
  ∃ w2, app wordcloud_option w1 = (Ok page, w2).
Proof.
  intros H. rewrite app_load in H.
  destruct (load_data "netflix_titles.csv" w) as [[[r d]|] w0] eqn:Hload; [|done].
  destruct (load_data_returns _ _ _ _ _ Hload) as (t & c & Hr & Hd & Hstore).
  rewrite (render_page_run _ _ _ _ t c) in H by done.
  destruct (type_distribution_figure t) as [fig1|] eqn:H1; [|done].
  destruct (rating_distribution_figure t) as [fig2|] eqn:H2; [|done].
  destruct (type_vs_rating_figure t) as [fig3|] eqn:H3; [|done].
  destruct (assoc wordcloud_option wordcloud_map) as [[column title]|] eqn:Ho;
    [|done].
  destruct (generate_wordcloud d column title w0) as [[fig4|] w'] eqn:H4; [|done].
  injection H as <- <-.
  destruct (generate_wordcloud_returns _ _ _ _ _ _ _ Hd H4)
    as (Hfig & Hheap & Hcache).
  rewrite <- Hcache in Hstore.
  rewrite app_load, (load_data_hit _ _ t c) by done.
  set (w2 := set_heap (heap w' ++ [t; c]) w').
  assert (Hr2 : heap w2 !! length (heap w') = Some t)
    by (unfold w2; cbn [heap set_heap]; by rewrite (list_lookup_middle _ [c])).
  assert (Hd2 : heap w2 !! S (length (heap w')) = Some c).
  { unfold w2. cbn [heap set_heap]. rewrite (lookup_app_r (heap w')) by lia.
    by replace (S (length (heap w')) - length (heap w'))%nat with 1%nat by lia. }
  rewrite (render_page_run _ _ _ _ t c), H1, H2, H3, Ho by done.
  rewrite (generate_wordcloud_hit _ _ _ _ c fig4) by done.
  by exists w2.
Qed.

(** A first run of the script that returns a page shows the row count of
    the parsed file and the number of its complete records, and four
    figures; it does so only when the file has exactly two distinct types
    and the selection is one of the four entries of the dropdown. *)
Theorem app_page_of_first_run wordcloud_option w t raw_rows cleaned_rows figs w1 :
  well_formed t →
  files w !! "netflix_titles.csv" = Some t →
  load_data_cache w !! "netflix_titles.csv" = None →
  app wordcloud_option w = (Ok (raw_rows, cleaned_rows, figs), w1) →
  raw_rows = shape0 t
  ∧ cleaned_rows = length (filter (λ r, complete r = true) (rows t))
  ∧ (cleaned_rows ≤ raw_rows)%nat
  ∧ length figs = 4%nat
  ∧ (∃ types, getitem t "type" = Ok types
              ∧ length (unique (present types)) = 2%nat)
  ∧ wordcloud_option ∈ ["listed_in (Category)"; "country"; "cast"; "director"].
Proof.
  intros Hwf Hfile Hmiss H. rewrite app_load in H.
  destruct (load_data "netflix_titles.csv" w) as [[[r d]|] w0] eqn:Hload; [|done].
  destruct (load_data_cold _ _ _ _ _ _ Hfile Hmiss Hload) as (c & Hc & Hr & Hd).
  destruct (clean_spec _ _ Hwf Hc) as (_ & Hlen & _).
  rewrite (render_page_run _ _ _ _ t c) in H by done.
  destruct (type_distribution_figure t) as [fig1|] eqn:H1; [|done].
  destruct (rating_distribution_figure t) as [fig2|]; [|done].
  destruct (type_vs_rating_figure t) as [fig3|]; [|done].
  destruct (assoc wordcloud_option wordcloud_map) as [[column title]|] eqn:Ho;
    [|done].
  destruct (generate_wordcloud d column title w0) as [[fig4|] w']; [|done].
  injection H as <- <- <- <-. unfold shape0. rewrite Hlen.
  split_and!; [done|done|apply dropna_length|done| |].
  - unfold type_distribution_figure in H1.
    destruct (getitem t "type") as [types|]; [|done]. rewrite result_bind_Ok in H1.
    exists types. split; [done|].
    destruct (decide (length (unique (present types)) = 2%nat)) as [|Hn]; [done|].
    destruct (type_pie_not_two _ Hn) as [msg Hmsg]. by rewrite Hmsg in H1.
  - unfold wordcloud_map in Ho. simpl in Ho.
    repeat (case_decide; [subst; set_solver|]). done.
Qed.

End Dashboard.

(** * The claims on the small catalogue *)

(** One run of the script: three records parsed, two of them complete,
    four figures. *)
Example app_on_fixture :
  ∃ figs w,
    app Fixture.parse Fixture.word_counts "country" Fixture.world
    = (Ok (3, 2, figs)%nat, w)
    ∧ length figs = 4%nat.
Proof. eexists _, _. split; vm_compute; reflexivity. Qed.

(** Numbers as the word cloud reads them: integers as they are, the
    floats of a column that had gaps with a trailing .0, also when the
    gaps are gone. *)
Example numbers_as_text :
  astype_str [Int 2020; Int 2021] = ["2020"; "2021"]
  ∧ astype_str [Float 2020; NaN] = ["2020.0"; "nan"]
  ∧ astype_str [Float 2020; Float 2021] = ["2020.0"; "2021.0"].
Proof. split_and!; vm_compute; reflexivity. Qed.

(** An entry the dropdown does not have. *)
Example app_unknown_option :
  (app Fixture.parse Fixture.word_counts "genre" Fixture.world).1
  = Raise (KeyError "genre").
Proof. vm_compute; reflexivity. Qed.

(** The calendar fields of some days: the epoch and the day before it, a
    leap day, and the days the catalogue names. *)
Example civil_from_days_examples :
  civil_from_days 0 = (1970, 1, 1)
  ∧ civil_from_days (-1) = (1969, 12, 31)
  ∧ civil_from_days 11016 = (2000, 2, 29)
  ∧ civil_from_days (days_from_civil 2021 9 25) = (2021, 9, 25)
  ∧ civil_from_days (days_from_civil 2017 8 4) = (2017, 8, 4)
  ∧ civil_from_days (days_from_civil 900 5 6) = (900, 5, 6).
Proof. split_and!; vm_compute; reflexivity. Qed.

(** The derived fields of the two complete records of the catalogue. *)
Example derived_fields_on_fixture :
  ∃ raw df w' cleaned,
    load_data Fixture.parse "netflix_titles.csv" Fixture.world = (Ok (raw, df), w')
    ∧ heap w' !! df = Some cleaned
    ∧ getitem (dropna Fixture.table) "date_added"
      = Ok [Str "September 25, 2021"; Str " August 4, 2017"]
    ∧ getitem cleaned "day_added" = Ok [Int 25; Int 4]
    ∧ getitem cleaned "month_added" = Ok [Int 9; Int 8]
    ∧ getitem cleaned "year_added" = Ok [Int 2021; Int 2017].
Proof. eexists _, _, _, _. split_and!; vm_compute; reflexivity. Qed.

Lemma fixture_valid : valid_table Fixture.parse Fixture.table.
Proof.
  split; [repeat constructor|].
  eexists. split; [vm_compute; reflexivity|].
  repeat constructor; eexists; vm_compute; reflexivity.
Defined.

Lemma loader_drops_incomplete_records_witness :
  ∃ raw df w' cleaned,
    load_data Fixture.parse "netflix_titles.csv" Fixture.world = (Ok (raw, df), w')
    ∧ heap w' !! raw = Some Fixture.table
    ∧ heap w' !! df = Some cleaned
    ∧ (∀ col, col ∉ derived_columns →
              getitem cleaned col = getitem (dropna Fixture.table) col)
    ∧ shape0 cleaned
      = length (filter (λ r, complete r = true) (rows Fixture.table))
    ∧ (shape0 cleaned ≤ shape0 Fixture.table)%nat.
Proof.
  apply (loader_drops_incomplete_records Fixture.parse
           "netflix_titles.csv" Fixture.world Fixture.table).
  - exact fixture_valid.
  - vm_compute; reflexivity.
  - vm_compute; reflexivity.
Defined.

Lemma derived_date_fields_witness :
  ∃ raw df w',
    load_data Fixture.parse "netflix_titles.csv" Fixture.world = (Ok (raw, df), w')
    ∧ ∃ cleaned original dates days months years,
        heap w' !! df = Some cleaned
        ∧ getitem (dropna Fixture.table) "date_added" = Ok original
        ∧ getitem cleaned "date_added" = Ok dates
        ∧ getitem cleaned "day_added" = Ok days
        ∧ getitem cleaned "month_added" = Ok months
        ∧ getitem cleaned "year_added" = Ok years
        ∧ ∀ k, (k < shape0 cleaned)%nat →
            ∃ c0 ns y m d,
              original !! k = Some c0
              ∧ to_datetime_cell Fixture.parse c0 = Ok (Timestamp ns)
              ∧ dates !! k = Some (Timestamp ns)
              ∧ days !! k = Some (Int d)
              ∧ months !! k = Some (Int m)
              ∧ years !! k = Some (Int y)
              ∧ 1 <= m <= 12
              ∧ 1 <= d <= days_in_month y m
              ∧ d <= 31
              ∧ days_from_civil y m d = ns / ns_per_day
              ∧ (1000 <= y <= 9999
                 ↔ days_from_civil 1000 1 1 * ns_per_day <= ns
                   < days_from_civil 10000 1 1 * ns_per_day).
Proof.
  eexists _, _, _. split; [vm_compute; reflexivity|].
  eapply (derived_date_fields Fixture.parse "netflix_titles.csv"
            Fixture.world Fixture.table).
  - repeat constructor.
  - vm_compute; reflexivity.
  - vm_compute; reflexivity.
  - vm_compute; reflexivity.
Defined.

(** C2, as stated, fails: a date of the year 900, read by a parser whose
    timestamps reach that far back, gives a year of three digits. *)
Lemma year_added_of_three_digits :
  ¬ (∀ parse_datetime_string file_path w raw df w' cleaned years,
       load_data parse_datetime_string file_path w = (Ok (raw, df), w') →
       heap w' !! df = Some cleaned →
       getitem cleaned "year_added" = Ok years →
       Forall (λ c, ∃ y, c = Int y ∧ 1000 <= y <= 9999) years).
Proof.
  intros H.
  assert (∃ raw df w' cleaned,
            load_data Fixture.parse_wide "netflix_titles.csv"
              (Fixture.with_file Fixture.old_date) = (Ok (raw, df), w')
            ∧ heap w' !! df = Some cleaned
            ∧ getitem cleaned "year_added" = Ok [Int 900])
    as (raw & df & w' & cleaned & Hload & Hdf & Hyears)
    by (eexists _, _, _, _; split_and!; vm_compute; reflexivity).
  specialize (H _ _ _ _ _ _ _ _ Hload Hdf Hyears).
  apply Forall_cons in H as [(y & [= <-] & Hy) _]. lia.
Qed.

(** C4, as stated, fails: with a record whose type is missing the counts
    add up to 2 in a table of 3 records. *)
Lemma type_counts_skip_missing_types :
  ¬ (∀ df w fig w' t,
       heap w !! df = Some t →
       plot_type_distribution df w = (Ok fig, w') →
       sum_list (wedge_size <$> wedges_of fig 1) = shape0 t).
Proof.
  intros H.
  specialize (H 0%nat (Fixture.holding Fixture.type_missing) _ _
                Fixture.type_missing eq_refl eq_refl).
  vm_compute in H. discriminate H.
Qed.

Lemma type_counts_sum_to_present_witness :
  ∃ fig w',
    plot_type_distribution 0 (Fixture.holding Fixture.type_missing) = (Ok fig, w')
    ∧ ∃ t col,
        heap (Fixture.holding Fixture.type_missing) !! 0%nat = Some t
        ∧ getitem t "type" = Ok col
        ∧ sum_list (bars_of fig 0).*2 = length (present col)
        ∧ sum_list (wedge_size <$> wedges_of fig 1) = length (present col)
        ∧ (Forall (λ c, notna c = true) col →
           sum_list (bars_of fig 0).*2 = shape0 t
           ∧ sum_list (wedge_size <$> wedges_of fig 1) = shape0 t).
Proof.
  eexists _, _. split; [vm_compute; reflexivity|].
  eapply (type_counts_sum_to_present 0 (Fixture.holding Fixture.type_missing)).
  vm_compute; reflexivity.
Defined.

(** The rating chart of two shows and a movie: PG first, with its two
    records, then TV-MA with one; the type-by-rating chart has the same
    two ratings on its x-axis. *)
Example rating_bars_on_fixture :
  ∃ fig fig2,
    plot_rating_distribution 0 (Fixture.holding Fixture.more_shows)
    = (Ok fig, Fixture.holding Fixture.more_shows)
    ∧ bars_of fig 0 = [(Str "PG", 2%nat); (Str "TV-MA", 1%nat)]
    ∧ plot_type_vs_rating 0 (Fixture.holding Fixture.more_shows)
      = (Ok fig2, Fixture.holding Fixture.more_shows)
    ∧ (groups_of fig2 0).*1 = [Str "PG"; Str "TV-MA"].
Proof. eexists _, _. split_and!; vm_compute; reflexivity. Qed.

Lemma rating_bars_descending_witness :
  ∃ fig w',
    plot_rating_distribution 0 (Fixture.holding Fixture.more_shows) = (Ok fig, w')
    ∧ ∃ t col,
        heap (Fixture.holding Fixture.more_shows) !! 0%nat = Some t
        ∧ getitem t "rating" = Ok col
        ∧ NoDup (bars_of fig 0).*1
        ∧ (∀ c, c ∈ (bars_of fig 0).*1 ↔ c ∈ col ∧ notna c = true)
        ∧ Forall (λ b, b.2 = count b.1 col ∧ (0 < b.2)%nat) (bars_of fig 0)
        ∧ StronglySorted (λ m n, (n ≤ m)%nat) (bars_of fig 0).*2
        ∧ ("type" ∈ columns t →
           ∃ fig2, plot_type_vs_rating 0 (Fixture.holding Fixture.more_shows)
                   = (Ok fig2, Fixture.holding Fixture.more_shows))
        ∧ ∀ fig2 w2,
            plot_type_vs_rating 0 (Fixture.holding Fixture.more_shows)
            = (Ok fig2, w2) →
            (groups_of fig2 0).*1 = (bars_of fig 0).*1.
Proof.
  destruct rating_bars_descending as (Hdrawn & Hbars & _).
  destruct (Hdrawn 0%nat (Fixture.holding Fixture.more_shows) Fixture.more_shows
              [Str "PG"; Str "TV-MA"; Str "PG"] eq_refl eq_refl)
    as [fig Hfig]; [vm_compute; discriminate|].
  exists fig, (Fixture.holding Fixture.more_shows). split; [exact Hfig|].
  exact (Hbars _ _ _ _ Hfig).
Defined.

Lemma wordcloud_text_joins_values_witness :
  ∃ fig w',
    generate_wordcloud__wrapped Fixture.word_counts 0 "country" "Countries"
      (Fixture.holding Fixture.table) = (Ok fig, w')
    ∧ ∃ t s img,
        heap (Fixture.holding Fixture.table) !! 0%nat = Some t
        ∧ getitem t "country" = Ok s
        ∧ image_of fig 0 = Some img
        ∧ frequencies img = Fixture.word_counts (wordcloud_text s).
Proof.
  eexists _, _. split; [vm_compute; reflexivity|].
  destruct (wordcloud_text_joins_values Fixture.word_counts)
    as (_ & _ & _ & _ & _ & H).
  eapply H. vm_compute; reflexivity.
Defined.

Lemma cached_calls_agree_witness :
  (∃ raw df w1,
     load_data Fixture.parse "netflix_titles.csv" Fixture.world = (Ok (raw, df), w1)
     ∧ ∃ raw' df' w2 t c,
         load_data Fixture.parse "netflix_titles.csv" w1 = (Ok (raw', df'), w2)
         ∧ heap w1 !! raw = Some t ∧ heap w2 !! raw' = Some t
         ∧ heap w1 !! df = Some c ∧ heap w2 !! df' = Some c)
  ∧ (∃ fig w1,
       generate_wordcloud Fixture.word_counts 0 "country" "Countries"
         (Fixture.holding Fixture.table) = (Ok fig, w1)
       ∧ generate_wordcloud Fixture.word_counts 0 "country" "Countries" w1
         = (Ok fig, w1)).
Proof.
  destruct (cached_calls_agree Fixture.parse Fixture.word_counts) as (Hload & Hwc & _).
  split.
  - eexists _, _, _. split; [vm_compute; reflexivity|].
    eapply (Hload "netflix_titles.csv" Fixture.world);
      [vm_compute; reflexivity | reflexivity].
  - eexists _, _. split; [vm_compute; reflexivity|].
    eapply (Hwc 0%nat "country" "Countries" (Fixture.holding Fixture.table));
      [vm_compute; reflexivity | reflexivity | reflexivity | reflexivity].
Defined.

(** Calls that raise: the type chart of a table of movies only, and the
    loader on a catalogue whose date is no date.  The table of movies is
    as it was, and the table parsed from the catalogue, the first object
    of the loader, holds the catalogue as parsed. *)
Example tables_after_an_exception :
  (∃ msg, plot_type_distribution 0 (Fixture.holding Fixture.only_movies)
          = (Raise (ValueError msg), Fixture.holding Fixture.only_movies))
  ∧ ∃ msg w',
      load_data__wrapped Fixture.parse "netflix_titles.csv"
        (Fixture.with_file Fixture.bad_date) = (Raise (ValueError msg), w')
      ∧ heap w' !! 0%nat = Some Fixture.bad_date.
Proof.
  split; [eexists; vm_compute; reflexivity|].
  eexists _, _. split; vm_compute; reflexivity.
Qed.

Lemma tables_unchanged_witness :
  (plot_type_distribution 0 (Fixture.holding Fixture.only_movies)).2
  = Fixture.holding Fixture.only_movies
  ∧ (plot_rating_distribution 0 (Fixture.holding Fixture.type_missing)).2
    = Fixture.holding Fixture.type_missing
  ∧ (plot_type_vs_rating 0 (Fixture.holding Fixture.titles_ratings)).2
    = Fixture.holding Fixture.titles_ratings
  ∧ heap (Fixture.holding Fixture.more_shows) !! 0%nat = Some Fixture.more_shows
  ∧ heap (load_data Fixture.parse "netflix_titles.csv"
            (Fixture.holding Fixture.more_shows)).2 !! 0%nat
    = Some Fixture.more_shows
  ∧ files (Fixture.with_file Fixture.bad_date) !! "netflix_titles.csv"
    = Some Fixture.bad_date
  ∧ heap (load_data__wrapped Fixture.parse "netflix_titles.csv"
            (Fixture.with_file Fixture.bad_date)).2 !! 0%nat
    = Some Fixture.bad_date.
Proof.
  destruct (tables_unchanged Fixture.parse) as (H1 & H2 & H3 & H4 & H5 & _).
  split_and!.
  - apply H1.
  - apply H2.
  - apply H3.
  - reflexivity.
  - apply (H4 "netflix_titles.csv" (Fixture.holding Fixture.more_shows)).
    reflexivity.
  - vm_compute; reflexivity.
  - apply (H5 "netflix_titles.csv" (Fixture.with_file Fixture.bad_date)).
    vm_compute; reflexivity.
Defined.

Lemma commas_deleted_without_separator_witness :
  no_blank "USA,India" = true
  ∧ tokens (str_replace "," "" "USA,India") =
    if decide (string_filter not_comma "USA,India" = "") then []
    else [string_filter not_comma "USA,India"].
Proof.
  split; [reflexivity|].
  destruct commas_deleted_without_separator as (_ & H & _).
  apply (H "USA,India"). reflexivity.
Defined.

Lemma type_pie_needs_two_types_witness :
  heap (Fixture.holding Fixture.only_movies) !! 0%nat = Some Fixture.only_movies
  ∧ getitem Fixture.only_movies "type" = Ok [Str "Movie"; Str "Movie"]
  ∧ length (unique (present [Str "Movie"; Str "Movie"])) ≠ 2%nat
  ∧ ∃ msg, plot_type_distribution 0 (Fixture.holding Fixture.only_movies)
           = (Raise (ValueError msg), Fixture.holding Fixture.only_movies).
Proof.
  destruct type_pie_needs_two_types as [_ H].
  destruct (H 0%nat (Fixture.holding Fixture.only_movies) Fixture.only_movies
              [Str "Movie"; Str "Movie"] eq_refl eq_refl) as [_ Hfail].
  assert (Hne : length (unique (present [Str "Movie"; Str "Movie"])) ≠ 2%nat)
    by (vm_compute; lia).
  split_and!; [reflexivity|reflexivity|exact Hne|exact (Hfail Hne)].
Defined.

(** * The further properties on the small catalogue *)

Lemma cleaned_table_is_complete_witness :
  ∃ raw df w',
    load_data Fixture.parse "netflix_titles.csv" Fixture.world = (Ok (raw, df), w')
    ∧ ∃ cleaned,
        heap w' !! df = Some cleaned
        ∧ Forall (λ r, Forall (λ c, notna c = true) r) (rows cleaned)
        ∧ dropna cleaned = cleaned.
Proof.
  eexists _, _, _. split; [vm_compute; reflexivity|].
  eapply (cleaned_table_is_complete Fixture.parse "netflix_titles.csv"
            Fixture.world Fixture.table).
  - repeat constructor.
  - vm_compute; reflexivity.
  - vm_compute; reflexivity.
  - vm_compute; reflexivity.
Defined.

Lemma cleaned_table_header_witness :
  ∃ raw df w',
    load_data Fixture.parse "netflix_titles.csv" Fixture.world = (Ok (raw, df), w')
    ∧ ∃ cleaned,
        heap w' !! df = Some cleaned
        ∧ well_formed cleaned
        ∧ "date_added" ∈ columns Fixture.table
        ∧ columns cleaned
          = columns Fixture.table
            ++ filter (λ c, c ∉ columns Fixture.table)
                      ["day_added"; "year_added"; "month_added"].
Proof.
  eexists _, _, _. split; [vm_compute; reflexivity|].
  eapply (cleaned_table_header Fixture.parse "netflix_titles.csv"
            Fixture.world Fixture.table).
  - repeat constructor.
  - vm_compute; reflexivity.
  - vm_compute; reflexivity.
  - vm_compute; reflexivity.
Defined.

Lemma load_data_needs_file_and_date_column_witness :
  load_data Fixture.parse "other.csv" Fixture.world
  = (Raise (FileNotFoundError "other.csv"), Fixture.world)
  ∧ (load_data Fixture.parse "netflix_titles.csv"
       (Fixture.with_file Fixture.more_shows)).1
    = Raise (KeyError "date_added").
Proof.
  split.
  - apply (load_data_needs_file_and_date_column Fixture.parse "other.csv"
             Fixture.world); vm_compute; reflexivity.
  - apply (proj2 (load_data_needs_file_and_date_column Fixture.parse
                    "netflix_titles.csv" (Fixture.with_file Fixture.more_shows)
                    eq_refl) Fixture.more_shows).
    + vm_compute; reflexivity.
    + apply get_loc_None. vm_compute; reflexivity.
Defined.

Lemma load_data_fails_on_bad_date_witness :
  ∃ c0 e,
    c0 ∈ [Str "soon"]
    ∧ to_datetime_cell Fixture.parse c0 = Raise e
    ∧ (load_data Fixture.parse "netflix_titles.csv"
         (Fixture.with_file Fixture.bad_date)).1 = Raise e.
Proof.
  apply (load_data_fails_on_bad_date Fixture.parse "netflix_titles.csv"
           (Fixture.with_file Fixture.bad_date) Fixture.bad_date).
  - vm_compute; reflexivity.
  - vm_compute; reflexivity.
  - vm_compute; reflexivity.
  - constructor. eexists. vm_compute; reflexivity.
Defined.

Lemma load_data_fails_on_NaT_witness :
  (load_data Fixture.parse "netflix_titles.csv"
     (Fixture.with_file Fixture.nat_date)).1
  = Raise IntCastingNaNError.
Proof.
  apply (load_data_fails_on_NaT Fixture.parse "netflix_titles.csv"
           (Fixture.with_file Fixture.nat_date) Fixture.nat_date
           [Str "September 25, 2021"; Str "NaT"]).
  - repeat constructor.
  - vm_compute; reflexivity.
  - vm_compute; reflexivity.
  - vm_compute; reflexivity.
  - repeat constructor; eexists; vm_compute; reflexivity.
  - apply Exists_cons_tl, Exists_cons_hd. vm_compute; reflexivity.
Defined.

Lemma load_data_without_complete_record_witness :
  ∃ raw df w' cleaned,
    load_data Fixture.parse "netflix_titles.csv"
      (Fixture.with_file Fixture.none_complete) = (Ok (raw, df), w')
    ∧ heap w' !! raw = Some Fixture.none_complete
    ∧ heap w' !! df = Some cleaned
    ∧ rows cleaned = [].
Proof.
  apply (load_data_without_complete_record Fixture.parse "netflix_titles.csv"
           (Fixture.with_file Fixture.none_complete) Fixture.none_complete).
  - repeat constructor.
  - vm_compute. do 6 right. left.
  - repeat constructor.
  - vm_compute; reflexivity.
  - vm_compute; reflexivity.
Defined.

Lemma renderers_need_their_columns_witness :
  plot_type_distribution 0 (Fixture.holding Fixture.titles_only)
  = (Raise (KeyError "type"), Fixture.holding Fixture.titles_only)
  ∧ plot_rating_distribution 0 (Fixture.holding Fixture.titles_only)
    = (Raise (KeyError "rating"), Fixture.holding Fixture.titles_only)
  ∧ plot_type_vs_rating 0 (Fixture.holding Fixture.titles_only)
    = (Raise (KeyError "rating"), Fixture.holding Fixture.titles_only)
  ∧ ∃ msg, plot_type_vs_rating 0 (Fixture.holding Fixture.titles_ratings)
           = (Raise (ValueError msg), Fixture.holding Fixture.titles_ratings).
Proof.
  destruct (renderers_need_their_columns 0 (Fixture.holding Fixture.titles_only)
              Fixture.titles_only eq_refl) as (Htype & Hrating & _).
  destruct (renderers_need_their_columns 0 (Fixture.holding Fixture.titles_ratings)
              Fixture.titles_ratings eq_refl) as (_ & _ & Hhue).
  assert (Hno_type : "type" ∉ columns Fixture.titles_only)
    by (apply get_loc_None; vm_compute; reflexivity).
  assert (Hno_rating : "rating" ∉ columns Fixture.titles_only)
    by (apply get_loc_None; vm_compute; reflexivity).
  assert (Hrating' : "rating" ∈ columns Fixture.titles_ratings)
    by (vm_compute; right; left).
  assert (Hno_type' : "type" ∉ columns Fixture.titles_ratings)
    by (apply get_loc_None; vm_compute; reflexivity).
  split_and!.
  - exact (Htype Hno_type).
  - exact (proj1 (Hrating Hno_rating)).
  - exact (proj2 (Hrating Hno_rating)).
  - exact (Hhue Hrating' Hno_type').
Defined.

Lemma type_pie_has_movie_wedge_first_witness :
  ∃ fig w',
    plot_type_distribution 0 (Fixture.holding Fixture.more_shows) = (Ok fig, w')
    ∧ ∃ n1 n2,
        wedges_of fig 1
        = [mkWedge (Str "Movie") n1 (0 # 1)%Q;
           mkWedge (Str "TV Show") n2 (5 # 100)%Q]
        ∧ (0 < n2 ≤ n1)%nat.
Proof.
  eexists _, _. split; [vm_compute; reflexivity|].
  eapply (type_pie_has_movie_wedge_first 0 (Fixture.holding Fixture.more_shows)).
  vm_compute; reflexivity.
Defined.

Lemma type_pie_right_when_movies_lead_witness :
  ∃ fig w',
    plot_type_distribution 0 (Fixture.holding Fixture.more_movies) = (Ok fig, w')
    ∧ wedges_of fig 1
      = [mkWedge (Str "Movie")
           (count (Str "Movie") [Str "TV Show"; Str "Movie"; Str "Movie"]) (0 # 1)%Q;
         mkWedge (Str "TV Show")
           (count (Str "TV Show") [Str "TV Show"; Str "Movie"; Str "Movie"])
           (5 # 100)%Q].
Proof.
  eexists _, _. split; [vm_compute; reflexivity|].
  eapply (type_pie_right_when_movies_lead 0 (Fixture.holding Fixture.more_movies)
            _ _ Fixture.more_movies).
  - reflexivity.
  - vm_compute; reflexivity.
  - vm_compute; reflexivity.
  - vm_compute. lia.
Defined.

Lemma type_bars_count_each_type_witness :
  ∃ fig w',
    plot_type_distribution 0 (Fixture.holding Fixture.type_missing) = (Ok fig, w')
    ∧ ∃ t col,
        heap (Fixture.holding Fixture.type_missing) !! 0%nat = Some t
        ∧ getitem t "type" = Ok col
        ∧ NoDup (bars_of fig 0).*1
        ∧ (∀ c, c ∈ (bars_of fig 0).*1 ↔ c ∈ col ∧ notna c = true)
        ∧ Forall (λ b, b.2 = count b.1 col ∧ (0 < b.2)%nat) (bars_of fig 0)
        ∧ (bars_of fig 0).*2 ≡ₚ wedge_size <$> wedges_of fig 1.
Proof.
  eexists _, _. split; [vm_compute; reflexivity|].
  eapply (type_bars_count_each_type 0 (Fixture.holding Fixture.type_missing)).
  vm_compute; reflexivity.
Defined.

Lemma rating_pie_labelled_by_rating_witness :
  ∃ fig w',
    plot_rating_distribution 0 (Fixture.holding Fixture.more_shows) = (Ok fig, w')
    ∧ ∃ t col,
        heap (Fixture.holding Fixture.more_shows) !! 0%nat = Some t
        ∧ getitem t "rating" = Ok col
        ∧ (λ wd, (wedge_label wd, wedge_size wd)) <$> wedges_of fig 1
          = bars_of fig 0
        ∧ NoDup (wedge_label <$> wedges_of fig 1)
        ∧ Forall (λ wd, wedge_size wd = count (wedge_label wd) col
                        ∧ wedge_explode wd = (0 # 1)%Q) (wedges_of fig 1).
Proof.
  eexists _, _. split; [vm_compute; reflexivity|].
  eapply (rating_pie_labelled_by_rating 0 (Fixture.holding Fixture.more_shows)).
  vm_compute; reflexivity.
Defined.

(** The type-by-rating chart of two shows and a movie: both types under
    PG, the show alone under TV-MA, where no movie has that rating. *)
Example type_by_rating_on_fixture :
  ∃ fig,
    plot_type_vs_rating 0 (Fixture.holding Fixture.more_shows)
    = (Ok fig, Fixture.holding Fixture.more_shows)
    ∧ groups_of fig 0
      = [(Str "PG", [(Str "TV Show", 1%nat); (Str "Movie", 1%nat)]);
         (Str "TV-MA", [(Str "TV Show", 1%nat)])].
Proof. eexists. split; vm_compute; reflexivity. Qed.


Lemma word_counts_sum_over_records_witness :
  ["USA, India"; "USA"] ≡ₚ ["USA"; "USA, India"]
  ∧ token_count "USA" (wordcloud_text (Str <$> ["USA, India"; "USA"]))
    = token_count "USA" (wordcloud_text (Str <$> ["USA"; "USA, India"])).
Proof.
  assert (Hp : ["USA, India"; "USA"] ≡ₚ ["USA"; "USA, India"])
    by apply Permutation_swap.
  split; [exact Hp|].
  destruct (word_counts_sum_over_records "USA") as (_ & _ & H).
  exact (H _ _ Hp).
Defined.

Lemma generate_wordcloud_needs_column_and_words_witness :
  generate_wordcloud Fixture.word_counts 0 "genre" "Genres"
    (Fixture.holding Fixture.no_records)
  = (Raise (KeyError "genre"), Fixture.holding Fixture.no_records)
  ∧ ∃ msg, generate_wordcloud Fixture.word_counts 0 "country" "Countries"
             (Fixture.holding Fixture.no_records)
           = (Raise (ValueError msg), Fixture.holding Fixture.no_records).
Proof.
  split.
  - destruct (generate_wordcloud_needs_column_and_words Fixture.word_counts
                0 "genre" "Genres" (Fixture.holding Fixture.no_records)
                Fixture.no_records eq_refl eq_refl) as (H & _).
    apply H. apply get_loc_None. vm_compute; reflexivity.
  - destruct (generate_wordcloud_needs_column_and_words Fixture.word_counts
                0 "country" "Countries" (Fixture.holding Fixture.no_records)
                Fixture.no_records eq_refl eq_refl) as (_ & _ & H).
    apply H.
    + vm_compute. do 5 right. left.
    + reflexivity.
    + vm_compute; reflexivity.
Defined.

Lemma app_rerun_gives_same_page_witness :
  ∃ page w1,
    app Fixture.parse Fixture.word_counts "country" Fixture.world = (Ok page, w1)
    ∧ ∃ w2, app Fixture.parse Fixture.word_counts "country" w1 = (Ok page, w2).
Proof.
  eexists _, _. split; [vm_compute; reflexivity|].
  eapply (app_rerun_gives_same_page Fixture.parse Fixture.word_counts
            "country" Fixture.world).
  vm_compute; reflexivity.
Defined.

Lemma app_page_of_first_run_witness :
  ∃ raw_rows cleaned_rows figs w1,
    app Fixture.parse Fixture.word_counts "country" Fixture.world
    = (Ok (raw_rows, cleaned_rows, figs), w1)
    ∧ raw_rows = shape0 Fixture.table
    ∧ cleaned_rows
      = length (filter (λ r, complete r = true) (rows Fixture.table))
    ∧ (cleaned_rows ≤ raw_rows)%nat
    ∧ length figs = 4%nat
    ∧ (∃ types, getitem Fixture.table "type" = Ok types
                ∧ length (unique (present types)) = 2%nat)
    ∧ "country" ∈ ["listed_in (Category)"; "country"; "cast"; "director"].
Proof.
  eexists _, _, _, _. split; [vm_compute; reflexivity|].
  eapply (app_page_of_first_run Fixture.parse Fixture.word_counts "country"
            Fixture.world Fixture.table).
  - repeat constructor.
  - vm_compute; reflexivity.
  - vm_compute; reflexivity.
  - vm_compute; reflexivity.
Defined.
